(** * sims_maf metrics: a shallow embedding of [simpleMetrics.py] and [tgaps.py]

    The metrics reduce one column of a data slice to a scalar or to a
    histogram.  Columns hold finite floating-point numbers; they are modelled
    here by real numbers, so that every arithmetic operation is exact.  What
    numpy adds on top of finite numbers is kept explicit: a statistic may be
    not-a-number ([NaN]), and a call may raise a Python exception.

    Where the rounding of float64 arithmetic decides what a metric returns,
    as for values that tie with the mean in [NoutliersNsigmaMetric], the
    metric is embedded a second time over IEEE 754 binary64 numbers, in
    [Binary64]. *)

From Stdlib Require Import Floats.
From Stdlib Require Import Reals Lra Lia String ZArith Bool Arith List.
From Stdlib Require Import Sorting.Sorted Sorting.Permutation.
Import ListNotations.

Local Open Scope R_scope.

(** ** Python values and exceptions *)

Inductive pyerror : Type :=
| ValueError
| IndexError
| ZeroDivisionError.

(** A computation either returns or raises. *)
Inductive result (A : Type) : Type :=
| Ok (a : A)
| Raise (e : pyerror).

Arguments Ok {A} a.
Arguments Raise {A} e.

Definition bind {A B : Type} (c : result A) (k : A -> result B) : result B :=
  match c with
  | Ok a => k a
  | Raise e => Raise e
  end.

Notation "x <- c ;; k" := (bind c (fun x => k))
  (at level 61, c at next level, right associativity).

Definition raises {A : Type} (c : result A) : Prop :=
  exists e, c = Raise e.

Definition returns {A : Type} (c : result A) : Prop :=
  exists a, c = Ok a.

(** A numpy float64 result: a finite number or not-a-number. *)
Inductive pyfloat : Type :=
| Fin (x : R)
| NaN.

(** What [run] hands back to the driver. *)
Inductive pyval : Type :=
| PyInt (n : Z)
| PyFloat (f : pyfloat)
| PyArr (counts : list Z).

(** ** Comparisons on reals as booleans *)

Definition Rleb (a b : R) : bool := if Rle_dec a b then true else false.
Definition Rltb (a b : R) : bool := if Rlt_dec a b then true else false.
Definition Reqb (a b : R) : bool := if Req_dec_T a b then true else false.
Definition Rgeb (a b : R) : bool := Rleb b a.

(** Arithmetic and comparison of float64 values; a comparison with [NaN] is
    false. *)
Definition fadd (a b : pyfloat) : pyfloat :=
  match a, b with Fin x, Fin y => Fin (x + y) | _, _ => NaN end.
Definition fmul (a b : pyfloat) : pyfloat :=
  match a, b with Fin x, Fin y => Fin (x * y) | _, _ => NaN end.
Definition fsub (a b : pyfloat) : pyfloat :=
  match a, b with Fin x, Fin y => Fin (x - y) | _, _ => NaN end.
Definition fdiv (a : pyfloat) (c : R) : pyfloat :=
  match a with Fin x => Fin (x / c) | NaN => NaN end.
Definition fsqrt (a : pyfloat) : pyfloat :=
  match a with Fin x => Fin (sqrt x) | NaN => NaN end.
Definition fltb (a b : pyfloat) : bool :=
  match a, b with Fin x, Fin y => Rltb x y | _, _ => false end.
Definition fgtb (a b : pyfloat) : bool := fltb b a.

(** ** The numpy functions the metrics call

    Arrays are lists.  Each function follows numpy's documented behaviour,
    including what it does on an empty array. *)

Definition np_sum (a : list R) : R := fold_right Rplus 0 a.

(** [np.mean] of an empty array is not-a-number (with a warning).  The sum
    and the quotient are exact here; [Binary64.np_mean] below rounds
    them. *)
Definition np_mean (a : list R) : pyfloat :=
  match a with
  | [] => NaN
  | _ :: _ => Fin (np_sum a / INR (length a))
  end.

(** [np.std]: population standard deviation, the root of the mean squared
    deviation from the mean; exact as well. *)
Definition np_std (a : list R) : pyfloat :=
  match np_mean a with
  | NaN => NaN
  | Fin m =>
      match np_mean (map (fun x => (x - m) * (x - m)) a) with
      | NaN => NaN
      | Fin v => Fin (sqrt v)
      end
  end.

(** [np.max] and [np.min] have no identity: they raise on an empty array. *)
Definition np_max (a : list R) : result R :=
  match a with
  | [] => Raise ValueError
  | x :: t => Ok (fold_left Rmax t x)
  end.

Definition np_min (a : list R) : result R :=
  match a with
  | [] => Raise ValueError
  | x :: t => Ok (fold_left Rmin t x)
  end.

(** [np.where(cond)[0]]: the positions at which the condition holds, in
    increasing order. *)
Fixpoint where_from (i : nat) (cond : list bool) : list nat :=
  match cond with
  | [] => []
  | b :: t => if b then i :: where_from (S i) t else where_from (S i) t
  end.

Definition np_where (cond : list bool) : list nat := where_from 0 cond.

(** [a[i]] for one position. *)
Definition getitem (a : list R) (i : nat) : result R :=
  match nth_error a i with
  | Some x => Ok x
  | None => Raise IndexError
  end.

(** [a[-1]]. *)
Definition getitem_last (a : list R) : result R :=
  match a with
  | [] => Raise IndexError
  | x :: t => Ok (last t x)
  end.

(** [a[idx]] for an array of positions. *)
Fixpoint take (a : list R) (idx : list nat) : result (list R) :=
  match idx with
  | [] => Ok []
  | i :: t =>
      x <- getitem a i ;;
      r <- take a t ;;
      Ok (x :: r)
  end.

(** [np.sort]. *)
Fixpoint insert (x : R) (l : list R) : list R :=
  match l with
  | [] => [x]
  | y :: t => if Rleb x y then x :: l else y :: insert x t
  end.

Fixpoint np_sort (a : list R) : list R :=
  match a with
  | [] => []
  | x :: t => insert x (np_sort t)
  end.

(** [np.argsort]: the positions of the array in ascending order of value. *)
Fixpoint insert_idx (p : nat * R) (l : list (nat * R)) : list (nat * R) :=
  match l with
  | [] => [p]
  | q :: t => if Rleb (snd p) (snd q) then p :: l else q :: insert_idx p t
  end.

Fixpoint sort_idx (l : list (nat * R)) : list (nat * R) :=
  match l with
  | [] => []
  | p :: t => insert_idx p (sort_idx t)
  end.

Definition np_argsort (a : list R) : list nat :=
  map fst (sort_idx (combine (seq 0 (length a)) a)).

(** [np.diff]: first differences. *)
Fixpoint np_diff (a : list R) : list R :=
  match a with
  | x :: (y :: _) as t => (y - x) :: np_diff t
  | _ => []
  end.

(** [np.concatenate] needs at least one array. *)
Definition np_concatenate (l : list (list R)) : result (list R) :=
  match l with
  | [] => Raise ValueError
  | _ :: _ => Ok (concat l)
  end.

(** [np.roll(a, i)]: element [j] moves to position [(j + i) mod n]. *)
Definition np_roll (a : list R) (i : nat) : list R :=
  let n := length a in
  match n with
  | O => a
  | S _ => let k := (i mod n)%nat in skipn (n - k) a ++ firstn (n - k) a
  end.

(** Elementwise [a - b] of two arrays of the same length. *)
Fixpoint sub (a b : list R) : list R :=
  match a, b with
  | x :: a', y :: b' => (x - y) :: sub a' b'
  | _, _ => []
  end.

(** [np.arange(start, stop, step)] when it has [n] elements. *)
Definition arange_n (start step : R) (n : nat) : list R :=
  map (fun k => start + INR k * step) (seq 0 n).

(** [np.unique]: the sorted distinct values. *)
Fixpoint dedup (l : list R) : list R :=
  match l with
  | x :: (y :: _) as t => if Reqb x y then dedup t else x :: dedup t
  | _ => l
  end.

Definition np_unique (a : list R) : list R := dedup (np_sort a).

(** [np.histogram(a, bins)] with an array of bin edges: bin [k] counts the
    values in [[e_k, e_(k+1))], the last bin also takes its right edge;
    values outside the edges are dropped.  Edges that decrease are
    rejected; fewer than two edges make no bin, and the counts are an
    empty array. *)
Fixpoint increasing (edges : list R) : bool :=
  match edges with
  | x :: (y :: _) as t => Rleb x y && increasing t
  | _ => true
  end.

Definition count (p : R -> bool) (a : list R) : nat :=
  length (filter p a).

Fixpoint bin_counts (a edges : list R) : list Z :=
  match edges with
  | lo :: (hi :: rest) as t =>
      let in_bin x :=
        match rest with
        | [] => Rleb lo x && Rleb x hi
        | _ :: _ => Rleb lo x && Rltb x hi
        end in
      Z.of_nat (count in_bin a) :: bin_counts a t
  | _ => []
  end.

Definition np_histogram (a bins : list R) : result (list Z) :=
  if increasing bins then Ok (bin_counts a bins) else Raise ValueError.

(** [np.percentile(a, q)] with linear interpolation between the two order
    statistics around the position [(n-1) q/100].  [q] outside [[0,100]] is
    rejected; on an empty array the lookup of the order statistics fails. *)
Definition np_percentile (a : list R) (q : R) : result pyfloat :=
  if Rltb q 0 || Rltb 100 q then Raise ValueError else
  match a with
  | [] => Raise IndexError
  | _ :: _ =>
      let s := np_sort a in
      let n := length a in
      let h := (INR n - 1) * (q / 100) in
      let lo := Z.to_nat (Int_part h) in
      let hi := Nat.min (S lo) (n - 1) in
      Ok (Fin (nth lo s 0 + (h - INR lo) * (nth hi s 0 - nth lo s 0)))
  end.

(** [np.median]: the middle order statistic, or the mean of the two middle
    ones; not-a-number on an empty array. *)
Definition np_median (a : list R) : pyfloat :=
  match a with
  | [] => NaN
  | _ :: _ =>
      let s := np_sort a in
      let n := length a in
      if Nat.even n
      then Fin ((nth (n / 2 - 1) s 0 + nth (n / 2) s 0) / 2)
      else Fin (nth (n / 2) s 0)
  end.

(** Float [x % y]: the remainder takes the sign of the divisor. *)
Definition pymod (x y : R) : R := x - IZR (Int_part (x / y)) * y.

Definition fmod (a : pyfloat) (y : R) : pyfloat :=
  match a with Fin x => Fin (pymod x y) | NaN => NaN end.

(** [np.arctan2(y, x)]: the angle of the point [(x, y)], in [(-pi, pi]]. *)
Definition np_arctan2 (y x : R) : R :=
  if Rltb 0 x then atan (y / x)
  else if Rltb x 0 then
    (if Rleb 0 y then atan (y / x) + PI else atan (y / x) - PI)
  else if Rltb 0 y then PI / 2
  else if Rltb y 0 then - (PI / 2)
  else 0.

Definition farctan2 (y x : pyfloat) : pyfloat :=
  match y, x with Fin b, Fin a => Fin (np_arctan2 b a) | _, _ => NaN end.

Definition twopi : R := 2 * PI.

(** ** Data slices and the metric base class *)

(** A data slice is a numpy structured array: the field names of its dtype
    and one record per visit. *)
Record DataSlice : Type := mkSlice {
  names : list string;
  records : list (string -> R)
}.

(** [dataSlice.size]: the number of records. *)
Definition size (d : DataSlice) : nat := length (records d).

(** [dataSlice[col]]: one column; a name that is no field is rejected. *)
Definition getcol (d : DataSlice) (col : string) : result (list R) :=
  if in_dec string_dec col (names d)
  then Ok (map (fun r => r col) (records d))
  else Raise ValueError.

Inductive dtype : Type := dt_float | dt_int | dt_object.

(** Modelled from the spec: [baseMetric.py], which defines the class
    [BaseMetric], is not among the sources.  A metric holds the column it
    consumes, its bad-value sentinel and its output kind. *)
Record BaseMetric : Type := mkBase {
  colname : string;
  badval : pyval;
  metricDtype : dtype
}.

(** Modelled from the spec: the default of the [badval] argument of the
    missing base constructor, -666. *)
Definition default_badval : pyval := PyInt (-666).

(** Modelled from the spec: the missing base constructor registers the
    column and the bad value it is given; the output kind defaults to
    float. *)
Definition BaseMetric_init (col : string) (bad : pyval) : BaseMetric :=
  {| colname := col; badval := bad; metricDtype := dt_float |}.

Definition set_dtype (d : dtype) (b : BaseMetric) : BaseMetric :=
  {| colname := colname b; badval := badval b; metricDtype := d |}.

Definition set_badval (v : pyval) (b : BaseMetric) : BaseMetric :=
  {| colname := colname b; badval := v; metricDtype := metricDtype b |}.

(** Python [n / d] with a float divisor. *)
Definition pydiv (n d : R) : result R :=
  if Reqb d 0 then Raise ZeroDivisionError else Ok (n / d).

(** ** Simple scalar metrics *)

Module MaxMetric.
Definition run (self : BaseMetric) (dataSlice : DataSlice) : result pyval :=
  col <- getcol dataSlice (colname self) ;;
  m <- np_max col ;;
  Ok (PyFloat (Fin m)).
End MaxMetric.

Module MeanMetric.
Definition run (self : BaseMetric) (dataSlice : DataSlice) : result pyval :=
  col <- getcol dataSlice (colname self) ;;
  Ok (PyFloat (np_mean col)).
End MeanMetric.

Module MedianMetric.
Definition run (self : BaseMetric) (dataSlice : DataSlice) : result pyval :=
  col <- getcol dataSlice (colname self) ;;
  Ok (PyFloat (np_median col)).
End MedianMetric.

Module MedianAbsMetric.
Definition run (self : BaseMetric) (dataSlice : DataSlice) : result pyval :=
  col <- getcol dataSlice (colname self) ;;
  Ok (PyFloat (np_median (map Rabs col))).
End MedianAbsMetric.

Module MinMetric.
Definition run (self : BaseMetric) (dataSlice : DataSlice) : result pyval :=
  col <- getcol dataSlice (colname self) ;;
  m <- np_min col ;;
  Ok (PyFloat (Fin m)).
End MinMetric.

Module FullRangeMetric.
Definition run (self : BaseMetric) (dataSlice : DataSlice) : result pyval :=
  col <- getcol dataSlice (colname self) ;;
  hi <- np_max col ;;
  lo <- np_min col ;;
  Ok (PyFloat (Fin (hi - lo))).
End FullRangeMetric.

Module RmsMetric.
Definition run (self : BaseMetric) (dataSlice : DataSlice) : result pyval :=
  col <- getcol dataSlice (colname self) ;;
  Ok (PyFloat (np_std col)).
End RmsMetric.

Module SumMetric.
Definition run (self : BaseMetric) (dataSlice : DataSlice) : result pyval :=
  col <- getcol dataSlice (colname self) ;;
  Ok (PyFloat (Fin (np_sum col))).
End SumMetric.

Module CountUniqueMetric.
Definition run (self : BaseMetric) (dataSlice : DataSlice) : result pyval :=
  col <- getcol dataSlice (colname self) ;;
  Ok (PyInt (Z.of_nat (length (np_unique col)))).
End CountUniqueMetric.

Module CountMetric.
Definition __init__ (col : string) (bad : pyval) : BaseMetric :=
  set_dtype dt_int (BaseMetric_init col bad).

Definition run (self : BaseMetric) (dataSlice : DataSlice) : result pyval :=
  col <- getcol dataSlice (colname self) ;;
  Ok (PyInt (Z.of_nat (length col))).
End CountMetric.

Module CountRatioMetric.
Record t : Type := mk { base : BaseMetric; normVal : R }.

Definition __init__ (col : string) (normVal : R) (bad : pyval) : t :=
  {| base := BaseMetric_init col bad; normVal := normVal |}.

Definition run (self : t) (dataSlice : DataSlice) : result pyval :=
  col <- getcol dataSlice (colname (base self)) ;;
  r <- pydiv (INR (length col)) (normVal self) ;;
  Ok (PyFloat (Fin r)).
End CountRatioMetric.

Module CountSubsetMetric.
Record t : Type := mk { base : BaseMetric; subset : option R }.

(** The constructor overrides the output kind and the bad value after the
    base constructor has run. *)
Definition __init__ (col : string) (subset : option R) (bad : pyval) : t :=
  {| base := set_badval (PyInt 0) (set_dtype dt_int (BaseMetric_init col bad));
     subset := subset |}.

(** [col == subset], elementwise; nothing equals [None]. *)
Definition matches (s : option R) (x : R) : bool :=
  match s with
  | Some v => Reqb x v
  | None => false
  end.

Definition run (self : t) (dataSlice : DataSlice) : result pyval :=
  col <- getcol dataSlice (colname (base self)) ;;
  let count := length (np_where (map (matches (subset self)) col)) in
  Ok (PyInt (Z.of_nat count)).
End CountSubsetMetric.

Module RobustRmsMetric.
Definition run (self : BaseMetric) (dataSlice : DataSlice) : result pyval :=
  col <- getcol dataSlice (colname self) ;;
  p75 <- np_percentile col 75 ;;
  p25 <- np_percentile col 25 ;;
  let iqr := fsub p75 p25 in
  let rms := fdiv iqr 1.349 in
  Ok (PyFloat rms).
End RobustRmsMetric.

Module MaxPercentMetric.
Definition run (self : BaseMetric) (dataSlice : DataSlice) : result pyval :=
  col <- getcol dataSlice (colname self) ;;
  m <- np_max col ;;
  let nMax := length (np_where (map (fun x => Reqb x m) col)) in
  r <- pydiv (INR nMax) (INR (length col)) ;;
  let percent := r * 100 in
  Ok (PyFloat (Fin percent)).
End MaxPercentMetric.

Module BinaryMetric.
Definition run (self : BaseMetric) (dataSlice : DataSlice) : result pyval :=
  if (0 <? size dataSlice)%nat then Ok (PyInt 1) else Ok (badval self).
End BinaryMetric.

Module FracAboveMetric.
Record t : Type := mk { base : BaseMetric; cutoff : R; scale : R }.

Definition __init__ (col : string) (cutoff scale : R) (bad : pyval) : t :=
  {| base := BaseMetric_init col bad; cutoff := cutoff; scale := scale |}.

Definition run (self : t) (dataSlice : DataSlice) : result pyval :=
  col <- getcol dataSlice (colname (base self)) ;;
  let good := np_where (map (fun x => Rgeb x (cutoff self)) col) in
  fracAbove <- pydiv (INR (length good)) (INR (length col)) ;;
  let fracAbove := fracAbove * scale self in
  Ok (PyFloat (Fin fracAbove)).
End FracAboveMetric.

Module FracBelowMetric.
Record t : Type := mk { base : BaseMetric; cutoff : R; scale : R }.

Definition __init__ (col : string) (cutoff scale : R) (bad : pyval) : t :=
  {| base := BaseMetric_init col bad; cutoff := cutoff; scale := scale |}.

Definition run (self : t) (dataSlice : DataSlice) : result pyval :=
  col <- getcol dataSlice (colname (base self)) ;;
  let good := np_where (map (fun x => Rleb x (cutoff self)) col) in
  fracBelow <- pydiv (INR (length good)) (INR (length col)) ;;
  let fracBelow := fracBelow * scale self in
  Ok (PyFloat (Fin fracBelow)).
End FracBelowMetric.

Module PercentileMetric.
Record t : Type := mk { base : BaseMetric; percentile : R }.

Definition __init__ (col : string) (percentile : R) (bad : pyval) : t :=
  {| base := BaseMetric_init col bad; percentile := percentile |}.

Definition run (self : t) (dataSlice : DataSlice) : result pyval :=
  col <- getcol dataSlice (colname (base self)) ;;
  pval <- np_percentile col (percentile self) ;;
  Ok (PyFloat pval).
End PercentileMetric.

Module NoutliersNsigmaMetric.
Record t : Type := mk { base : BaseMetric; nSigma : R }.

Definition __init__ (col : string) (nSigma : R) (bad : pyval) : t :=
  {| base := set_dtype dt_int (BaseMetric_init col bad); nSigma := nSigma |}.

Definition run (self : t) (dataSlice : DataSlice) : result pyval :=
  col <- getcol dataSlice (colname (base self)) ;;
  let med := np_mean col in
  let std := np_std col in
  let boundary := fadd med (fmul (Fin (nSigma self)) std) in
  let outsiders :=
    if Rgeb (nSigma self) 0
    then np_where (map (fun x => fgtb (Fin x) boundary) col)
    else np_where (map (fun x => fltb (Fin x) boundary) col) in
  picked <- take col outsiders ;;
  Ok (PyInt (Z.of_nat (length picked))).
End NoutliersNsigmaMetric.

(** ** Angular metrics *)

(** The truth value of a boolean array under [if]: that of its only
    element; an empty array counts as false and an array of several
    elements is ambiguous. *)
Definition truth (a : list bool) : result bool :=
  match a with
  | [] => Ok false
  | [b] => Ok b
  | _ :: _ :: _ => Raise ValueError
  end.

Definition _rotateAngles (angles : list R) : result (R * list R) :=
  let angleidx := np_argsort angles in
  sorted <- take angles angleidx ;;
  let diffangles := np_diff sorted in
  hi <- getitem_last sorted ;;
  lo <- getitem sorted 0 ;;
  let start_to_end := twopi - hi + lo in
  if Rltb start_to_end 0 then Raise ValueError else
  let diffangles := diffangles ++ [start_to_end] in
  dmax <- np_max diffangles ;;
  let maxdiff := np_where (map (fun d => Reqb d dmax) diffangles) in
  let maxdiff :=
    if (1 <? length maxdiff)%nat
    then skipn (length maxdiff - 1) maxdiff
    else maxdiff in
  at_end <- truth (map (fun m => (Z.of_nat m =? Z.of_nat (length angles) - 1)%Z)
                       maxdiff) ;;
  rotation <- (if at_end : bool
               then getitem sorted 0
               else (after <- take sorted (map S maxdiff) ;; getitem after 0)) ;;
  Ok (rotation, map (fun a => pymod (a - rotation) twopi) angles).

Module MeanAngleMetric.
Definition run (self : BaseMetric) (dataSlice : DataSlice) : result pyval :=
  col <- getcol dataSlice (colname self) ;;
  let x := map cos col in
  let y := map sin col in
  let meanx := np_mean x in
  let meany := np_mean y in
  let angle := farctan2 meany meanx in
  let radius := fsqrt (fadd (fmul meanx meanx) (fmul meany meany)) in
  let mean := fmod angle twopi in
  let mean := if fltb radius (Fin 0.1) then Fin PI else mean in
  Ok (PyFloat mean).
End MeanAngleMetric.

Module RmsAngleMetric.
Definition run (self : BaseMetric) (dataSlice : DataSlice) : result pyval :=
  col <- getcol dataSlice (colname self) ;;
  ra <- _rotateAngles col ;;
  let '(rotation, angles) := ra in
  Ok (PyFloat (np_std angles)).
End RmsAngleMetric.

Module FullRangeAngleMetric.
Definition run (self : BaseMetric) (dataSlice : DataSlice) : result pyval :=
  col <- getcol dataSlice (colname self) ;;
  ra <- _rotateAngles col ;;
  let '(rotation, angles) := ra in
  hi <- np_max angles ;;
  lo <- np_min angles ;;
  Ok (PyFloat (Fin (hi - lo))).
End FullRangeAngleMetric.

(** ** Gap histograms *)

Module TgapsMetric.
Record t : Type := mk {
  base : BaseMetric;
  timesCol : string;
  allGaps : bool;
  bins : list R
}.

(** [np.arange(0.5, 60.0, 0.5)]: 0.5, 1.0, ..., 59.5. *)
Definition default_bins : list R := arange_n 0.5 0.5 119.

Definition __init__ (timesCol : string) (allGaps : bool) (bins : list R)
    (bad : pyval) : t :=
  {| base := set_dtype dt_object (BaseMetric_init timesCol bad);
     timesCol := timesCol; allGaps := allGaps; bins := bins |}.

Definition run (self : t) (dataSlice : DataSlice) : result pyval :=
  if (size dataSlice <? 2)%nat then Ok (badval (base self)) else
  col <- getcol dataSlice (timesCol self) ;;
  let times := np_sort col in
  dts <- (if allGaps self
          then
            let allDiffs :=
              map (fun i => skipn i (sub times (np_roll times i)))
                  (seq 1 (length times - 1)) in
            np_concatenate allDiffs
          else Ok (np_diff times)) ;;
  result <- np_histogram dts (bins self) ;;
  Ok (PyArr result).
End TgapsMetric.

Module NightgapsMetric.
Record t : Type := mk {
  base : BaseMetric;
  nightCol : string;
  allGaps : bool;
  bins : list R
}.

(** [np.arange(0, 10, 1)]: 0, 1, ..., 9. *)
Definition default_bins : list R := arange_n 0 1 10.

Definition __init__ (nightCol : string) (allGaps : bool) (bins : list R)
    (bad : pyval) : t :=
  {| base := set_dtype dt_object (BaseMetric_init nightCol bad);
     nightCol := nightCol; allGaps := allGaps; bins := bins |}.

Definition run (self : t) (dataSlice : DataSlice) : result pyval :=
  if (size dataSlice <? 2)%nat then Ok (badval (base self)) else
  col <- getcol dataSlice (nightCol self) ;;
  let nights := np_sort (np_unique col) in
  dnights <- (if allGaps self
              then
                let allDiffs :=
                  map (fun i => skipn i (sub nights (np_roll nights i)))
                      (seq 1 (length nights - 1)) in
                np_concatenate allDiffs
              else Ok (np_diff nights)) ;;
  result <- np_histogram dnights (bins self) ;;
  Ok (PyArr result).
End NightgapsMetric.

(** ** The metric variants as one type

    The driver calls [run] on whatever metric object it holds; here the
    variants form a tagged union and [run] dispatches on the tag.
    [Coaddm5Metric] is not part of the union: on a slice without records its
    value is minus infinity, which [pyfloat] does not hold. *)

Inductive Metric : Type :=
| Max (m : BaseMetric)
| Mean (m : BaseMetric)
| Median (m : BaseMetric)
| MedianAbs (m : BaseMetric)
| Min (m : BaseMetric)
| FullRange (m : BaseMetric)
| Rms (m : BaseMetric)
| Sum (m : BaseMetric)
| CountUnique (m : BaseMetric)
| Count (m : BaseMetric)
| CountRatio (m : CountRatioMetric.t)
| CountSubset (m : CountSubsetMetric.t)
| RobustRms (m : BaseMetric)
| MaxPercent (m : BaseMetric)
| Binary (m : BaseMetric)
| FracAbove (m : FracAboveMetric.t)
| FracBelow (m : FracBelowMetric.t)
| Percentile (m : PercentileMetric.t)
| NoutliersNsigma (m : NoutliersNsigmaMetric.t)
| MeanAngle (m : BaseMetric)
| RmsAngle (m : BaseMetric)
| FullRangeAngle (m : BaseMetric)
| Tgaps (m : TgapsMetric.t)
| Nightgaps (m : NightgapsMetric.t).

Definition base_of (m : Metric) : BaseMetric :=
  match m with
  | Max b | Mean b | Median b | MedianAbs b | Min b | FullRange b | Rms b
  | Sum b | CountUnique b
  | Count b | RobustRms b | MaxPercent b | Binary b | MeanAngle b
  | RmsAngle b | FullRangeAngle b => b
  | CountRatio c => CountRatioMetric.base c
  | CountSubset c => CountSubsetMetric.base c
  | FracAbove c => FracAboveMetric.base c
  | FracBelow c => FracBelowMetric.base c
  | Percentile c => PercentileMetric.base c
  | NoutliersNsigma c => NoutliersNsigmaMetric.base c
  | Tgaps c => TgapsMetric.base c
  | Nightgaps c => NightgapsMetric.base c
  end.

Definition run (m : Metric) (dataSlice : DataSlice) : result pyval :=
  match m with
  | Max b => MaxMetric.run b dataSlice
  | Mean b => MeanMetric.run b dataSlice
  | Median b => MedianMetric.run b dataSlice
  | MedianAbs b => MedianAbsMetric.run b dataSlice
  | Min b => MinMetric.run b dataSlice
  | FullRange b => FullRangeMetric.run b dataSlice
  | Rms b => RmsMetric.run b dataSlice
  | Sum b => SumMetric.run b dataSlice
  | CountUnique b => CountUniqueMetric.run b dataSlice
  | Count b => CountMetric.run b dataSlice
  | CountRatio c => CountRatioMetric.run c dataSlice
  | CountSubset c => CountSubsetMetric.run c dataSlice
  | RobustRms b => RobustRmsMetric.run b dataSlice
  | MaxPercent b => MaxPercentMetric.run b dataSlice
  | Binary b => BinaryMetric.run b dataSlice
  | FracAbove c => FracAboveMetric.run c dataSlice
  | FracBelow c => FracBelowMetric.run c dataSlice
  | Percentile c => PercentileMetric.run c dataSlice
  | NoutliersNsigma c => NoutliersNsigmaMetric.run c dataSlice
  | MeanAngle b => MeanAngleMetric.run b dataSlice
  | RmsAngle b => RmsAngleMetric.run b dataSlice
  | FullRangeAngle b => FullRangeAngleMetric.run b dataSlice
  | Tgaps c => TgapsMetric.run c dataSlice
  | Nightgaps c => NightgapsMetric.run c dataSlice
  end.

(** A metric built by its class constructor with the bad value [bad]. *)
Inductive constructed (bad : pyval) : Metric -> Prop :=
| c_Max col : constructed bad (Max (BaseMetric_init col bad))
| c_Mean col : constructed bad (Mean (BaseMetric_init col bad))
| c_Median col : constructed bad (Median (BaseMetric_init col bad))
| c_MedianAbs col : constructed bad (MedianAbs (BaseMetric_init col bad))
| c_Min col : constructed bad (Min (BaseMetric_init col bad))
| c_FullRange col : constructed bad (FullRange (BaseMetric_init col bad))
| c_Rms col : constructed bad (Rms (BaseMetric_init col bad))
| c_Sum col : constructed bad (Sum (BaseMetric_init col bad))
| c_CountUnique col : constructed bad (CountUnique (BaseMetric_init col bad))
| c_Count col : constructed bad (Count (CountMetric.__init__ col bad))
| c_CountRatio col n :
    constructed bad (CountRatio (CountRatioMetric.__init__ col n bad))
| c_CountSubset col s :
    constructed bad (CountSubset (CountSubsetMetric.__init__ col s bad))
| c_RobustRms col : constructed bad (RobustRms (BaseMetric_init col bad))
| c_MaxPercent col : constructed bad (MaxPercent (BaseMetric_init col bad))
| c_Binary col : constructed bad (Binary (BaseMetric_init col bad))
| c_FracAbove col c s :
    constructed bad (FracAbove (FracAboveMetric.__init__ col c s bad))
| c_FracBelow col c s :
    constructed bad (FracBelow (FracBelowMetric.__init__ col c s bad))
| c_Percentile col p :
    constructed bad (Percentile (PercentileMetric.__init__ col p bad))
| c_NoutliersNsigma col n :
    constructed bad (NoutliersNsigma (NoutliersNsigmaMetric.__init__ col n bad))
| c_MeanAngle col : constructed bad (MeanAngle (BaseMetric_init col bad))
| c_RmsAngle col : constructed bad (RmsAngle (BaseMetric_init col bad))
| c_FullRangeAngle col :
    constructed bad (FullRangeAngle (BaseMetric_init col bad))
| c_Tgaps col g b : constructed bad (Tgaps (TgapsMetric.__init__ col g b bad))
| c_Nightgaps col g b :
    constructed bad (Nightgaps (NightgapsMetric.__init__ col g b bad)).

(** ** Specification-side definitions

    The notions the properties below are stated with, written directly
    rather than through array positions. *)

(** A slice with the given fields and no record. *)
Definition empty_slice (fields : list string) : DataSlice :=
  mkSlice fields [].

(** The variants that return the sentinel on a slice without records: the
    three that test the slice size, and the subset count when its column
    is a field of the slice. *)
Definition sentinel_on_empty (m : Metric) (d : DataSlice) : Prop :=
  match m with
  | Binary _ | Tgaps _ | Nightgaps _ => True
  | CountSubset c => In (colname (CountSubsetMetric.base c)) (names d)
  | _ => False
  end.

Definition is_CountSubset (m : Metric) : Prop :=
  match m with
  | CountSubset _ => True
  | _ => False
  end.

(** Mean and population standard deviation of a non-empty column. *)
Definition mean_of (col : list R) : R := np_sum col / INR (length col).

Definition std_of (col : list R) : R :=
  sqrt (mean_of (map (fun x => (x - mean_of col) * (x - mean_of col)) col)).

(** The outlier boundary and the values beyond it: above for a non-negative
    [nSigma], below for a negative one. *)
Definition boundary_of (nSigma : R) (col : list R) : R :=
  mean_of col + nSigma * std_of col.

Definition counted (nSigma : R) (col : list R) : list R :=
  if Rleb 0 nSigma
  then filter (fun x => Rltb (boundary_of nSigma col) x) col
  else filter (fun x => Rltb x (boundary_of nSigma col)) col.

(** An angle within one turn, and two angles that differ by whole turns. *)
Definition in_turn (a : R) : Prop := 0 <= a < twopi.

Definition congruent (a b : R) : Prop := exists k : Z, a = b + IZR k * twopi.

(** [a] is atan2(y, x): the direction of the point [(x, y)] as an angle
    within [(-pi, pi]]. *)
Definition is_atan2 (y x a : R) : Prop :=
  - PI < a <= PI /\
  x = sqrt (x * x + y * y) * cos a /\
  y = sqrt (x * x + y * y) * sin a.

(** A column with at least [n] distinct values. *)
Definition distinct_values (n : nat) (col : list R) : Prop :=
  exists l, NoDup l /\ incl l col /\ (n <= length l)%nat.

(** [s] lists the values of the column [col] in ascending order. *)
Definition sorted_values (col s : list R) : Prop :=
  Permutation s col /\ StronglySorted Rle s.


(** The [q]-th percentile of values [s] listed in ascending order: the
    value at the fractional position [(n-1) q/100], weighted between the
    entry just below that position and the next one. *)
Definition percentile_at (s : list R) (q : R) : R :=
  let h := (INR (length s) - 1) * (q / 100) in
  let k := Z.to_nat (Int_part h) in
  let t := h - INR k in
  (1 - t) * nth k s 0 + t * nth (S k) s 0.

(** The differences of a series against itself shifted by [i] positions:
    element [j + i] minus element [j], for every [j] that has both. *)
Definition shifted_diffs (s : list R) (i : nat) : list R :=
  map (fun j => nth (j + i) s 0 - nth j s 0) (seq 0 (length s - i)).

(** Gaps between neighbours, and gaps between all pairs: the shifted
    differences for every offset from 1 to [N - 1], concatenated. *)
Definition consecutive_gaps (s : list R) : list R := shifted_diffs s 1.

Definition all_gaps (s : list R) : list R :=
  flat_map (shifted_diffs s) (seq 1 (length s - 1)).

(** The slice whose only column [name] holds the given values. *)
Definition column_slice (name : string) (values : list R) : DataSlice :=
  mkSlice [name] (map (fun v _ => v) values).

(** Membership of a value in bin [k] of the edges [f 0, ..., f n]: bins are
    closed on the left and open on the right, except the last one, which is
    closed on both sides. *)
Definition in_bin (f : nat -> R) (n k : nat) (x : R) : bool :=
  Rleb (f k) x && (if (S k =? n)%nat then Rleb x (f (S k)) else Rltb x (f (S k))).

(** Bin edges that never decrease. *)
Definition ascending (edges : list R) : Prop :=
  forall j, (S j < length edges)%nat -> nth j edges 0 <= nth (S j) edges 0.

(** The histogram of [values] over the bin [edges]: one count per pair of
    neighbouring edges, none when there are fewer than two edges. *)
Definition histogram_of (values edges : list R) : list Z :=
  map (fun k => Z.of_nat (count (in_bin (fun j => nth j edges 0)
                                        (length edges - 1) k) values))
      (seq 0 (length edges - 1)).

(** Edge [k] of the default time-gap bins. *)
Definition half_day_edge (k : nat) : R := 0.5 + INR k * 0.5.

(** The gaps of a set of angles on the circle: the first differences of the
    sorted angles, then the wraparound gap from the largest angle on to the
    smallest. *)
Definition gap_sequence (angles : list R) : list R :=
  let s := np_sort angles in
  np_diff s ++ [twopi - last s 0 + hd 0 s].

(** Position [m] holds the largest value of [l], and is the last position
    that does. *)
Definition is_last_max (l : list R) (m : nat) : Prop :=
  (m < length l)%nat /\
  (forall j, (j < length l)%nat -> nth j l 0 <= nth m l 0) /\
  (forall j, (m < j < length l)%nat -> nth j l 0 < nth m l 0).

(** The wraparound gap, 2 pi - largest + smallest, exists and is negative. *)
Definition negative_wraparound (angles : list R) : Prop :=
  exists hi lo,
    np_max angles = Ok hi /\ np_min angles = Ok lo /\ twopi - hi + lo < 0.

(** A column whose values are all the same. *)
Definition all_equal (col : list R) : Prop :=
  forall x y, In x col -> In y col -> x = y.

(** The column a metric reads from the slice. *)
Definition column_of (m : Metric) : string :=
  match m with
  | Tgaps c => TgapsMetric.timesCol c
  | Nightgaps c => NightgapsMetric.nightCol c
  | _ => colname (base_of m)
  end.

(** The metrics that reach their column on the slice [d]: all but
    [BinaryMetric], which never reads it, and the gap metrics on a slice
    with fewer than 2 rows, which return before reading it. *)
Definition reads_column (m : Metric) (d : DataSlice) : Prop :=
  match m with
  | Binary _ => False
  | Tgaps _ | Nightgaps _ => (2 <= size d)%nat
  | _ => True
  end.

(** The value at the fractional position [h] of a sorted array, linearly
    interpolated between the neighbouring entries. *)
Definition interpolate (s : list R) (h : R) : R :=
  let lo := Z.to_nat (Int_part h) in
  let hi := Nat.min (S lo) (length s - 1) in
  nth lo s 0 + (h - INR lo) * (nth hi s 0 - nth lo s 0).

(** The number of entries a histogram holds in all its bins. *)
Definition total (counts : list Z) : Z := fold_right Z.add 0%Z counts.

(** The gaps [TgapsMetric] histograms in either mode, from sorted times. *)
Definition gaps_of (allGaps : bool) (s : list R) : list R :=
  if allGaps then all_gaps s else consecutive_gaps s.

(** ** The outlier count in binary64 arithmetic

    The same source lines as [NoutliersNsigmaMetric.run] above, with the
    column held as IEEE 754 binary64 numbers and every operation rounded as
    numpy rounds it. *)

Module Binary64.

Local Open Scope float_scope.

(** A data slice whose fields hold float64 values. *)
Record DataSlice : Type := mkSlice {
  names : list string;
  records : list (string -> float)
}.

Definition getcol (d : DataSlice) (col : string) : result (list float) :=
  if in_dec string_dec col (names d)
  then Ok (map (fun r => r col) (records d))
  else Raise ValueError.

(** The float64 value of an element count. *)
Definition of_nat (n : nat) : float := of_uint63 (Uint63.of_Z (Z.of_nat n)).

(** [np.sum] of a float64 array adds in numpy's pairwise order: fewer than
    8 entries from left to right, starting from minus zero; up to 128
    entries in eight interleaved running sums that are then added in pairs,
    the entries past the last multiple of 8 one by one; a longer array as
    the sum of its two halves, the first cut at a multiple of 8.  Every
    addition rounds to the nearest float64. *)
Fixpoint add_lanes (r block : list float) : list float :=
  match r, block with
  | x :: r', y :: block' => (x + y) :: add_lanes r' block'
  | _, _ => []
  end.

Fixpoint unrolled (blocks : nat) (r a : list float) : list float * list float :=
  match blocks with
  | O => (r, a)
  | S k => unrolled k (add_lanes r (firstn 8 a)) (skipn 8 a)
  end.

Definition lanes_sum (r : list float) : float :=
  match r with
  | [r0; r1; r2; r3; r4; r5; r6; r7] =>
      ((r0 + r1) + (r2 + r3)) + ((r4 + r5) + (r6 + r7))
  | _ => nan
  end.

Definition block_sum (a : list float) : float :=
  let '(r, rest) := unrolled (length a / 8 - 1) (firstn 8 a) (skipn 8 a) in
  fold_left PrimFloat.add rest (lanes_sum r).

(** The recursion halves the array; [fuel] bounds its depth. *)
Fixpoint pairwise_sum (fuel : nat) (a : list float) : float :=
  let n := length a in
  if (n <? 8)%nat then fold_left PrimFloat.add a (-0)
  else if (n <=? 128)%nat then block_sum a
  else
    match fuel with
    | O => nan
    | S fuel' =>
        let n2 := (n / 2 - (n / 2) mod 8)%nat in
        pairwise_sum fuel' (firstn n2 a) + pairwise_sum fuel' (skipn n2 a)
    end.

Definition np_sum (a : list float) : float := pairwise_sum (length a) a.

(** [np.mean]: the sum divided by the number of entries; not-a-number on an
    empty array. *)
Definition np_mean (a : list float) : float := np_sum a / of_nat (length a).

(** [np.std]: the root of the mean squared deviation from the mean. *)
Definition np_std (a : list float) : float :=
  let arrmean := np_mean a in
  let x := map (fun v => v - arrmean) a in
  let x := map (fun v => v * v) x in
  PrimFloat.sqrt (np_sum x / of_nat (length a)).

Definition getitem (a : list float) (i : nat) : result float :=
  match nth_error a i with
  | Some x => Ok x
  | None => Raise IndexError
  end.

Fixpoint take (a : list float) (idx : list nat) : result (list float) :=
  match idx with
  | [] => Ok []
  | i :: t =>
      x <- getitem a i ;;
      r <- take a t ;;
      Ok (x :: r)
  end.

Module NoutliersNsigmaMetric.
Record t : Type := mk { base : BaseMetric; nSigma : float }.

Definition __init__ (col : string) (nSigma : float) (bad : pyval) : t :=
  {| base := set_dtype dt_int (BaseMetric_init col bad); nSigma := nSigma |}.

Definition run (self : t) (dataSlice : DataSlice) : result pyval :=
  col <- getcol dataSlice (colname (base self)) ;;
  let med := np_mean col in
  let std := np_std col in
  let boundary := med + nSigma self * std in
  let outsiders :=
    if 0 <=? nSigma self
    then np_where (map (fun x => boundary <? x) col)
    else np_where (map (fun x => x <? boundary) col) in
  picked <- take col outsiders ;;
  Ok (PyInt (Z.of_nat (length picked))).
End NoutliersNsigmaMetric.

End Binary64.


(** ** Basic facts on the boolean comparisons *)

Lemma Rleb_true a b : a <= b -> Rleb a b = true.
Proof. intros H. unfold Rleb. destruct (Rle_dec a b); [reflexivity | lra]. Qed.

Lemma Rleb_false a b : b < a -> Rleb a b = false.
Proof. intros H. unfold Rleb. destruct (Rle_dec a b); [lra | reflexivity]. Qed.

Lemma Rltb_true a b : a < b -> Rltb a b = true.
Proof. intros H. unfold Rltb. destruct (Rlt_dec a b); [reflexivity | lra]. Qed.

Lemma Rltb_false a b : b <= a -> Rltb a b = false.
Proof. intros H. unfold Rltb. destruct (Rlt_dec a b); [lra | reflexivity]. Qed.

Lemma Reqb_true a b : a = b -> Reqb a b = true.
Proof.
  intros H. unfold Reqb. destruct (Req_dec_T a b); [reflexivity | contradiction].
Qed.

Lemma Reqb_false a b : a <> b -> Reqb a b = false.
Proof.
  intros H. unfold Reqb. destruct (Req_dec_T a b); [contradiction | reflexivity].
Qed.

Lemma Rleb_spec a b : Rleb a b = true <-> a <= b.
Proof. unfold Rleb. destruct (Rle_dec a b); split; intros; try lra; congruence. Qed.

Lemma Rltb_spec a b : Rltb a b = true <-> a < b.
Proof. unfold Rltb. destruct (Rlt_dec a b); split; intros; try lra; congruence. Qed.

Lemma Reqb_spec a b : Reqb a b = true <-> a = b.
Proof.
  unfold Reqb. destruct (Req_dec_T a b); split; intros; try congruence.
Qed.

(** Deciding comparisons between numerals while evaluating a model. *)
Ltac rcmp :=
  repeat match goal with
  | |- context [Rleb ?a ?b] =>
      first [ rewrite (Rleb_true a b) by lra | rewrite (Rleb_false a b) by lra ]
  | |- context [Rltb ?a ?b] =>
      first [ rewrite (Rltb_true a b) by lra | rewrite (Rltb_false a b) by lra ]
  | |- context [Reqb ?a ?b] =>
      first [ rewrite (Reqb_true a b) by lra | rewrite (Reqb_false a b) by lra ]
  end.

(** ** Slices without records *)

Lemma size_zero_records d : size d = 0%nat -> records d = [].
Proof. unfold size. apply length_zero_iff_nil. Qed.

Lemma getcol_empty d col :
  size d = 0%nat ->
  getcol d col = (if in_dec string_dec col (names d) then Ok [] else Raise ValueError).
Proof.
  intros H. unfold getcol. rewrite (size_zero_records d H). reflexivity.
Qed.

Ltac case_col :=
  match goal with
  | |- context [in_dec string_dec ?c ?l] => destruct (in_dec string_dec c l)
  end.

Ltac case_cmp :=
  match goal with
  | |- context [Reqb ?a ?b] => destruct (Reqb a b)
  | |- context [Rltb ?a ?b] => destruct (Rltb a b)
  end.

Lemma run_empty_characterised m d :
  constructed default_badval m ->
  size d = 0%nat ->
  run m d = Ok (badval (base_of m)) <-> sentinel_on_empty m d.
Proof.
  intros Hc Hd.
  destruct Hc; cbn [run base_of sentinel_on_empty];
    unfold MaxMetric.run, MeanMetric.run, MedianMetric.run,
      MedianAbsMetric.run, MinMetric.run, FullRangeMetric.run,
      RmsMetric.run, SumMetric.run, CountUniqueMetric.run, CountMetric.run,
      CountRatioMetric.run, CountSubsetMetric.run, RobustRmsMetric.run,
      MaxPercentMetric.run, BinaryMetric.run, FracAboveMetric.run,
      FracBelowMetric.run, PercentileMetric.run, NoutliersNsigmaMetric.run,
      MeanAngleMetric.run, RmsAngleMetric.run, FullRangeAngleMetric.run,
      TgapsMetric.run, NightgapsMetric.run;
    try rewrite (getcol_empty d _ Hd); try rewrite Hd; cbn;
    try (split; [reflexivity | intros _; reflexivity]);
    try case_col; cbn;
    try (split; [discriminate | contradiction]);
    try (split; [intros _; assumption | reflexivity]).
  - unfold pydiv. case_cmp; cbn; split; try discriminate; contradiction.
  - unfold np_percentile. rcmp. cbn. split; [discriminate | contradiction].
  - unfold pydiv. rewrite Reqb_true by reflexivity. cbn.
    split; [discriminate | contradiction].
  - unfold pydiv. rewrite Reqb_true by reflexivity. cbn.
    split; [discriminate | contradiction].
  - unfold np_percentile.
    repeat case_cmp; cbn; split; try discriminate; contradiction.
  - destruct (Rgeb n 0); cbn; split; try discriminate; contradiction.
Qed.

Lemma MaxMetric_empty self d :
  size d = 0%nat -> raises (MaxMetric.run self d).
Proof.
  intros Hd. unfold MaxMetric.run. rewrite (getcol_empty d _ Hd).
  case_col; cbn; eexists; reflexivity.
Qed.

Lemma FracAboveMetric_empty self d :
  size d = 0%nat -> raises (FracAboveMetric.run self d).
Proof.
  intros Hd. unfold FracAboveMetric.run. rewrite (getcol_empty d _ Hd).
  case_col; cbn; [| eexists; reflexivity].
  unfold pydiv. rewrite Reqb_true by reflexivity. eexists; reflexivity.
Qed.

Lemma MeanMetric_empty self d :
  size d = 0%nat -> In (colname self) (names d) ->
  MeanMetric.run self d = Ok (PyFloat NaN).
Proof.
  intros Hd Hin. unfold MeanMetric.run. rewrite (getcol_empty d _ Hd).
  case_col; [reflexivity | contradiction].
Qed.

(** C1, the claim as stated fails: on a slice with the column present and
    no record, [MaxMetric] raises, [MeanMetric] returns not-a-number and
    [FracAboveMetric] raises a division by zero; none returns the
    sentinel. *)
Lemma empty_slice_not_always_sentinel :
  size (empty_slice ["x"%string]) = 0%nat /\
  run (Max (BaseMetric_init "x" default_badval)) (empty_slice ["x"%string])
    = Raise ValueError /\
  run (Mean (BaseMetric_init "x" default_badval)) (empty_slice ["x"%string])
    = Ok (PyFloat NaN) /\
  run (FracAbove (FracAboveMetric.__init__ "x" 0.5 1 default_badval))
      (empty_slice ["x"%string])
    = Raise ZeroDivisionError /\
  ~ (forall m d, size d = 0%nat -> run m d = Ok (badval (base_of m))).
Proof.
  assert (H3 : run (FracAbove (FracAboveMetric.__init__ "x" 0.5 1 default_badval))
      (empty_slice ["x"%string]) = Raise ZeroDivisionError).
  { cbn. unfold pydiv. rewrite Reqb_true by reflexivity. reflexivity. }
  repeat split; try reflexivity; try exact H3.
  intros H.
  specialize (H (Max (BaseMetric_init "x" default_badval))
                (empty_slice ["x"%string]) eq_refl).
  discriminate H.
Qed.

(** C1 (amended): on a slice with zero rows, a metric built with the default
    bad value returns its sentinel exactly when it is a [BinaryMetric],
    [TgapsMetric] or [NightgapsMetric] (which test the slice size) or a
    [CountSubsetMetric] on a slice that has its column (its count 0 is its
    bad value); [MaxMetric] and [FracAboveMetric] raise, and [MeanMetric]
    returns not-a-number. *)
Theorem empty_slice_sentinel_policy (m : Metric) (d : DataSlice) :
  constructed default_badval m ->
  size d = 0%nat ->
  (run m d = Ok (badval (base_of m)) <-> sentinel_on_empty m d) /\
  (forall b, m = Max b -> raises (run m d)) /\
  (forall c, m = FracAbove c -> raises (run m d)) /\
  (forall b, m = Mean b -> In (colname b) (names d) ->
             run m d = Ok (PyFloat NaN)).
Proof.
  intros Hc Hd. split; [| split; [| split]].
  - apply run_empty_characterised; assumption.
  - intros b ->. apply MaxMetric_empty; assumption.
  - intros c ->. apply FracAboveMetric_empty; assumption.
  - intros b -> Hin. apply MeanMetric_empty; assumption.
Qed.

Lemma empty_slice_sentinel_policy_witness :
  (run (Binary (BaseMetric_init "x" default_badval)) (empty_slice ["x"%string])
     = Ok (badval (base_of (Binary (BaseMetric_init "x" default_badval))))
   <-> sentinel_on_empty (Binary (BaseMetric_init "x" default_badval))
         (empty_slice ["x"%string])).
Proof.
  apply (empty_slice_sentinel_policy
           (Binary (BaseMetric_init "x" default_badval))
           (empty_slice ["x"%string])).
  - constructor.
  - reflexivity.
Defined.

(** ** The sentinel and a computed zero *)

Lemma where_from_none (f : R -> bool) col i :
  Forall (fun x => f x = false) col -> where_from i (map f col) = [].
Proof.
  intros H. revert i. induction H as [| x l Hx _ IH]; intros i; cbn.
  - reflexivity.
  - rewrite Hx. apply IH.
Qed.

Lemma CountSubsetMetric_no_match self d col :
  getcol d (colname (CountSubsetMetric.base self)) = Ok col ->
  Forall (fun x => CountSubsetMetric.matches (CountSubsetMetric.subset self) x = false) col ->
  CountSubsetMetric.run self d = Ok (PyInt 0).
Proof.
  intros Hcol Hnone. unfold CountSubsetMetric.run. rewrite Hcol. cbn.
  unfold np_where. rewrite where_from_none by assumption. reflexivity.
Qed.

(** C2, the claim as stated fails: a [CountSubsetMetric] built with the
    default bad value has the sentinel 0, and on the slice with values 2 and
    3 and subset value 1 (no matching row) it returns the computed count 0,
    which is that sentinel. *)
Lemma CountSubset_sentinel_is_zero :
  badval (base_of (CountSubset
            (CountSubsetMetric.__init__ "x" (Some 1) default_badval)))
    = PyInt 0 /\
  run (CountSubset (CountSubsetMetric.__init__ "x" (Some 1) default_badval))
      (mkSlice ["x"%string] [fun _ => 2; fun _ => 3])
    = Ok (PyInt 0) /\
  ~ (forall m, constructed default_badval m -> badval (base_of m) <> PyInt 0).
Proof.
  split; [reflexivity | split].
  - apply CountSubsetMetric_no_match with (col := [2; 3]).
    + reflexivity.
    + repeat constructor; cbn; apply Reqb_false; lra.
  - intros H.
    apply (H (CountSubset (CountSubsetMetric.__init__ "x" (Some 1) default_badval))).
    + constructor.
    + reflexivity.
Qed.

(** C2 (amended): every metric built with the default bad value that is not
    a [CountSubsetMetric] has the sentinel -666, distinct from a computed
    zero of either numeric kind; a [CountSubsetMetric] has the sentinel 0,
    and on a slice with no matching row its computed count 0 equals it. *)
Theorem sentinel_versus_zero (m : Metric) :
  constructed default_badval m ->
  (~ is_CountSubset m ->
     badval (base_of m) = PyInt (-666) /\
     badval (base_of m) <> PyInt 0 /\
     badval (base_of m) <> PyFloat (Fin 0)) /\
  (forall c d col,
     m = CountSubset c ->
     getcol d (colname (CountSubsetMetric.base c)) = Ok col ->
     Forall (fun x => CountSubsetMetric.matches (CountSubsetMetric.subset c) x = false) col ->
     badval (base_of m) = PyInt 0 /\ run m d = Ok (badval (base_of m))).
Proof.
  intros Hc. split.
  - intros Hn. destruct Hc; cbn in Hn; try contradiction;
      cbn; repeat split; discriminate.
  - intros c d col -> Hcol Hnone.
    inversion Hc; subst. cbn [base_of run]. split; [reflexivity |].
    rewrite (CountSubsetMetric_no_match _ d col Hcol Hnone). reflexivity.
Qed.

Lemma sentinel_versus_zero_witness :
  badval (base_of (Max (BaseMetric_init "x" default_badval))) = PyInt (-666) /\
  badval (base_of (Max (BaseMetric_init "x" default_badval))) <> PyInt 0 /\
  badval (base_of (Max (BaseMetric_init "x" default_badval))) <> PyFloat (Fin 0).
Proof.
  apply (sentinel_versus_zero (Max (BaseMetric_init "x" default_badval))).
  - constructor.
  - cbn. intros H. exact H.
Defined.

(** ** Selecting by [np.where] *)

Lemma getitem_app_length pre x l : getitem (pre ++ x :: l) (length pre) = Ok x.
Proof.
  unfold getitem. rewrite nth_error_app2 by lia.
  rewrite Nat.sub_diag. reflexivity.
Qed.

Lemma take_where_from (p : R -> bool) l : forall pre,
  take (pre ++ l) (where_from (length pre) (map p l)) = Ok (filter p l).
Proof.
  induction l as [| x l IH]; intros pre; cbn [map where_from filter].
  - reflexivity.
  - assert (E : pre ++ x :: l = (pre ++ [x]) ++ l)
      by (rewrite <- app_assoc; reflexivity).
    assert (L : S (length pre) = length (pre ++ [x]))
      by (rewrite length_app; cbn; lia).
    destruct (p x).
    + cbn [take]. rewrite getitem_app_length. cbn [bind].
      rewrite E, L, IH. reflexivity.
    + rewrite E, L, IH. reflexivity.
Qed.

Lemma take_where (p : R -> bool) l :
  take l (np_where (map p l)) = Ok (filter p l).
Proof. exact (take_where_from p l []). Qed.

Lemma where_from_length (p : R -> bool) l : forall i,
  length (where_from i (map p l)) = length (filter p l).
Proof.
  induction l as [| x l IH]; intros i; cbn; [reflexivity |].
  destruct (p x); cbn; rewrite IH; reflexivity.
Qed.

(** ** Mean and standard deviation of a non-empty column *)

Lemma np_mean_nonempty col : col <> [] -> np_mean col = Fin (mean_of col).
Proof. destruct col; [contradiction | reflexivity]. Qed.

Lemma np_std_nonempty col : col <> [] -> np_std col = Fin (std_of col).
Proof.
  intros H. unfold np_std. rewrite (np_mean_nonempty col H).
  rewrite np_mean_nonempty; [reflexivity |].
  destruct col; [contradiction | discriminate].
Qed.

Lemma NoutliersNsigmaMetric_run_counted self d col :
  getcol d (colname (NoutliersNsigmaMetric.base self)) = Ok col ->
  col <> [] ->
  NoutliersNsigmaMetric.run self d
    = Ok (PyInt (Z.of_nat (length (counted (NoutliersNsigmaMetric.nSigma self) col)))).
Proof.
  intros Hcol Hne. unfold NoutliersNsigmaMetric.run. rewrite Hcol. cbn [bind].
  rewrite (np_mean_nonempty col Hne), (np_std_nonempty col Hne).
  cbn [fadd fmul]. unfold counted, boundary_of, Rgeb, fgtb, fltb.
  destruct (Rleb 0 (NoutliersNsigmaMetric.nSigma self));
    rewrite take_where; reflexivity.
Qed.

(** C3: on a non-empty column the boundary is mean + nSigma * std, with the
    mean (not the median) of the column, and [run] returns the number of
    values strictly above it when nSigma is non-negative and the number of
    values strictly below it when nSigma is negative. *)
Theorem NoutliersNsigmaMetric_run_spec
    (self : NoutliersNsigmaMetric.t) (d : DataSlice) (col : list R) :
  getcol d (colname (NoutliersNsigmaMetric.base self)) = Ok col ->
  col <> [] ->
  let nSigma := NoutliersNsigmaMetric.nSigma self in
  let boundary := np_sum col / INR (length col) + nSigma * std_of col in
  (0 <= nSigma ->
     NoutliersNsigmaMetric.run self d
       = Ok (PyInt (Z.of_nat (count (fun x => Rltb boundary x) col)))) /\
  (nSigma < 0 ->
     NoutliersNsigmaMetric.run self d
       = Ok (PyInt (Z.of_nat (count (fun x => Rltb x boundary) col)))).
Proof.
  intros Hcol Hne nSigma boundary.
  rewrite (NoutliersNsigmaMetric_run_counted self d col Hcol Hne).
  fold nSigma. unfold counted, count. fold (mean_of col) in boundary.
  fold (boundary_of nSigma col) in boundary.
  split; intros Hs.
  - rewrite Rleb_true by assumption. reflexivity.
  - rewrite Rleb_false by assumption. reflexivity.
Qed.

Lemma NoutliersNsigmaMetric_run_spec_witness :
  NoutliersNsigmaMetric.run
    (NoutliersNsigmaMetric.__init__ "x" 3 default_badval)
    (mkSlice ["x"%string] [fun _ => 1; fun _ => 2])
  = Ok (PyInt (Z.of_nat
      (count (fun x => Rltb (np_sum [1; 2] / INR (length [1; 2])
                             + 3 * std_of [1; 2]) x) [1; 2]))).
Proof.
  apply (NoutliersNsigmaMetric_run_spec
           (NoutliersNsigmaMetric.__init__ "x" 3 default_badval)
           (mkSlice ["x"%string] [fun _ => 1; fun _ => 2]) [1; 2]).
  - reflexivity.
  - discriminate.
  - cbn. lra.
Defined.


(** ** Float remainder and the mean angle *)

Lemma twopi_pos : 0 < twopi.
Proof. unfold twopi. pose proof PI_RGT_0. lra. Qed.

Lemma pymod_bounds x y : 0 < y -> 0 <= pymod x y < y.
Proof.
  intros Hy. unfold pymod.
  destruct (base_Int_part (x / y)) as [Hlo Hhi].
  set (k := IZR (Int_part (x / y))) in *.
  assert (Hx : x = (x / y) * y) by (field; lra).
  split.
  - assert (k * y <= (x / y) * y) by (apply Rmult_le_compat_r; lra). lra.
  - assert ((x / y) * y < (k + 1) * y) by (apply Rmult_lt_compat_r; lra). lra.
Qed.

Lemma pymod_in_turn x : in_turn (pymod x twopi).
Proof. apply pymod_bounds, twopi_pos. Qed.

Lemma pymod_congruent x : congruent (pymod x twopi) x.
Proof.
  exists (- Int_part (x / twopi))%Z. unfold pymod. rewrite opp_IZR. lra.
Qed.

(** The remainder of [x] is the only angle of its class within one turn. *)
Lemma pymod_unique x a : in_turn a -> congruent a x -> a = pymod x twopi.
Proof.
  intros [Ha0 Ha1] [k Hk]. pose proof twopi_pos as Hp.
  assert (E : (- k)%Z = Int_part (x / twopi)).
  { apply Int_part_spec. rewrite opp_IZR.
    assert (Hx : x / twopi = a / twopi - IZR k).
    { rewrite Hk. field. lra. }
    rewrite Hx.
    assert (0 <= a / twopi < 1).
    { split.
      - apply Rmult_le_pos; [lra |]. apply Rlt_le, Rinv_0_lt_compat, Hp.
      - apply (Rmult_lt_reg_r twopi); [exact Hp |].
        replace (a / twopi * twopi) with a by (field; lra). lra. }
    lra. }
  unfold pymod. rewrite <- E, opp_IZR. lra.
Qed.

Lemma np_arctan2_range y x : - PI < np_arctan2 y x <= PI.
Proof.
  unfold np_arctan2. pose proof PI_RGT_0 as Hp.
  pose proof (atan_bound (y / x)) as Hb.
  unfold Rltb, Rleb.
  destruct (Rlt_dec 0 x) as [Hx | Hx]; [lra |].
  destruct (Rlt_dec x 0) as [Hx' | Hx'].
  - assert (Hi : / x < 0) by (apply Rinv_lt_0_compat; exact Hx').
    destruct (Rle_dec 0 y) as [Hy | Hy].
    + assert (Hq : y / x <= 0) by (unfold Rdiv; nra).
      assert (atan (y / x) <= 0).
      { rewrite <- atan_0. destruct Hq as [Hq | Hq].
        - left. apply atan_increasing. exact Hq.
        - rewrite Hq. right. reflexivity. }
      lra.
    + assert (Hq : 0 < y / x) by (unfold Rdiv; nra).
      assert (0 < atan (y / x)).
      { rewrite <- atan_0. apply atan_increasing. exact Hq. }
      lra.
  - destruct (Rlt_dec 0 y); [lra |]. destruct (Rlt_dec y 0); lra.
Qed.

Lemma sqrt_one_plus_slope x y :
  0 < x -> sqrt (1 + (y / x)²) = sqrt (x * x + y * y) / x.
Proof.
  intros Hx.
  replace (1 + (y / x)²) with ((x * x + y * y) / (x * x))
    by (unfold Rsqr; field; lra).
  rewrite sqrt_div_alt by nra. rewrite (sqrt_square x) by lra. reflexivity.
Qed.

(** The modelled [np.arctan2] is the direction of the point [(x, y)]. *)
Lemma np_arctan2_direction y x :
  0 < sqrt (x * x + y * y) ->
  cos (np_arctan2 y x) = x / sqrt (x * x + y * y) /\
  sin (np_arctan2 y x) = y / sqrt (x * x + y * y).
Proof.
  intros Hr. unfold np_arctan2, Rltb, Rleb.
  destruct (Rlt_dec 0 x) as [Hx | Hx].
  - rewrite cos_atan, sin_atan, sqrt_one_plus_slope by exact Hx.
    split; field; lra.
  - destruct (Rlt_dec x 0) as [Hx' | Hx'].
    + assert (Hs : sqrt (1 + (y / x)²) = sqrt (x * x + y * y) / (- x)).
      { replace (y / x) with ((- y) / (- x)) by (field; lra).
        rewrite sqrt_one_plus_slope by lra. f_equal. f_equal. lra. }
      destruct (Rle_dec 0 y) as [Hy | Hy].
      * rewrite neg_cos, neg_sin, cos_atan, sin_atan, Hs.
        split; field; lra.
      * rewrite cos_minus, sin_minus, cos_PI, sin_PI, cos_atan, sin_atan, Hs.
        split; field; lra.
    + assert (E : x = 0) by lra. subst x.
      replace (0 * 0 + y * y) with (y * y) in * by lra.
      destruct (Rlt_dec 0 y) as [Hy | Hy].
      * rewrite sqrt_square by lra. rewrite cos_PI2, sin_PI2.
        split; field; lra.
      * destruct (Rlt_dec y 0) as [Hy' | Hy'].
        -- replace (y * y) with ((- y) * (- y)) by lra.
           rewrite sqrt_square by lra.
           rewrite cos_neg, sin_neg, cos_PI2, sin_PI2. split; field; lra.
        -- assert (E : y = 0) by lra. subst y.
           rewrite Rmult_0_l, sqrt_0 in Hr. lra.
Qed.


(** ** Percentiles and the robust RMS *)

Lemma distinct_values_length n col :
  distinct_values n col -> (n <= length col)%nat.
Proof.
  intros (l & Hnd & Hincl & Hlen).
  pose proof (NoDup_incl_length Hnd Hincl). lia.
Qed.

Lemma floor_position n q :
  (2 <= n)%nat -> 0 <= q < 100 ->
  let h := (INR n - 1) * (q / 100) in
  (S (Z.to_nat (Int_part h)) <= n - 1)%nat.
Proof.
  intros Hn Hq h.
  assert (Hn' : 2 <= INR n) by (apply (le_INR 2); exact Hn).
  assert (Hh0 : 0 <= h) by (unfold h; nra).
  assert (Hh1 : h < INR n - 1) by (unfold h; nra).
  destruct (base_Int_part h) as [Hlo Hhi].
  assert (Hk0 : (-1 < Int_part h)%Z) by (apply lt_IZR; lra).
  assert (Hk1 : (Int_part h < Z.of_nat n - 1)%Z).
  { apply lt_IZR. rewrite minus_IZR, <- INR_IZR_INZ. lra. }
  lia.
Qed.


(** ** Sorting *)

Lemma insert_perm x l : Permutation (insert x l) (x :: l).
Proof.
  induction l as [| y l IH]; cbn.
  - apply Permutation_refl.
  - destruct (Rleb x y).
    + apply Permutation_refl.
    + eapply perm_trans; [apply perm_skip, IH | apply perm_swap].
Qed.

Lemma np_sort_perm a : Permutation (np_sort a) a.
Proof.
  induction a as [| x a IH]; cbn.
  - constructor.
  - eapply perm_trans; [apply insert_perm | apply perm_skip, IH].
Qed.

Lemma np_sort_length a : length (np_sort a) = length a.
Proof. apply Permutation_length, np_sort_perm. Qed.

Lemma insert_sorted x l :
  StronglySorted Rle l -> StronglySorted Rle (insert x l).
Proof.
  induction 1 as [| y l Hs IH Hy]; cbn.
  - repeat constructor.
  - unfold Rleb. destruct (Rle_dec x y) as [Hxy | Hxy].
    + constructor; [constructor; assumption |].
      constructor; [exact Hxy |].
      eapply Forall_impl; [| exact Hy]. intros z Hz. cbn in Hz. lra.
    + constructor; [exact IH |].
      eapply Permutation_Forall; [apply Permutation_sym, insert_perm |].
      constructor; [lra | exact Hy].
Qed.

Lemma np_sort_sorted a : StronglySorted Rle (np_sort a).
Proof.
  induction a as [| x a IH]; cbn.
  - constructor.
  - apply insert_sorted, IH.
Qed.

Lemma insert_below x l : Forall (Rle x) l -> insert x l = x :: l.
Proof.
  intros H. destruct H as [| y l Hy _]; cbn; [reflexivity |].
  rewrite Rleb_true by exact Hy. reflexivity.
Qed.

(** Sorting leaves a sorted array as it is. *)
Lemma np_sort_id l : StronglySorted Rle l -> np_sort l = l.
Proof.
  induction 1 as [| x l Hs IH Hx]; cbn; [reflexivity |].
  rewrite IH. apply insert_below, Hx.
Qed.

(** Two sorted arrays with the same elements are equal. *)
Lemma sorted_perm_eq l1 : forall l2,
  StronglySorted Rle l1 -> StronglySorted Rle l2 -> Permutation l1 l2 ->
  l1 = l2.
Proof.
  induction l1 as [| x l1 IH]; intros l2 H1 H2 Hp.
  - apply Permutation_nil in Hp. symmetry. exact Hp.
  - destruct l2 as [| y l2].
    + apply Permutation_sym, Permutation_nil in Hp. discriminate.
    + apply StronglySorted_inv in H1. destruct H1 as [H1 Hx].
      apply StronglySorted_inv in H2. destruct H2 as [H2 Hy].
      assert (Exy : x = y).
      { assert (Hxin : In x (y :: l2))
          by (eapply Permutation_in; [exact Hp | left; reflexivity]).
        assert (Hyin : In y (x :: l1))
          by (eapply Permutation_in;
              [apply Permutation_sym; exact Hp | left; reflexivity]).
        destruct Hxin as [E | Hxin]; [symmetry; exact E |].
        destruct Hyin as [E | Hyin]; [exact E |].
        rewrite Forall_forall in Hx, Hy.
        pose proof (Hx y Hyin). pose proof (Hy x Hxin). lra. }
      subst y. f_equal. apply IH; try assumption.
      eapply Permutation_cons_inv. exact Hp.
Qed.

Lemma np_sort_unique a s :
  StronglySorted Rle s -> Permutation s a -> np_sort a = s.
Proof.
  intros Hs Hp. apply sorted_perm_eq.
  - apply np_sort_sorted.
  - exact Hs.
  - eapply perm_trans; [apply np_sort_perm | apply Permutation_sym, Hp].
Qed.

(** ** [argsort] followed by indexing is [sort] *)

Lemma insert_idx_snd p l :
  map snd (insert_idx p l) = insert (snd p) (map snd l).
Proof.
  induction l as [| q l IH]; cbn; [reflexivity |].
  destruct (Rleb (snd p) (snd q)); cbn; [reflexivity |].
  rewrite IH. reflexivity.
Qed.

Lemma sort_idx_snd l : map snd (sort_idx l) = np_sort (map snd l).
Proof.
  induction l as [| p l IH]; cbn; [reflexivity |].
  rewrite insert_idx_snd, IH. reflexivity.
Qed.

Lemma insert_idx_perm p l : Permutation (insert_idx p l) (p :: l).
Proof.
  induction l as [| q l IH]; cbn.
  - apply Permutation_refl.
  - destruct (Rleb (snd p) (snd q)).
    + apply Permutation_refl.
    + eapply perm_trans; [apply perm_skip, IH | apply perm_swap].
Qed.

Lemma sort_idx_perm l : Permutation (sort_idx l) l.
Proof.
  induction l as [| p l IH]; cbn.
  - constructor.
  - eapply perm_trans; [apply insert_idx_perm | apply perm_skip, IH].
Qed.

Lemma combine_seq_lookup (a : list R) : forall i,
  Forall (fun p => nth_error a (fst p - i) = Some (snd p) /\ (i <= fst p)%nat)
         (combine (seq i (length a)) a).
Proof.
  induction a as [| x a IH]; intros i; cbn; constructor.
  - cbn. rewrite Nat.sub_diag. split; [reflexivity | lia].
  - eapply Forall_impl; [| apply (IH (S i))].
    intros [j y] [Hj Hle]. cbn in *. split; [| lia].
    replace (j - i)%nat with (S (j - S i)) by lia. exact Hj.
Qed.

Lemma combine_seq_snd (a : list R) i :
  map snd (combine (seq i (length a)) a) = a.
Proof.
  revert i. induction a as [| x a IH]; intros i; cbn; [reflexivity |].
  rewrite IH. reflexivity.
Qed.

Lemma take_pairs a (ps : list (nat * R)) :
  Forall (fun p => nth_error a (fst p) = Some (snd p)) ps ->
  take a (map fst ps) = Ok (map snd ps).
Proof.
  induction 1 as [| p ps Hp _ IH]; cbn; [reflexivity |].
  unfold getitem. rewrite Hp. cbn. rewrite IH. reflexivity.
Qed.

Lemma take_argsort a : take a (np_argsort a) = Ok (np_sort a).
Proof.
  unfold np_argsort.
  rewrite take_pairs.
  - rewrite sort_idx_snd, combine_seq_snd. reflexivity.
  - eapply Permutation_Forall; [apply Permutation_sym, sort_idx_perm |].
    eapply Forall_impl; [| apply (combine_seq_lookup a 0)].
    intros p [Hp _]. rewrite Nat.sub_0_r in Hp. exact Hp.
Qed.

(** ** Gaps between sorted times *)

Lemma map_seq_of_nth (l : list R) : forall f,
  (forall j, (j < length l)%nat -> nth j l 0 = f j) ->
  l = map f (seq 0 (length l)).
Proof.
  induction l as [| x l IH]; intros f Hf; cbn [length seq map].
  - reflexivity.
  - rewrite <- seq_shift, map_map. f_equal.
    + apply (Hf 0%nat). cbn. lia.
    + apply IH. intros j Hj. apply (Hf (S j)). cbn. lia.
Qed.

Lemma np_diff_length s : length (np_diff s) = (length s - 1)%nat.
Proof.
  induction s as [| x [| y t] IH]; cbn [np_diff length] in *; try reflexivity.
  rewrite IH. lia.
Qed.

Lemma np_diff_nth s : forall j,
  (j + 1 < length s)%nat -> nth j (np_diff s) 0 = nth (j + 1) s 0 - nth j s 0.
Proof.
  induction s as [| x [| y t] IH]; intros j Hj; cbn [length] in Hj; try lia.
  destruct j as [| j]; [reflexivity |].
  cbn [np_diff nth Nat.add]. apply IH. cbn [length]. lia.
Qed.

Lemma np_diff_consecutive s : np_diff s = consecutive_gaps s.
Proof.
  unfold consecutive_gaps, shifted_diffs.
  rewrite <- np_diff_length.
  apply map_seq_of_nth. intros j Hj. rewrite np_diff_length in Hj.
  apply np_diff_nth. lia.
Qed.

Lemma sub_length a : forall b, length (sub a b) = Nat.min (length a) (length b).
Proof.
  induction a as [| x a IH]; intros [| y b]; cbn; try reflexivity.
  rewrite IH. reflexivity.
Qed.

Lemma sub_nth a : forall b j,
  (j < length a)%nat -> (j < length b)%nat ->
  nth j (sub a b) 0 = nth j a 0 - nth j b 0.
Proof.
  induction a as [| x a IH]; intros [| y b] j Ha Hb; cbn in *; try lia.
  destruct j as [| j]; [reflexivity |]. apply IH; lia.
Qed.

Lemma np_roll_length s i : length (np_roll s i) = length s.
Proof.
  unfold np_roll. destruct (length s) as [| n] eqn:E; [exact E |].
  rewrite length_app, length_skipn, length_firstn, E.
  pose proof (Nat.mod_upper_bound i (S n)). lia.
Qed.

Lemma np_roll_nth s i j :
  (0 < i)%nat -> (i <= j)%nat -> (j < length s)%nat ->
  nth j (np_roll s i) 0 = nth (j - i) s 0.
Proof.
  intros Hi Hij Hj. unfold np_roll.
  destruct (length s) as [| n] eqn:E; [lia |].
  rewrite Nat.mod_small by lia.
  rewrite app_nth2; rewrite length_skipn, E; [| lia].
  replace (j - (S n - (S n - i)))%nat with (j - i)%nat by lia.
  rewrite nth_firstn.
  replace (j - i <? S n - i)%nat with true; [reflexivity |].
  symmetry. apply Nat.ltb_lt. lia.
Qed.

(** One round of the loop of the all-gaps mode. *)
Lemma roll_diffs_shifted s i :
  (0 < i)%nat -> (i < length s)%nat ->
  skipn i (sub s (np_roll s i)) = shifted_diffs s i.
Proof.
  intros Hi Hn. unfold shifted_diffs.
  assert (L : length (skipn i (sub s (np_roll s i))) = (length s - i)%nat).
  { rewrite length_skipn, sub_length, np_roll_length. lia. }
  rewrite <- L. apply map_seq_of_nth. intros j Hj. rewrite L in Hj.
  rewrite nth_skipn, sub_nth by (rewrite ?np_roll_length; lia).
  rewrite np_roll_nth by lia.
  replace (i + j)%nat with (j + i)%nat by lia.
  replace (j + i - i)%nat with j by lia. reflexivity.
Qed.

Lemma all_rounds_shifted s :
  map (fun i => skipn i (sub s (np_roll s i))) (seq 1 (length s - 1))
  = map (shifted_diffs s) (seq 1 (length s - 1)).
Proof.
  apply map_ext_in. intros i Hi. apply in_seq in Hi.
  apply roll_diffs_shifted; lia.
Qed.

Lemma all_rounds_concatenate s :
  (2 <= length s)%nat ->
  np_concatenate
    (map (fun i => skipn i (sub s (np_roll s i))) (seq 1 (length s - 1)))
  = Ok (all_gaps s).
Proof.
  intros Hn. rewrite all_rounds_shifted. unfold all_gaps.
  rewrite flat_map_concat_map.
  destruct (length s - 1)%nat as [| m] eqn:E; [lia |]. reflexivity.
Qed.

Lemma getcol_length d name col : getcol d name = Ok col -> length col = size d.
Proof.
  unfold getcol, size. destruct (in_dec string_dec name (names d)); [| discriminate].
  intros H. injection H as <-. apply length_map.
Qed.

Lemma getcol_column_slice name values :
  getcol (column_slice name values) name = Ok values.
Proof.
  unfold getcol, column_slice. cbn [names records].
  destruct (in_dec string_dec name [name]) as [_ | Hn].
  - rewrite map_map, map_id. reflexivity.
  - exfalso. apply Hn. left. reflexivity.
Qed.

Lemma size_column_slice name values :
  size (column_slice name values) = length values.
Proof. unfold size, column_slice. cbn. apply length_map. Qed.

Lemma TgapsMetric_run_consecutive self d col :
  (2 <= size d)%nat ->
  getcol d (TgapsMetric.timesCol self) = Ok col ->
  TgapsMetric.allGaps self = false ->
  TgapsMetric.run self d
  = (counts <- np_histogram (consecutive_gaps (np_sort col)) (TgapsMetric.bins self) ;;
     Ok (PyArr counts)).
Proof.
  intros Hn Hcol Hmode. unfold TgapsMetric.run.
  replace (size d <? 2)%nat with false by (symmetry; apply Nat.ltb_ge; lia).
  rewrite Hcol, Hmode. cbn [bind]. rewrite np_diff_consecutive. reflexivity.
Qed.

Lemma TgapsMetric_run_all self d col :
  (2 <= size d)%nat ->
  getcol d (TgapsMetric.timesCol self) = Ok col ->
  TgapsMetric.allGaps self = true ->
  TgapsMetric.run self d
  = (counts <- np_histogram (all_gaps (np_sort col)) (TgapsMetric.bins self) ;;
     Ok (PyArr counts)).
Proof.
  intros Hn Hcol Hmode. unfold TgapsMetric.run.
  replace (size d <? 2)%nat with false by (symmetry; apply Nat.ltb_ge; lia).
  rewrite Hcol, Hmode. cbn [bind].
  rewrite all_rounds_concatenate; [reflexivity |].
  rewrite np_sort_length, (getcol_length _ _ _ Hcol). exact Hn.
Qed.

Lemma gaps_example_consecutive :
  consecutive_gaps [10; 20; 30; 40] = [10; 10; 10].
Proof. cbn. repeat (f_equal; try lra). Qed.

Lemma gaps_example_all :
  all_gaps [10; 20; 30; 40] = [10; 10; 10; 20; 20; 30].
Proof. cbn. repeat (f_equal; try lra). Qed.


(** ** Histograms over computed edges *)

Lemma count_ext (p q : R -> bool) a :
  (forall x, p x = q x) -> count p a = count q a.
Proof. intros H. unfold count. rewrite (filter_ext p q H). reflexivity. Qed.

Lemma count_flags (p : R -> bool) a :
  count p a = length (filter (fun b : bool => b) (map p a)).
Proof.
  unfold count. induction a as [| x a IH]; cbn; [reflexivity |].
  destruct (p x); cbn; rewrite IH; reflexivity.
Qed.

Lemma bin_counts_cons a lo hi rest :
  bin_counts a (lo :: hi :: rest)
  = Z.of_nat (count (fun x => match rest with
                              | [] => Rleb lo x && Rleb x hi
                              | _ :: _ => Rleb lo x && Rltb x hi
                              end) a)
    :: bin_counts a (hi :: rest).
Proof. reflexivity. Qed.

Lemma bin_counts_edges a (f : nat -> R) : forall n i,
  bin_counts a (map f (seq i (S n)))
  = map (fun k => Z.of_nat (count (in_bin (fun j => f (i + j)%nat) n (k - i)) a))
        (seq i n).
Proof.
  induction n as [| n IH]; intros i.
  - reflexivity.
  - change (map f (seq i (S (S n))))
      with (f i :: f (S i) :: map f (seq (S (S i)) n)).
    rewrite bin_counts_cons.
    change (f (S i) :: map f (seq (S (S i)) n)) with (map f (seq (S i) (S n))).
    rewrite (IH (S i)). cbn [seq map]. f_equal.
    + f_equal. apply count_ext. intros x. unfold in_bin.
      rewrite Nat.sub_diag, Nat.add_0_r, Nat.add_1_r.
      destruct n as [| n]; reflexivity.
    + apply map_ext_in. intros k Hk. apply in_seq in Hk.
      f_equal. apply count_ext. intros x. unfold in_bin.
      replace (k - i)%nat with (S (k - S i)) by lia.
      replace (S i + (k - S i))%nat with (i + S (k - S i))%nat by lia.
      replace (S i + S (k - S i))%nat with (i + S (S (k - S i)))%nat by lia.
      reflexivity.
Qed.

Lemma bin_counts_arange a (f : nat -> R) n :
  bin_counts a (map f (seq 0 (S n)))
  = map (fun k => Z.of_nat (count (in_bin f n k) a)) (seq 0 n).
Proof.
  rewrite bin_counts_edges. apply map_ext. intros k.
  rewrite Nat.sub_0_r. reflexivity.
Qed.

Lemma half_day_edge_mono j k : (j <= k)%nat -> half_day_edge j <= half_day_edge k.
Proof. intros H. apply le_INR in H. unfold half_day_edge. lra. Qed.

Lemma half_day_edge_S k : half_day_edge (S k) = half_day_edge k + 0.5.
Proof. unfold half_day_edge. rewrite S_INR. lra. Qed.

Lemma default_bins_edges :
  TgapsMetric.default_bins = map half_day_edge (seq 0 119).
Proof. reflexivity. Qed.

Lemma increasing_edges (f : nat -> R) :
  (forall j, f j <= f (S j)) ->
  forall n i, increasing (map f (seq i n)) = true.
Proof.
  intros Hf. induction n as [| n IH]; intros i; [reflexivity |].
  specialize (IH (S i)). destruct n as [| n]; [reflexivity |].
  cbn [seq map increasing] in *. rewrite IH.
  rewrite Rleb_true by apply Hf. reflexivity.
Qed.

(** A gap lying in the half-day interval number [m] falls in bin [m] of the
    default edges and in no other. *)
Lemma default_bin_of x m k :
  (m < 118)%nat -> (k < 118)%nat ->
  half_day_edge m <= x < half_day_edge (S m) ->
  in_bin half_day_edge 118 k x = (k =? m)%nat.
Proof.
  intros Hm Hk [Hlo Hhi]. unfold in_bin.
  destruct (Nat.lt_trichotomy k m) as [Hlt | [Heq | Hgt]].
  - replace (k =? m)%nat with false by (symmetry; apply Nat.eqb_neq; lia).
    replace (S k =? 118)%nat with false by (symmetry; apply Nat.eqb_neq; lia).
    pose proof (half_day_edge_mono (S k) m Hlt).
    rewrite (Rltb_false x) by lra. apply andb_false_r.
  - subst k. rewrite Nat.eqb_refl. rewrite Rleb_true by exact Hlo.
    destruct (S m =? 118)%nat.
    + rewrite Rleb_true by lra. reflexivity.
    + rewrite Rltb_true by lra. reflexivity.
  - replace (k =? m)%nat with false by (symmetry; apply Nat.eqb_neq; lia).
    pose proof (half_day_edge_mono (S m) k Hgt).
    rewrite Rleb_false by lra. reflexivity.
Qed.

Lemma edge_19 : half_day_edge 19 <= 10 < half_day_edge 20.
Proof. unfold half_day_edge. cbn [INR]. lra. Qed.

Lemma edge_39 : half_day_edge 39 <= 20 < half_day_edge 40.
Proof. unfold half_day_edge. cbn [INR]. lra. Qed.

Lemma edge_59 : half_day_edge 59 <= 30 < half_day_edge 60.
Proof. unfold half_day_edge. cbn [INR]. lra. Qed.

Lemma np_histogram_edges a (f : nat -> R) n :
  (forall j, f j <= f (S j)) ->
  np_histogram a (map f (seq 0 (S n)))
  = Ok (map (fun k => Z.of_nat (count (in_bin f n k) a)) (seq 0 n)).
Proof.
  intros Hf. unfold np_histogram.
  rewrite increasing_edges by exact Hf.
  rewrite bin_counts_arange. reflexivity.
Qed.

Lemma np_histogram_default a :
  np_histogram a TgapsMetric.default_bins
  = Ok (map (fun k => Z.of_nat (count (in_bin half_day_edge 118 k) a)) (seq 0 118)).
Proof.
  rewrite default_bins_edges. apply np_histogram_edges.
  intros j. rewrite half_day_edge_S. lra.
Qed.

Lemma histogram_example_consecutive :
  np_histogram [10; 10; 10] TgapsMetric.default_bins
  = Ok (repeat 0%Z 19 ++ [3%Z] ++ repeat 0%Z 98).
Proof.
  rewrite np_histogram_default. f_equal.
  transitivity (map (fun k => if (k =? 19)%nat then 3%Z else 0%Z) (seq 0 118));
    [| reflexivity].
  apply map_ext_in. intros k Hk. apply in_seq in Hk.
  rewrite count_flags. cbn [map].
  rewrite (default_bin_of 10 19 k) by (try lia; apply edge_19).
  destruct (k =? 19)%nat; reflexivity.
Qed.

Lemma histogram_example_all :
  np_histogram [10; 10; 10; 20; 20; 30] TgapsMetric.default_bins
  = Ok (repeat 0%Z 19 ++ [3%Z] ++ repeat 0%Z 19 ++ [2%Z]
        ++ repeat 0%Z 19 ++ [1%Z] ++ repeat 0%Z 58).
Proof.
  rewrite np_histogram_default. f_equal.
  transitivity (map (fun k => if (k =? 19)%nat then 3%Z
                              else if (k =? 39)%nat then 2%Z
                              else if (k =? 59)%nat then 1%Z else 0%Z)
                    (seq 0 118)); [| reflexivity].
  apply map_ext_in. intros k Hk. apply in_seq in Hk.
  rewrite count_flags. cbn [map].
  rewrite (default_bin_of 10 19 k) by (try lia; apply edge_19).
  rewrite (default_bin_of 20 39 k) by (try lia; apply edge_39).
  rewrite (default_bin_of 30 59 k) by (try lia; apply edge_59).
  destruct (k =? 19)%nat eqn:E19; [apply Nat.eqb_eq in E19; subst k; reflexivity |].
  destruct (k =? 39)%nat eqn:E39; [apply Nat.eqb_eq in E39; subst k; reflexivity |].
  destruct (k =? 59)%nat; reflexivity.
Qed.

(** ** The time-gap and night-gap metrics *)

Lemma TgapsMetric_run_long self d col :
  (2 <= size d)%nat ->
  getcol d (TgapsMetric.timesCol self) = Ok col ->
  TgapsMetric.run self d
  = (counts <- np_histogram
                 (if TgapsMetric.allGaps self
                  then all_gaps (np_sort col)
                  else consecutive_gaps (np_sort col))
                 (TgapsMetric.bins self) ;;
     Ok (PyArr counts)).
Proof.
  intros Hn Hcol. destruct (TgapsMetric.allGaps self) eqn:Hmode.
  - apply TgapsMetric_run_all; assumption.
  - apply TgapsMetric_run_consecutive; assumption.
Qed.

Lemma dedup_In z l : In z (dedup l) -> In z l.
Proof.
  induction l as [| x [| y t] IH]; intros H; try exact H.
  cbn [dedup] in H. destruct (Reqb x y).
  - right. apply IH, H.
  - destruct H as [H | H]; [left; exact H | right; apply IH, H].
Qed.

Lemma dedup_sorted l : StronglySorted Rle l -> StronglySorted Rle (dedup l).
Proof.
  induction l as [| x [| y t] IH]; intros Hs; try exact Hs.
  apply StronglySorted_inv in Hs. destruct Hs as [Hs Hx].
  cbn [dedup]. destruct (Reqb x y).
  - apply IH, Hs.
  - constructor; [apply IH, Hs |].
    rewrite Forall_forall in *. intros z Hz. apply Hx, dedup_In, Hz.
Qed.

Lemma np_unique_sorted col : StronglySorted Rle (np_unique col).
Proof. apply dedup_sorted, np_sort_sorted. Qed.

Lemma np_sort_unique_id col : np_sort (np_unique col) = np_unique col.
Proof. apply np_sort_id, np_unique_sorted. Qed.

Lemma NightgapsMetric_run_long self d col :
  (2 <= size d)%nat ->
  getcol d (NightgapsMetric.nightCol self) = Ok col ->
  NightgapsMetric.run self d
  = (dnights <- (if NightgapsMetric.allGaps self
                 then
                   np_concatenate
                     (map (fun i => skipn i (sub (np_unique col)
                                               (np_roll (np_unique col) i)))
                          (seq 1 (length (np_unique col) - 1)))
                 else Ok (consecutive_gaps (np_unique col))) ;;
     counts <- np_histogram dnights (NightgapsMetric.bins self) ;;
     Ok (PyArr counts)).
Proof.
  intros Hn Hcol. unfold NightgapsMetric.run.
  replace (size d <? 2)%nat with false by (symmetry; apply Nat.ltb_ge; lia).
  rewrite Hcol. cbn [bind]. rewrite np_sort_unique_id, np_diff_consecutive.
  reflexivity.
Qed.


(** ** Largest and smallest element *)

Lemma fold_max_ge t : forall x, x <= fold_left Rmax t x.
Proof.
  induction t as [| y t IH]; intros x; cbn; [lra |].
  eapply Rle_trans; [apply (Rmax_l x y) | apply IH].
Qed.

Lemma fold_max_upper t : forall x y, In y t -> y <= fold_left Rmax t x.
Proof.
  induction t as [| z t IH]; intros x y Hy; [contradiction |].
  cbn. destruct Hy as [-> | Hy].
  - eapply Rle_trans; [apply (Rmax_r x y) | apply fold_max_ge].
  - apply IH, Hy.
Qed.

Lemma fold_max_In t : forall x, In (fold_left Rmax t x) (x :: t).
Proof.
  induction t as [| y t IH]; intros x; cbn [fold_left]; [left; reflexivity |].
  destruct (IH (Rmax x y)) as [H | H].
  - rewrite <- H. unfold Rmax. destruct (Rle_dec x y).
    + right. left. reflexivity.
    + left. reflexivity.
  - right. right. exact H.
Qed.

Lemma fold_min_le t : forall x, fold_left Rmin t x <= x.
Proof.
  induction t as [| y t IH]; intros x; cbn; [lra |].
  eapply Rle_trans; [apply IH | apply (Rmin_l x y)].
Qed.

Lemma fold_min_lower t : forall x y, In y t -> fold_left Rmin t x <= y.
Proof.
  induction t as [| z t IH]; intros x y Hy; [contradiction |].
  cbn. destruct Hy as [-> | Hy].
  - eapply Rle_trans; [apply fold_min_le | apply (Rmin_r x y)].
  - apply IH, Hy.
Qed.

Lemma fold_min_In t : forall x, In (fold_left Rmin t x) (x :: t).
Proof.
  induction t as [| y t IH]; intros x; cbn [fold_left]; [left; reflexivity |].
  destruct (IH (Rmin x y)) as [H | H].
  - rewrite <- H. unfold Rmin. destruct (Rle_dec x y).
    + left. reflexivity.
    + right. left. reflexivity.
  - right. right. exact H.
Qed.

Lemma np_max_spec a hi :
  np_max a = Ok hi <-> In hi a /\ Forall (fun x => x <= hi) a.
Proof.
  destruct a as [| x t]; cbn [np_max].
  - split; [discriminate | intros [[] _]].
  - split.
    + intros H. injection H as <-. split; [apply fold_max_In |].
      constructor; [apply fold_max_ge |].
      apply Forall_forall. intros y Hy. apply fold_max_upper, Hy.
    + intros [Hin Hub]. f_equal. rewrite Forall_forall in Hub.
      pose proof (Hub _ (fold_max_In t x)) as H1.
      assert (H2 : hi <= fold_left Rmax t x).
      { destruct Hin as [<- | Hin];
          [apply fold_max_ge | apply fold_max_upper, Hin]. }
      lra.
Qed.

Lemma np_min_spec a lo :
  np_min a = Ok lo <-> In lo a /\ Forall (fun x => lo <= x) a.
Proof.
  destruct a as [| x t]; cbn [np_min].
  - split; [discriminate | intros [[] _]].
  - split.
    + intros H. injection H as <-. split; [apply fold_min_In |].
      constructor; [apply fold_min_le |].
      apply Forall_forall. intros y Hy. apply fold_min_lower, Hy.
    + intros [Hin Hlb]. f_equal. rewrite Forall_forall in Hlb.
      pose proof (Hlb _ (fold_min_In t x)) as H1.
      assert (H2 : fold_left Rmin t x <= lo).
      { destruct Hin as [<- | Hin];
          [apply fold_min_le | apply fold_min_lower, Hin]. }
      lra.
Qed.

(** ** Ends of a sorted array *)

Lemma sorted_hd_lower s :
  StronglySorted Rle s -> Forall (fun x => hd 0 s <= x) s.
Proof.
  intros Hs. destruct Hs as [| x s Hs Hx]; constructor; cbn; [lra | exact Hx].
Qed.

Lemma sorted_last_upper s :
  StronglySorted Rle s -> Forall (fun x => x <= last s 0) s.
Proof.
  induction 1 as [| x s Hs IH Hx]; [constructor |].
  destruct s as [| y s]; [repeat constructor; cbn; lra |].
  change (last (x :: y :: s) 0) with (last (y :: s) 0).
  constructor; [| exact IH].
  apply Forall_inv in IH. apply Forall_inv in Hx. lra.
Qed.

Lemma last_In (s : list R) d : s <> [] -> In (last s d) s.
Proof.
  induction s as [| x s IH]; intros Hne; [contradiction |].
  destruct s as [| y s]; [left; reflexivity |].
  right. apply IH. discriminate.
Qed.

Lemma hd_In (s : list R) d : s <> [] -> In (hd d s) s.
Proof. destruct s; [contradiction | left; reflexivity]. Qed.

Lemma np_sort_nonempty a : a <> [] -> np_sort a <> [].
Proof.
  intros Hne E. apply Hne. apply length_zero_iff_nil.
  rewrite <- np_sort_length, E. reflexivity.
Qed.

Lemma np_max_sorted_last a : a <> [] -> np_max a = Ok (last (np_sort a) 0).
Proof.
  intros Hne. apply np_max_spec. split.
  - eapply Permutation_in; [apply np_sort_perm |].
    apply last_In, np_sort_nonempty, Hne.
  - eapply Permutation_Forall; [apply np_sort_perm |].
    apply sorted_last_upper, np_sort_sorted.
Qed.

Lemma np_min_sorted_hd a : a <> [] -> np_min a = Ok (hd 0 (np_sort a)).
Proof.
  intros Hne. apply np_min_spec. split.
  - eapply Permutation_in; [apply np_sort_perm |].
    apply hd_In, np_sort_nonempty, Hne.
  - eapply Permutation_Forall; [apply np_sort_perm |].
    apply sorted_hd_lower, np_sort_sorted.
Qed.

(** ** The positions returned by [np.where] *)

Lemma where_from_In c : forall i j,
  In j (where_from i c) <-> (i <= j)%nat /\ nth (j - i) c false = true.
Proof.
  induction c as [| b c IH]; intros i j; cbn [where_from].
  - split; [contradiction |]. intros [_ H]. destruct (j - i)%nat; discriminate.
  - assert (Step : In j (where_from (S i) c) <->
                   (S i <= j)%nat /\ nth (j - i) (b :: c) false = true).
    { rewrite IH. split; intros [H1 H2]; (split; [exact H1 |]).
      - replace (j - i)%nat with (S (j - S i)) by lia. exact H2.
      - replace (j - i)%nat with (S (j - S i)) in H2 by lia. exact H2. }
    destruct b.
    + cbn [In]. rewrite Step. split.
      * intros [<- | [H1 H2]]; [| split; [lia | exact H2]].
        rewrite Nat.sub_diag. split; [lia | reflexivity].
      * intros [H1 H2]. destruct (Nat.eq_dec i j) as [E | E]; [left; exact E |].
        right. split; [lia | exact H2].
    + rewrite Step. split.
      * intros [H1 H2]. split; [lia | exact H2].
      * intros [H1 H2]. split; [| exact H2].
        destruct (Nat.eq_dec i j) as [E | E]; [| lia].
        subst j. rewrite Nat.sub_diag in H2. discriminate.
Qed.

Lemma where_from_sorted c : forall i, StronglySorted lt (where_from i c).
Proof.
  induction c as [| b c IH]; intros i; cbn [where_from]; [constructor |].
  destruct b; [| apply IH].
  constructor; [apply IH |].
  apply Forall_forall. intros j Hj. apply where_from_In in Hj. lia.
Qed.

Lemma sorted_last_largest (w : list nat) :
  StronglySorted lt w -> forall j, In j w -> (j <= last w 0)%nat.
Proof.
  induction 1 as [| x w Hs IH Hx]; intros j Hj; [contradiction |].
  destruct w as [| y w].
  - destruct Hj as [<- | []]. cbn. lia.
  - change (last (x :: y :: w) 0%nat) with (last (y :: w) 0%nat).
    destruct Hj as [<- | Hj]; [| apply IH, Hj].
    apply Forall_inv in Hx. specialize (IH y (or_introl eq_refl)). lia.
Qed.

Lemma last_In_nat (w : list nat) d : w <> [] -> In (last w d) w.
Proof.
  induction w as [| x w IH]; intros Hne; [contradiction |].
  destruct w as [| y w]; [left; reflexivity |].
  right. apply IH. discriminate.
Qed.

Lemma skipn_all_but_last (w : list nat) d :
  w <> [] -> skipn (length w - 1) w = [last w d].
Proof.
  induction w as [| x w IH]; intros Hne; [contradiction |].
  destruct w as [| y w]; [reflexivity |].
  change (last (x :: y :: w) d) with (last (y :: w) d).
  rewrite <- IH by discriminate.
  cbn [length]. replace (S (S (length w)) - 1)%nat with (S (length w)) by lia.
  replace (S (length w) - 1)%nat with (length w) by lia. reflexivity.
Qed.

(** The positions of the maximum, cut down to the last one as the code
    does, single out the last maximum. *)
Lemma last_maximum_position l dmax :
  np_max l = Ok dmax ->
  let w := np_where (map (fun d => Reqb d dmax) l) in
  exists m,
    (if (1 <? length w)%nat then skipn (length w - 1) w else w) = [m] /\
    is_last_max l m /\ nth m l 0 = dmax.
Proof.
  intros Hmax w. apply np_max_spec in Hmax. destruct Hmax as [Hin Hub].
  assert (Hw : forall j, In j w <-> (j < length l)%nat /\ nth j l 0 = dmax).
  { intros j. unfold w, np_where. rewrite where_from_In, Nat.sub_0_r.
    split.
    - intros [_ H]. destruct (Nat.lt_ge_cases j (length l)) as [Hj | Hj].
      + split; [exact Hj |].
        rewrite (nth_indep _ false (Reqb 0 dmax)) in H
          by (rewrite length_map; exact Hj).
        rewrite (map_nth (fun d => Reqb d dmax)) in H.
        apply Reqb_spec in H. exact H.
      + rewrite nth_overflow in H by (rewrite length_map; exact Hj).
        discriminate.
    - intros [Hj H]. split; [lia |].
      rewrite (nth_indep _ false (Reqb 0 dmax)) by (rewrite length_map; exact Hj).
      rewrite (map_nth (fun d => Reqb d dmax)). apply Reqb_true, H. }
  assert (Hne : w <> []).
  { destruct (In_nth _ _ 0 Hin) as (j & Hj & Hnth).
    intros E. assert (Hjw : In j w) by (apply Hw; split; assumption).
    rewrite E in Hjw. exact Hjw. }
  exists (last w 0%nat).
  assert (Hlast : In (last w 0%nat) w) by (apply last_In_nat, Hne).
  apply Hw in Hlast. destruct Hlast as [Hm Hnth].
  split; [| split; [split; [exact Hm | split] | exact Hnth]].
  - destruct (1 <? length w)%nat eqn:E.
    + apply skipn_all_but_last, Hne.
    + apply Nat.ltb_ge in E. destruct w as [| x [| y w']]; cbn in E;
        [contradiction | reflexivity | lia].
  - intros j Hj. rewrite Hnth. rewrite Forall_forall in Hub.
    apply Hub, nth_In, Hj.
  - intros j [Hmj Hj]. rewrite Hnth.
    assert (Hle : nth j l 0 <= dmax).
    { rewrite Forall_forall in Hub. apply Hub, nth_In, Hj. }
    destruct Hle as [Hlt | Heq]; [exact Hlt |].
    assert (Hjw : In j w) by (apply Hw; split; assumption).
    pose proof (sorted_last_largest w (where_from_sorted _ 0) j Hjw). lia.
Qed.

(** ** What [_rotateAngles] computes *)

Lemma last_cons_default (x : R) t d : last (x :: t) d = last t x.
Proof.
  revert x d. induction t as [| y t IH]; intros x d; [reflexivity |].
  change (last (x :: y :: t) d) with (last (y :: t) d).
  rewrite (IH y d), (IH y x). reflexivity.
Qed.

Lemma getitem_last_nonempty s : s <> [] -> getitem_last s = Ok (last s 0).
Proof.
  destruct s as [| x t]; [contradiction |]. intros _.
  cbn [getitem_last]. rewrite last_cons_default. reflexivity.
Qed.

Lemma getitem_nth s i : (i < length s)%nat -> getitem s i = Ok (nth i s 0).
Proof.
  intros Hi. unfold getitem. rewrite (nth_error_nth' s 0 Hi). reflexivity.
Qed.

Lemma hd_nth_0 (s : list R) : hd 0 s = nth 0 s 0.
Proof. destruct s; reflexivity. Qed.

Lemma gap_sequence_length angles :
  angles <> [] -> length (gap_sequence angles) = length angles.
Proof.
  intros Hne. unfold gap_sequence. cbv zeta.
  rewrite length_app, np_diff_length, np_sort_length. cbn [length].
  destruct angles; [contradiction | cbn [length]; lia].
Qed.

(** The position right after gap [m] on the circle of [n] sorted angles. *)
Lemma rotateAngles_nonempty angles :
  angles <> [] ->
  let s := np_sort angles in
  let wrap := twopi - last s 0 + hd 0 s in
  (wrap < 0 -> _rotateAngles angles = Raise ValueError) /\
  (0 <= wrap ->
   exists m,
     is_last_max (gap_sequence angles) m /\
     _rotateAngles angles
     = Ok (nth (S m mod length angles) s 0,
           map (fun a => pymod (a - nth (S m mod length angles) s 0) twopi)
               angles)).
Proof.
  intros Hne s wrap.
  assert (Hs : s <> []) by (apply np_sort_nonempty, Hne).
  assert (Hlen : length s = length angles) by apply np_sort_length.
  assert (Hn : (0 < length angles)%nat).
  { destruct angles; [contradiction | cbn; lia]. }
  unfold _rotateAngles. rewrite take_argsort. cbn [bind]. fold s.
  rewrite (getitem_last_nonempty s Hs). cbn [bind].
  rewrite (getitem_nth s 0) by lia. cbn [bind].
  rewrite <- hd_nth_0. fold wrap.
  split; intros Hw.
  - rewrite Rltb_true by exact Hw. reflexivity.
  - rewrite Rltb_false by exact Hw.
    change (np_diff s ++ [wrap]) with (gap_sequence angles).
    pose proof (gap_sequence_length angles Hne) as Hglen.
    destruct (np_max (gap_sequence angles)) as [dmax | e] eqn:Hmax.
    2:{ destruct (gap_sequence angles); [cbn in Hglen; lia | discriminate]. }
    cbn [bind].
    destruct (last_maximum_position _ _ Hmax) as (m & Hcut & Hlast & _).
    cbv zeta in Hcut. rewrite Hcut. cbn [map truth bind].
    exists m. split; [exact Hlast |].
    destruct Hlast as (Hm & _). rewrite Hglen in Hm.
    destruct (Z.of_nat m =? Z.of_nat (length angles) - 1)%Z eqn:E.
    + apply Z.eqb_eq in E.
      replace (S m) with (length angles) by lia.
      rewrite Nat.Div0.mod_same, <- hd_nth_0. reflexivity.
    + apply Z.eqb_neq in E.
      rewrite Nat.mod_small by lia.
      cbn [take bind]. rewrite (getitem_nth s (S m)) by lia. reflexivity.
Qed.

Lemma rotateAngles_empty : _rotateAngles [] = Raise IndexError.
Proof. reflexivity. Qed.

(** ** When the angular metrics raise *)

Lemma negative_wraparound_sorted angles :
  angles <> [] ->
  negative_wraparound angles
  <-> twopi - last (np_sort angles) 0 + hd 0 (np_sort angles) < 0.
Proof.
  intros Hne. unfold negative_wraparound.
  rewrite (np_max_sorted_last angles Hne), (np_min_sorted_hd angles Hne).
  split.
  - intros (hi & lo & Hhi & Hlo & Hneg).
    injection Hhi as <-. injection Hlo as <-. exact Hneg.
  - intros Hneg. eexists. eexists. repeat split. exact Hneg.
Qed.

Lemma negative_wraparound_dec angles :
  angles <> [] -> negative_wraparound angles \/ ~ negative_wraparound angles.
Proof.
  intros Hne. rewrite (negative_wraparound_sorted angles Hne).
  destruct (Rlt_dec (twopi - last (np_sort angles) 0 + hd 0 (np_sort angles)) 0);
    [left | right]; assumption.
Qed.

Lemma rotateAngles_raises_iff angles :
  angles <> [] ->
  (raises (_rotateAngles angles) <-> negative_wraparound angles) /\
  (negative_wraparound angles -> _rotateAngles angles = Raise ValueError) /\
  (~ negative_wraparound angles ->
   exists rotation,
     _rotateAngles angles
     = Ok (rotation, map (fun a => pymod (a - rotation) twopi) angles)).
Proof.
  intros Hne.
  destruct (rotateAngles_nonempty angles Hne) as [Hneg Hpos].
  cbv zeta in Hneg, Hpos.
  rewrite (negative_wraparound_sorted angles Hne).
  destruct (Rlt_dec (twopi - last (np_sort angles) 0 + hd 0 (np_sort angles)) 0)
    as [Hw | Hw].
  - rewrite (Hneg Hw). split; [| split].
    + split; [intros _; exact Hw | intros _; eexists; reflexivity].
    + reflexivity.
    + intros Hn. contradiction.
  - destruct Hpos as (m & _ & Hm); [lra |]. rewrite Hm. split; [| split].
    + split; [intros [e He]; discriminate | intros Hn; contradiction].
    + intros Hn. contradiction.
    + intros _. eexists. reflexivity.
Qed.

Lemma np_max_nonempty a : a <> [] -> returns (np_max a).
Proof. destruct a; [contradiction |]. intros _. eexists. reflexivity. Qed.

Lemma np_min_nonempty a : a <> [] -> returns (np_min a).
Proof. destruct a; [contradiction |]. intros _. eexists. reflexivity. Qed.

Lemma map_nonempty {A B : Type} (f : A -> B) l : l <> [] -> map f l <> [].
Proof. destruct l; [contradiction | discriminate]. Qed.

Lemma RmsAngleMetric_raises_iff self d col :
  getcol d (colname self) = Ok col -> col <> [] ->
  raises (RmsAngleMetric.run self d) <-> negative_wraparound col.
Proof.
  intros Hcol Hne. unfold RmsAngleMetric.run. rewrite Hcol. cbn [bind].
  destruct (rotateAngles_raises_iff col Hne) as (Hiff & Hneg & Hpos).
  split.
  - intros [e He]. apply Hiff.
    destruct (_rotateAngles col) as [[rot ang] | e'] eqn:E.
    + cbn in He. discriminate.
    + eexists. reflexivity.
  - intros Hn. rewrite (Hneg Hn). eexists. reflexivity.
Qed.

Lemma FullRangeAngleMetric_raises_iff self d col :
  getcol d (colname self) = Ok col -> col <> [] ->
  raises (FullRangeAngleMetric.run self d) <-> negative_wraparound col.
Proof.
  intros Hcol Hne. unfold FullRangeAngleMetric.run. rewrite Hcol. cbn [bind].
  destruct (rotateAngles_raises_iff col Hne) as (Hiff & Hneg & Hpos).
  split.
  - intros [e He].
    destruct (negative_wraparound_dec col Hne) as [Hn | Hn];
      [exact Hn | exfalso].
    destruct (Hpos Hn) as [rot Hrot]. rewrite Hrot in He. cbn [bind] in He.
    set (ang := map (fun a => pymod (a - rot) twopi) col) in He.
    assert (Ha : ang <> []) by (apply map_nonempty, Hne).
    destruct (np_max_nonempty ang Ha) as [hi Hhi].
    destruct (np_min_nonempty ang Ha) as [lo Hlo].
    rewrite Hhi, Hlo in He. cbn in He. discriminate.
  - intros Hn. rewrite (Hneg Hn). eexists. reflexivity.
Qed.

(** Angles given in degrees: the wraparound gap 2 pi - 400 + 10 is
    negative and the rotation is refused. *)
Lemma rotateAngles_degrees : _rotateAngles [10; 400] = Raise ValueError.
Proof.
  apply rotateAngles_raises_iff; [discriminate |].
  exists 400, 10. split; [| split].
  - apply np_max_spec. split; [right; left; reflexivity |].
    repeat constructor; lra.
  - apply np_min_spec. split; [left; reflexivity |].
    repeat constructor; lra.
  - unfold twopi. pose proof PI_4. lra.
Qed.

(** C5, the claim as stated fails: on the empty array [_rotateAngles] raises
    (an index error) although no wraparound gap is negative, and so do
    [RmsAngleMetric.run] and [FullRangeAngleMetric.run] on a slice without
    rows. *)
Lemma rotateAngles_raises_on_empty :
  _rotateAngles [] = Raise IndexError /\
  ~ negative_wraparound [] /\
  RmsAngleMetric.run (BaseMetric_init "x" default_badval)
    (empty_slice ["x"%string]) = Raise IndexError /\
  FullRangeAngleMetric.run (BaseMetric_init "x" default_badval)
    (empty_slice ["x"%string]) = Raise IndexError /\
  ~ (forall angles, raises (_rotateAngles angles) <-> negative_wraparound angles).
Proof.
  assert (Hno : ~ negative_wraparound []).
  { intros (hi & lo & Hhi & _). discriminate Hhi. }
  repeat split; try reflexivity; try exact Hno.
  intros H. apply Hno, H. eexists. reflexivity.
Qed.

(** C5 (amended): on a non-empty array [_rotateAngles] raises if and only if
    the wraparound gap 2 pi - largest + smallest is negative, and then with
    a value error; the same holds for [RmsAngleMetric.run] and
    [FullRangeAngleMetric.run] on a slice with at least one row that has the
    column.  On an empty array [_rotateAngles] raises an index error. *)
Theorem rotateAngles_raises_spec :
  _rotateAngles [] = Raise IndexError /\
  (forall angles,
     angles <> [] ->
     (raises (_rotateAngles angles) <-> negative_wraparound angles) /\
     (negative_wraparound angles -> _rotateAngles angles = Raise ValueError)) /\
  (forall self d col,
     getcol d (colname self) = Ok col -> col <> [] ->
     (raises (RmsAngleMetric.run self d) <-> negative_wraparound col) /\
     (raises (FullRangeAngleMetric.run self d) <-> negative_wraparound col)).
Proof.
  split; [reflexivity | split].
  - intros angles Hne.
    destruct (rotateAngles_raises_iff angles Hne) as (H1 & H2 & _).
    split; assumption.
  - intros self d col Hcol Hne. split.
    + apply RmsAngleMetric_raises_iff; assumption.
    + apply FullRangeAngleMetric_raises_iff; assumption.
Qed.

Lemma rotateAngles_raises_spec_witness :
  (raises (_rotateAngles [400; 10]) <-> negative_wraparound [400; 10]) /\
  (negative_wraparound [400; 10] -> _rotateAngles [400; 10] = Raise ValueError).
Proof.
  apply (proj1 (proj2 rotateAngles_raises_spec) [400; 10]).
  discriminate.
Defined.

(** ** Remainders of small arguments *)

Lemma pymod_eq x y (k : Z) :
  0 < y -> 0 <= x - IZR k * y < y -> pymod x y = x - IZR k * y.
Proof.
  intros Hy [Hlo Hhi]. unfold pymod.
  assert (E : k = Int_part (x / y)).
  { apply Int_part_spec.
    assert (Hq : x / y = (x - IZR k * y) / y + IZR k) by (field; lra).
    assert (H0 : 0 <= (x - IZR k * y) / y).
    { apply Rmult_le_pos; [lra |]. apply Rlt_le, Rinv_0_lt_compat, Hy. }
    assert (H1 : (x - IZR k * y) / y < 1).
    { apply (Rmult_lt_reg_r y); [exact Hy |].
      replace ((x - IZR k * y) / y * y) with (x - IZR k * y) by (field; lra).
      lra. }
    lra. }
  rewrite <- E. reflexivity.
Qed.

Lemma pymod_small x y : 0 <= x < y -> pymod x y = x.
Proof.
  intros H. rewrite (pymod_eq x y 0); [lra | lra | lra].
Qed.

Lemma pymod_wrap x y : - y <= x < 0 -> pymod x y = x + y.
Proof.
  intros H. rewrite (pymod_eq x y (-1)); [lra | lra | lra].
Qed.

(** ** Sorted arrays cut in two *)

Lemma sorted_app l1 l2 :
  StronglySorted Rle l1 -> StronglySorted Rle l2 ->
  (forall x y, In x l1 -> In y l2 -> x <= y) ->
  StronglySorted Rle (l1 ++ l2).
Proof.
  intros H1 H2 Hx. induction H1 as [| x l1 H1 IH Hl]; cbn; [exact H2 |].
  constructor.
  - apply IH. intros a b Ha Hb. apply Hx; [right; exact Ha | exact Hb].
  - apply Forall_app. split; [exact Hl |].
    apply Forall_forall. intros y Hy. apply Hx; [left; reflexivity | exact Hy].
Qed.

Lemma sorted_app_inv l1 l2 :
  StronglySorted Rle (l1 ++ l2) ->
  StronglySorted Rle l1 /\ StronglySorted Rle l2 /\
  (forall x y, In x l1 -> In y l2 -> x <= y).
Proof.
  induction l1 as [| a l1 IH]; cbn; intros H.
  - repeat split; [constructor | exact H | contradiction].
  - apply StronglySorted_inv in H. destruct H as [H Ha].
    destruct (IH H) as (H1 & H2 & Hx).
    apply Forall_app in Ha. destruct Ha as [Ha1 Ha2].
    repeat split; [constructor; assumption | exact H2 |].
    intros x y [<- | Hx1] Hy.
    + rewrite Forall_forall in Ha2. apply Ha2, Hy.
    + apply Hx; assumption.
Qed.

Lemma sorted_map (g : R -> R) l :
  (forall a b, a <= b -> g a <= g b) ->
  StronglySorted Rle l -> StronglySorted Rle (map g l).
Proof.
  intros Hg. induction 1 as [| x l Hs IH Hx]; cbn; constructor; [exact IH |].
  apply Forall_map. eapply Forall_impl; [| exact Hx].
  intros y Hy. apply Hg, Hy.
Qed.

(** ** First differences of a concatenation and of a shifted array *)

Lemma np_diff_cons x y t : np_diff (x :: y :: t) = (y - x) :: np_diff (y :: t).
Proof. reflexivity. Qed.

Lemma np_diff_app l1 : forall l2,
  l1 <> [] -> l2 <> [] ->
  np_diff (l1 ++ l2) = np_diff l1 ++ (hd 0 l2 - last l1 0) :: np_diff l2.
Proof.
  induction l1 as [| x l1 IH]; intros l2 H1 H2; [contradiction |].
  destruct l1 as [| y l1].
  - destruct l2 as [| z l2]; [contradiction |]. reflexivity.
  - change ((x :: y :: l1) ++ l2) with (x :: y :: (l1 ++ l2)).
    rewrite !np_diff_cons.
    change (y :: l1 ++ l2) with ((y :: l1) ++ l2).
    rewrite (IH l2) by (discriminate || exact H2).
    reflexivity.
Qed.

Lemma np_diff_shift (g : R -> R) l :
  (forall a b, g b - g a = b - a) -> np_diff (map g l) = np_diff l.
Proof.
  intros Hg. induction l as [| x [| y t] IH]; try reflexivity.
  change (map g (x :: y :: t)) with (g x :: g y :: map g t).
  rewrite !np_diff_cons. rewrite Hg. f_equal. exact IH.
Qed.

Lemma last_map (g : R -> R) l d : l <> [] -> last (map g l) d = g (last l d).
Proof.
  induction l as [| x l IH]; intros Hne; [contradiction |].
  destruct l as [| y l]; [reflexivity |].
  change (last (map g (x :: y :: l)) d) with (last (map g (y :: l)) d).
  change (last (x :: y :: l) d) with (last (y :: l) d).
  apply IH. discriminate.
Qed.

Lemma last_app_r (l1 l2 : list R) d : l2 <> [] -> last (l1 ++ l2) d = last l2 d.
Proof.
  intros Hne. induction l1 as [| x l1 IH]; [reflexivity |].
  cbn [app]. destruct (l1 ++ l2) as [| y r] eqn:E.
  - apply app_eq_nil in E. destruct E as [_ E]. contradiction.
  - exact IH.
Qed.

Lemma last_firstn (l : list R) d : forall m,
  (m < length l)%nat -> last (firstn (S m) l) d = nth m l d.
Proof.
  induction l as [| x l IH]; intros m Hm; [cbn in Hm; lia |].
  destruct m as [| m].
  - destruct l; reflexivity.
  - cbn [length] in Hm. destruct l as [| y l]; [cbn in Hm; lia |].
    change (firstn (S (S m)) (x :: y :: l)) with (x :: firstn (S m) (y :: l)).
    change (nth (S m) (x :: y :: l) d) with (nth m (y :: l) d).
    rewrite <- (IH m) by (cbn [length] in *; lia).
    reflexivity.
Qed.

Lemma hd_skipn (l : list R) d k : hd d (skipn k l) = nth k l d.
Proof.
  revert l. induction k as [| k IH]; intros [| x l]; try reflexivity.
  cbn. apply IH.
Qed.

(** ** Rotating sorted angles about a cut

    The sorted angles are cut in two: [s1] before the rotation angle [r],
    and [r :: s2] from it on.  Rotation by [r] moves the second part down to
    start at zero and the first part, wrapped by one turn, above it. *)

Section RotatedGaps.

Variables (s1 s2 : list R) (r : R).

Hypothesis Hsorted : StronglySorted Rle (s1 ++ r :: s2).
Hypothesis Hrange : Forall in_turn (s1 ++ r :: s2).
Hypothesis Hstrict : Forall (fun a => a < r) s1.

Lemma cut_in_turn a : In a (s1 ++ r :: s2) -> 0 <= a < twopi.
Proof. intros Ha. rewrite Forall_forall in Hrange. apply Hrange, Ha. Qed.

Lemma cut_ordered a : In a (r :: s2) -> r <= a.
Proof.
  intros Ha. destruct (sorted_app_inv _ _ Hsorted) as (_ & H2 & _).
  apply StronglySorted_inv in H2. destruct H2 as [_ H2].
  destruct Ha as [<- | Ha]; [lra |].
  rewrite Forall_forall in H2. apply H2, Ha.
Qed.

Lemma rotate_after_cut a :
  In a (r :: s2) -> pymod (a - r) twopi = a - r.
Proof.
  intros Ha. apply pymod_small.
  pose proof (cut_ordered a Ha).
  assert (Hr : In r (s1 ++ r :: s2)) by (apply in_or_app; right; left; reflexivity).
  assert (Ha' : In a (s1 ++ r :: s2)) by (apply in_or_app; right; exact Ha).
  pose proof (cut_in_turn r Hr). pose proof (cut_in_turn a Ha'). lra.
Qed.

Lemma rotate_before_cut a :
  In a s1 -> pymod (a - r) twopi = a - r + twopi.
Proof.
  intros Ha. apply pymod_wrap.
  assert (Hlt : a < r) by (rewrite Forall_forall in Hstrict; apply Hstrict, Ha).
  assert (Hr : In r (s1 ++ r :: s2)) by (apply in_or_app; right; left; reflexivity).
  assert (Ha' : In a (s1 ++ r :: s2)) by (apply in_or_app; left; exact Ha).
  pose proof (cut_in_turn r Hr). pose proof (cut_in_turn a Ha'). lra.
Qed.

Lemma rotated_sorted :
  StronglySorted Rle
    (map (fun a => a - r) (r :: s2) ++ map (fun a => a - r + twopi) s1).
Proof.
  destruct (sorted_app_inv _ _ Hsorted) as (H1 & H2 & _).
  apply sorted_app.
  - apply sorted_map; [intros; lra | exact H2].
  - apply sorted_map; [intros; lra | exact H1].
  - intros x y Hx Hy.
    apply in_map_iff in Hx. destruct Hx as (a & <- & Ha).
    apply in_map_iff in Hy. destruct Hy as (b & <- & Hb).
    assert (Ha' : In a (s1 ++ r :: s2)) by (apply in_or_app; right; exact Ha).
    assert (Hb' : In b (s1 ++ r :: s2)) by (apply in_or_app; left; exact Hb).
    pose proof (cut_in_turn a Ha'). pose proof (cut_in_turn b Hb'). lra.
Qed.

Lemma rotated_sort angles :
  Permutation angles (s1 ++ r :: s2) ->
  np_sort (map (fun a => pymod (a - r) twopi) angles)
  = map (fun a => a - r) (r :: s2) ++ map (fun a => a - r + twopi) s1.
Proof.
  intros Hp. apply np_sort_unique; [apply rotated_sorted |].
  eapply perm_trans; [| apply Permutation_map, Permutation_sym, Hp].
  rewrite map_app.
  assert (E1 : map (fun a => pymod (a - r) twopi) s1
               = map (fun a => a - r + twopi) s1)
    by (apply map_ext_in; intros a Ha; apply rotate_before_cut, Ha).
  assert (E2 : map (fun a => pymod (a - r) twopi) (r :: s2)
               = map (fun a => a - r) (r :: s2))
    by (apply map_ext_in; intros a Ha; apply rotate_after_cut, Ha).
  rewrite E1, E2. apply Permutation_app_comm.
Qed.

(** The gaps of the rotated angles when nothing lies before the cut: they
    are the gaps of the sorted angles, in the same order. *)
Lemma rotated_gaps_no_wrap angles :
  s1 = [] ->
  Permutation angles (s1 ++ r :: s2) ->
  gap_sequence (map (fun a => pymod (a - r) twopi) angles)
  = np_diff (r :: s2) ++ [twopi - last (r :: s2) 0 + r].
Proof.
  intros E Hp. unfold gap_sequence. cbv zeta.
  rewrite (rotated_sort angles Hp). rewrite E. cbn [map app].
  rewrite app_nil_r.
  change (r - r :: map (fun a => a - r) s2) with (map (fun a => a - r) (r :: s2)).
  rewrite np_diff_shift by (intros; lra).
  rewrite last_map by discriminate.
  f_equal. cbn [map hd]. f_equal. lra.
Qed.

(** The gaps of the rotated angles when some angles lie before the cut: the
    gaps after the cut come first, then the old wraparound gap, then the
    gaps before the cut; the gap at the cut is the new wraparound gap. *)
Lemma rotated_gaps_wrap angles :
  s1 <> [] ->
  Permutation angles (s1 ++ r :: s2) ->
  gap_sequence (map (fun a => pymod (a - r) twopi) angles)
  = np_diff (r :: s2)
    ++ (twopi - last (r :: s2) 0 + hd 0 s1) :: np_diff s1
    ++ [r - last s1 0].
Proof.
  intros Hne Hp. unfold gap_sequence. cbv zeta.
  rewrite (rotated_sort angles Hp).
  rewrite np_diff_app by (try discriminate; apply map_nonempty, Hne).
  rewrite !np_diff_shift by (intros; lra).
  rewrite last_app_r by (apply map_nonempty, Hne).
  rewrite !last_map by (try discriminate; exact Hne).
  rewrite <- app_assoc. f_equal. cbn [app]. f_equal.
  - destruct s1 as [| x t]; [contradiction |]. cbn [map hd]. lra.
  - f_equal. f_equal. cbn [map app hd]. lra.
Qed.

(** The gaps of the sorted angles themselves, for comparison. *)
Lemma sorted_gaps_wrap :
  s1 <> [] ->
  np_diff (s1 ++ r :: s2)
    ++ [twopi - last (s1 ++ r :: s2) 0 + hd 0 (s1 ++ r :: s2)]
  = np_diff s1 ++ (r - last s1 0) :: np_diff (r :: s2)
    ++ [twopi - last (r :: s2) 0 + hd 0 s1].
Proof.
  intros Hne. rewrite np_diff_app by (try discriminate; exact Hne).
  rewrite last_app_r by discriminate.
  rewrite <- app_assoc. cbn [app hd]. f_equal. f_equal. f_equal.
  destruct s1; [contradiction | reflexivity].
Qed.

(** Rotation permutes the gaps, and puts the gap at the cut last. *)
Lemma rotated_gaps angles :
  Permutation angles (s1 ++ r :: s2) ->
  let old := np_diff (s1 ++ r :: s2)
             ++ [twopi - last (s1 ++ r :: s2) 0 + hd 0 (s1 ++ r :: s2)] in
  let new := gap_sequence (map (fun a => pymod (a - r) twopi) angles) in
  Permutation new old /\
  last new 0 = nth (if length s1 =? 0 then length s2 else length s1 - 1)%nat old 0.
Proof.
  intros Hp old new.
  assert (Hcase : s1 = [] \/ s1 <> [])
    by (destruct s1; [left; reflexivity | right; discriminate]).
  destruct Hcase as [E | Hne].
  - unfold new. rewrite (rotated_gaps_no_wrap angles E Hp).
    unfold old. rewrite E. cbn [app hd length Nat.eqb]. split.
    + apply Permutation_refl.
    + rewrite last_app_r by discriminate.
      rewrite app_nth2; rewrite np_diff_length; cbn [length];
        [| lia].
      replace (length s2 - (S (length s2) - 1))%nat with 0%nat by lia.
      reflexivity.
  - assert (Hlen : length s1 <> 0%nat).
    { intros H0. apply length_zero_iff_nil in H0. contradiction. }
    unfold new, old.
    rewrite (rotated_gaps_wrap angles Hne Hp), (sorted_gaps_wrap Hne).
    split.
    + set (a := np_diff (r :: s2)). set (b := np_diff s1).
      set (w := twopi - last (r :: s2) 0 + hd 0 s1). set (g := r - last s1 0).
      replace (a ++ w :: b ++ [g]) with ((a ++ [w]) ++ (b ++ [g]))
        by (rewrite <- !app_assoc; reflexivity).
      replace (b ++ g :: a ++ [w]) with ((b ++ [g]) ++ (a ++ [w]))
        by (rewrite <- !app_assoc; reflexivity).
      apply Permutation_app_comm.
    + replace (np_diff (r :: s2) ++
               (twopi - last (r :: s2) 0 + hd 0 s1) :: np_diff s1 ++ [r - last s1 0])
        with ((np_diff (r :: s2) ++
               (twopi - last (r :: s2) 0 + hd 0 s1) :: np_diff s1) ++ [r - last s1 0])
        by (rewrite <- !app_assoc; reflexivity).
      rewrite last_app_r by discriminate. cbn [last].
      replace (length s1 =? 0)%nat with false
        by (symmetry; apply Nat.eqb_neq; exact Hlen).
      rewrite app_nth2; rewrite np_diff_length; [| lia].
      rewrite Nat.sub_diag. reflexivity.
Qed.

End RotatedGaps.

(** ** The rotation puts the largest gap at the end *)

Lemma split_at (s : list R) : forall k,
  (k < length s)%nat -> s = firstn k s ++ nth k s 0 :: skipn (S k) s.
Proof.
  induction s as [| x s IH]; intros k Hk; [cbn in Hk; lia |].
  destruct k as [| k]; [reflexivity |].
  cbn [firstn nth skipn app]. f_equal. apply IH. cbn in Hk. lia.
Qed.

Lemma gap_sequence_nth_inner angles m :
  (S m < length angles)%nat ->
  nth m (gap_sequence angles) 0
  = nth (S m) (np_sort angles) 0 - nth m (np_sort angles) 0.
Proof.
  intros Hm. unfold gap_sequence. cbv zeta.
  rewrite app_nth1 by (rewrite np_diff_length, np_sort_length; lia).
  rewrite np_diff_nth by (rewrite np_sort_length; lia).
  rewrite Nat.add_1_r. reflexivity.
Qed.

Lemma gap_sequence_nth_wrap angles :
  angles <> [] ->
  nth (length angles - 1) (gap_sequence angles) 0
  = twopi - last (np_sort angles) 0 + hd 0 (np_sort angles).
Proof.
  intros Hne. unfold gap_sequence. cbv zeta.
  rewrite app_nth2; rewrite np_diff_length, np_sort_length; [| lia].
  rewrite Nat.sub_diag. reflexivity.
Qed.

Lemma wraparound_positive angles :
  angles <> [] -> Forall in_turn angles ->
  0 < twopi - last (np_sort angles) 0 + hd 0 (np_sort angles).
Proof.
  intros Hne Hr.
  assert (Hs : Forall in_turn (np_sort angles))
    by (eapply Permutation_Forall; [apply Permutation_sym, np_sort_perm | exact Hr]).
  rewrite Forall_forall in Hs.
  pose proof (np_sort_nonempty angles Hne) as Hsn.
  destruct (Hs _ (last_In _ 0 Hsn)) as [_ Hhi].
  destruct (Hs _ (hd_In _ 0 Hsn)) as [Hlo _].
  lra.
Qed.


(** With angles within one turn, the rotated angles have the gaps of the
    original ones, the largest of them last. *)
Lemma rotation_moves_largest_gap angles m :
  angles <> [] -> Forall in_turn angles ->
  is_last_max (gap_sequence angles) m ->
  let rotation := nth (S m mod length angles) (np_sort angles) 0 in
  let rotated := map (fun a => pymod (a - rotation) twopi) angles in
  Permutation (gap_sequence rotated) (gap_sequence angles) /\
  last (gap_sequence rotated) 0 = nth m (gap_sequence angles) 0.
Proof.
  intros Hne Hr Hmax rotation rotated.
  set (s := np_sort angles) in *.
  assert (Hlen : length s = length angles) by apply np_sort_length.
  assert (Hn : (0 < length angles)%nat)
    by (destruct angles; [contradiction | cbn; lia]).
  pose proof (gap_sequence_length angles Hne) as Hglen.
  pose proof (wraparound_positive angles Hne Hr) as Hwrap. fold s in Hwrap.
  destruct Hmax as (Hm & Hub & Hlast). rewrite Hglen in Hm, Hub, Hlast.
  set (k := (S m mod length angles)%nat) in *.
  assert (Hk : (k < length s)%nat)
    by (unfold k; rewrite Hlen; apply Nat.mod_upper_bound; lia).
  assert (Hpos : 0 < nth m (gap_sequence angles) 0).
  { pose proof (Hub (length angles - 1)%nat ltac:(lia)) as H.
    rewrite (gap_sequence_nth_wrap angles Hne) in H. fold s in H. lra. }
  assert (Hsorted : StronglySorted Rle (firstn k s ++ rotation :: skipn (S k) s)).
  { unfold rotation. fold k. rewrite <- (split_at s k Hk). apply np_sort_sorted. }
  assert (Hrange : Forall in_turn (firstn k s ++ rotation :: skipn (S k) s)).
  { unfold rotation. fold k. rewrite <- (split_at s k Hk).
    eapply Permutation_Forall; [apply Permutation_sym, np_sort_perm | exact Hr]. }
  assert (Hperm : Permutation angles (firstn k s ++ rotation :: skipn (S k) s)).
  { unfold rotation. fold k. rewrite <- (split_at s k Hk).
    apply Permutation_sym, np_sort_perm. }
  assert (Hcases : (S m = length angles /\ k = 0)%nat \/
                   (S m < length angles /\ k = S m)%nat).
  { destruct (Nat.eq_dec (S m) (length angles)) as [E | E].
    - left. split; [exact E |]. unfold k. rewrite E. apply Nat.Div0.mod_same.
    - right. split; [lia |]. unfold k. apply Nat.mod_small. lia. }
  assert (Hstrict : Forall (fun a => a < rotation) (firstn k s)).
  { destruct Hcases as [[_ Ek] | [Hm' Ek]].
    - rewrite Ek. constructor.
    - rewrite (gap_sequence_nth_inner angles m Hm') in Hpos. fold s in Hpos.
      destruct (sorted_app_inv _ _ Hsorted) as (H1 & _ & _).
      apply sorted_last_upper in H1.
      rewrite Ek in H1 |- *. rewrite last_firstn in H1 by lia.
      eapply Forall_impl; [| exact H1].
      intros a Ha. cbn beta in Ha. unfold rotation. fold k. rewrite Ek. lra. }
  destruct (rotated_gaps _ _ _ Hsorted Hrange Hstrict angles Hperm)
    as [Hp Hl].
  cbv zeta in Hp, Hl.
  assert (Eold : np_diff (firstn k s ++ rotation :: skipn (S k) s)
                 ++ [twopi - last (firstn k s ++ rotation :: skipn (S k) s) 0
                     + hd 0 (firstn k s ++ rotation :: skipn (S k) s)]
                 = gap_sequence angles).
  { unfold rotation. fold k. rewrite <- (split_at s k Hk). reflexivity. }
  rewrite Eold in Hp, Hl.
  split; [exact Hp |].
  fold rotated in Hl. rewrite Hl. f_equal.
  rewrite length_firstn, length_skipn, Nat.min_l by lia.
  destruct Hcases as [[Hm' Ek] | [Hm' Ek]]; rewrite Ek; cbn [Nat.eqb]; lia.
Qed.


Lemma rotateAngles_returns angles :
  angles <> [] -> Forall in_turn angles -> returns (_rotateAngles angles).
Proof.
  intros Hne Hr.
  destruct (rotateAngles_nonempty angles Hne) as [_ Hpos]. cbv zeta in Hpos.
  destruct Hpos as (m & _ & Heq);
    [apply Rlt_le, wraparound_positive; assumption |].
  rewrite Heq. eexists. reflexivity.
Qed.

Lemma twopi_bounds : 6 < twopi <= 8.
Proof. unfold twopi. pose proof PI2_3_2. pose proof PI_4. lra. Qed.




(** ** Worked examples *)

Lemma floor_of h (z : Z) : IZR z <= h < IZR z + 1 -> Int_part h = z.
Proof. intros H. symmetry. apply Int_part_spec. lra. Qed.

(** The quartiles of 1, 2, 3, 4 lie a quarter of the way into the first
    and into the last gap. *)
Lemma percentile_example_25 : percentile_at [1; 2; 3; 4] 25 = 1.75.
Proof.
  unfold percentile_at. cbv zeta. cbn [length INR].
  rewrite (floor_of _ 0) by lra. cbn [Z.to_nat nth INR]. nra.
Qed.

Lemma percentile_example_75 : percentile_at [1; 2; 3; 4] 75 = 3.25.
Proof.
  unfold percentile_at. cbv zeta. cbn [length INR].
  rewrite (floor_of _ 2) by lra.
  change (Z.to_nat 2) with 2%nat. cbn [nth INR]. nra.
Qed.

(** The fraction of the values 0, 0, 1, 1 at or above 0.5 is one half, and
    so is the fraction at or below. *)
Lemma FracAboveMetric_example :
  FracAboveMetric.run (FracAboveMetric.__init__ "x" 0.5 1 default_badval)
    (column_slice "x" [0; 0; 1; 1])
  = Ok (PyFloat (Fin 0.5)).
Proof.
  unfold FracAboveMetric.run. cbn [FracAboveMetric.base FracAboveMetric.__init__
    colname BaseMetric_init FracAboveMetric.cutoff FracAboveMetric.scale].
  rewrite getcol_column_slice. cbn [bind map]. unfold Rgeb, pydiv. rcmp.
  cbn [np_where where_from length INR]. rcmp. cbn [bind].
  do 3 f_equal. lra.
Qed.

Lemma FracBelowMetric_example :
  FracBelowMetric.run (FracBelowMetric.__init__ "x" 0.5 1 default_badval)
    (column_slice "x" [0; 0; 1; 1])
  = Ok (PyFloat (Fin 0.5)).
Proof.
  unfold FracBelowMetric.run. cbn [FracBelowMetric.base FracBelowMetric.__init__
    colname BaseMetric_init FracBelowMetric.cutoff FracBelowMetric.scale].
  rewrite getcol_column_slice. cbn [bind map]. unfold pydiv. rcmp.
  cbn [np_where where_from length INR]. rcmp. cbn [bind].
  do 3 f_equal. lra.
Qed.

(** Four visits at 0 and one at 10: mean 2, standard deviation 4; one value
    lies more than one sigma above the mean and none lies more than one
    sigma below. *)
Lemma outlier_example_std : std_of [0; 0; 0; 0; 10] = 4.
Proof.
  unfold std_of, mean_of. cbn [np_sum fold_right length INR map].
  replace (_ / _) with (4 * 4) by lra.
  apply sqrt_square. lra.
Qed.

Lemma NoutliersNsigmaMetric_example :
  NoutliersNsigmaMetric.run
    (NoutliersNsigmaMetric.__init__ "x" 1 default_badval)
    (column_slice "x" [0; 0; 0; 0; 10]) = Ok (PyInt 1) /\
  NoutliersNsigmaMetric.run
    (NoutliersNsigmaMetric.__init__ "x" (-1) default_badval)
    (column_slice "x" [0; 0; 0; 0; 10]) = Ok (PyInt 0).
Proof.
  split.
  - rewrite (NoutliersNsigmaMetric_run_counted _ _ [0; 0; 0; 0; 10]);
      [| apply getcol_column_slice | discriminate].
    cbn [NoutliersNsigmaMetric.nSigma NoutliersNsigmaMetric.__init__].
    unfold counted, boundary_of. rewrite outlier_example_std.
    unfold mean_of. cbn [np_sum fold_right length INR filter].
    rcmp. cbn [filter]. rcmp. reflexivity.
  - rewrite (NoutliersNsigmaMetric_run_counted _ _ [0; 0; 0; 0; 10]);
      [| apply getcol_column_slice | discriminate].
    cbn [NoutliersNsigmaMetric.nSigma NoutliersNsigmaMetric.__init__].
    unfold counted, boundary_of. rewrite outlier_example_std.
    unfold mean_of. cbn [np_sum fold_right length INR filter].
    rcmp. cbn [filter]. rcmp. reflexivity.
Qed.

(** Two visits in the same night: the unique nights are a single value; the
    consecutive mode histograms no gap at all, while the all-gaps mode has
    no round to concatenate and raises. *)
Lemma NightgapsMetric_single_night :
  NightgapsMetric.run
    (NightgapsMetric.__init__ "night" false [0; 1; 2] default_badval)
    (column_slice "night" [5; 5]) = Ok (PyArr [0%Z; 0%Z]) /\
  NightgapsMetric.run
    (NightgapsMetric.__init__ "night" true [0; 1; 2] default_badval)
    (column_slice "night" [5; 5]) = Raise ValueError.
Proof.
  assert (Hu : np_unique [5; 5] = [5]).
  { unfold np_unique. cbn [np_sort insert]. rcmp. cbn [dedup]. rcmp.
    reflexivity. }
  split.
  - rewrite (NightgapsMetric_run_long _ _ [5; 5]);
      [| rewrite size_column_slice; cbn; lia | apply getcol_column_slice].
    cbn [NightgapsMetric.allGaps NightgapsMetric.bins NightgapsMetric.__init__].
    rewrite Hu. cbn [bind consecutive_gaps shifted_diffs length Nat.sub seq map].
    unfold np_histogram. cbn [increasing]. rcmp. reflexivity.
  - rewrite (NightgapsMetric_run_long _ _ [5; 5]);
      [| rewrite size_column_slice; cbn; lia | apply getcol_column_slice].
    cbn [NightgapsMetric.allGaps NightgapsMetric.bins NightgapsMetric.__init__].
    rewrite Hu. reflexivity.
Qed.

(** ** Further properties of the scalar metrics *)

Lemma np_max_returns a : a <> [] -> exists hi, np_max a = Ok hi.
Proof. destruct a; [contradiction |]. intros _. eexists. reflexivity. Qed.

Lemma np_min_returns a : a <> [] -> exists lo, np_min a = Ok lo.
Proof. destruct a; [contradiction |]. intros _. eexists. reflexivity. Qed.

Lemma nonempty_In (col : list R) : col <> [] -> exists x, In x col.
Proof. destruct col as [| x t]; [contradiction |]. exists x. left. reflexivity. Qed.

(** [FullRangeMetric.run] on a non-empty column returns the largest
    difference between two of its values: it bounds every difference, is
    attained by one, and is zero exactly when all values are equal. *)
Theorem FullRangeMetric_largest_difference
    (self : BaseMetric) (d : DataSlice) (col : list R) :
  getcol d (colname self) = Ok col ->
  col <> [] ->
  exists w,
    FullRangeMetric.run self d = Ok (PyFloat (Fin w)) /\
    (forall x y, In x col -> In y col -> x - y <= w) /\
    (exists x y, In x col /\ In y col /\ w = x - y) /\
    (w = 0 <-> all_equal col).
Proof.
  intros Hcol Hne.
  destruct (np_max_returns col Hne) as [hi Hhi].
  destruct (np_min_returns col Hne) as [lo Hlo].
  unfold FullRangeMetric.run. rewrite Hcol. cbn [bind]. rewrite Hhi, Hlo.
  cbn [bind]. exists (hi - lo).
  apply np_max_spec in Hhi. destruct Hhi as [Hhi_in Hhi_ub].
  apply np_min_spec in Hlo. destruct Hlo as [Hlo_in Hlo_lb].
  rewrite Forall_forall in Hhi_ub, Hlo_lb.
  split; [reflexivity | split; [| split]].
  - intros x y Hx Hy. pose proof (Hhi_ub x Hx). pose proof (Hlo_lb y Hy). lra.
  - exists hi, lo. repeat split; assumption.
  - split.
    + intros Hw x y Hx Hy.
      pose proof (Hhi_ub x Hx). pose proof (Hlo_lb x Hx).
      pose proof (Hhi_ub y Hy). pose proof (Hlo_lb y Hy). lra.
    + intros Heq. rewrite (Heq hi lo Hhi_in Hlo_in). lra.
Qed.

Lemma FullRangeMetric_largest_difference_witness :
  exists w,
    FullRangeMetric.run (BaseMetric_init "x" default_badval)
      (column_slice "x" [3; 1; 2]) = Ok (PyFloat (Fin w)) /\
    (forall x y, In x [3; 1; 2] -> In y [3; 1; 2] -> x - y <= w) /\
    (exists x y, In x [3; 1; 2] /\ In y [3; 1; 2] /\ w = x - y) /\
    (w = 0 <-> all_equal [3; 1; 2]).
Proof.
  apply (FullRangeMetric_largest_difference (BaseMetric_init "x" default_badval)
           (column_slice "x" [3; 1; 2]) [3; 1; 2]).
  - reflexivity.
  - discriminate.
Defined.

Lemma INR_length_pos (col : list R) : col <> [] -> 0 < INR (length col).
Proof.
  intros Hne. apply lt_0_INR. destruct col; [contradiction | cbn; lia].
Qed.

Lemma filter_length_le (p : R -> bool) l : (length (filter p l) <= length l)%nat.
Proof.
  induction l as [| x l IH]; cbn; [lia |]. destruct (p x); cbn; lia.
Qed.

Lemma filter_length_full (p : R -> bool) l :
  length (filter p l) = length l <-> Forall (fun x => p x = true) l.
Proof.
  induction l as [| x l IH]; cbn.
  - split; [constructor | reflexivity].
  - pose proof (filter_length_le p l) as Hle. destruct (p x) eqn:E; cbn.
    + split.
      * intros H. constructor; [exact E | apply IH; lia].
      * intros H. apply Forall_inv_tail in H. apply IH in H. lia.
    + split; [lia |]. intros H. apply Forall_inv in H. congruence.
Qed.

Lemma np_where_length (p : R -> bool) l :
  length (np_where (map p l)) = length (filter p l).
Proof. apply where_from_length. Qed.

(** [MaxPercentMetric.run] on a non-empty column returns a percentage above
    0 and at most 100, and exactly 100 when all values are equal. *)
Theorem MaxPercentMetric_range
    (self : BaseMetric) (d : DataSlice) (col : list R) :
  getcol d (colname self) = Ok col ->
  col <> [] ->
  exists p,
    MaxPercentMetric.run self d = Ok (PyFloat (Fin p)) /\
    0 < p <= 100 /\ (p = 100 <-> all_equal col).
Proof.
  intros Hcol Hne.
  destruct (np_max_returns col Hne) as [hi Hhi].
  pose proof (INR_length_pos col Hne) as Hn.
  unfold MaxPercentMetric.run. rewrite Hcol. cbn [bind]. rewrite Hhi.
  cbn [bind]. rewrite np_where_length.
  unfold pydiv. rewrite Reqb_false by lra. cbn [bind].
  set (k := length (filter (fun x => Reqb x hi) col)).
  exists (INR k / INR (length col) * 100).
  apply np_max_spec in Hhi. destruct Hhi as [Hin Hub].
  assert (Hk1 : (1 <= k)%nat).
  { assert (In hi (filter (fun x => Reqb x hi) col))
      by (apply filter_In; split; [exact Hin | apply Reqb_true; reflexivity]).
    unfold k. destruct (filter (fun x => Reqb x hi) col); [contradiction | cbn; lia]. }
  assert (Hk2 : (k <= length col)%nat) by apply filter_length_le.
  apply le_INR in Hk1, Hk2. cbn [INR] in Hk1.
  assert (Hq : INR k / INR (length col) * INR (length col) = INR k)
    by (field; lra).
  split; [reflexivity | split; [split |]].
  - apply Rmult_lt_0_compat; [| lra].
    apply Rmult_lt_0_compat; [lra | apply Rinv_0_lt_compat, Hn].
  - assert (INR k / INR (length col) <= 1).
    { apply (Rmult_le_reg_r (INR (length col))); [exact Hn |]. lra. }
    lra.
  - split.
    + intros Hp.
      assert (Hkn : INR k = INR (length col)).
      { assert (INR k / INR (length col) = 1) by lra.
        rewrite <- Hq. rewrite H. lra. }
      apply INR_eq in Hkn. apply filter_length_full in Hkn.
      rewrite Forall_forall in Hkn.
      intros x y Hx Hy.
      pose proof (Hkn x Hx) as Ex. pose proof (Hkn y Hy) as Ey.
      apply Reqb_spec in Ex, Ey. congruence.
    + intros Heq.
      assert (Hkn : k = length col).
      { apply filter_length_full, Forall_forall. intros x Hx.
        apply Reqb_true, Heq; assumption. }
      rewrite Hkn. field. lra.
Qed.

Lemma MaxPercentMetric_range_witness :
  exists p,
    MaxPercentMetric.run (BaseMetric_init "x" default_badval)
      (column_slice "x" [1; 4; 4]) = Ok (PyFloat (Fin p)) /\
    0 < p <= 100 /\ (p = 100 <-> all_equal [1; 4; 4]).
Proof.
  apply (MaxPercentMetric_range (BaseMetric_init "x" default_badval)
           (column_slice "x" [1; 4; 4]) [1; 4; 4]).
  - reflexivity.
  - discriminate.
Defined.

Lemma above_below_count c l :
  (length (filter (fun x => Rgeb x c) l) + length (filter (fun x => Rleb x c) l)
   = length l + length (filter (fun x => Reqb x c) l))%nat.
Proof.
  induction l as [| x l IH]; [reflexivity |].
  cbn [filter length]. unfold Rgeb, Rleb, Reqb in *.
  destruct (Rle_dec c x), (Rle_dec x c), (Req_dec_T x c);
    cbn [length]; try lra; lia.
Qed.

(** [FracAboveMetric] counts the values at or above the cutoff and
    [FracBelowMetric] those at or below it, so with the same column, cutoff
    and scale the two fractions add up to the scale plus the scaled fraction
    of values equal to the cutoff; each lies between 0 and a non-negative
    scale. *)
Theorem FracAbove_FracBelow_sum
    (above : FracAboveMetric.t) (below : FracBelowMetric.t)
    (d : DataSlice) (col : list R) :
  colname (FracBelowMetric.base below) = colname (FracAboveMetric.base above) ->
  FracBelowMetric.cutoff below = FracAboveMetric.cutoff above ->
  FracBelowMetric.scale below = FracAboveMetric.scale above ->
  getcol d (colname (FracAboveMetric.base above)) = Ok col ->
  col <> [] ->
  exists a b,
    FracAboveMetric.run above d = Ok (PyFloat (Fin a)) /\
    FracBelowMetric.run below d = Ok (PyFloat (Fin b)) /\
    a + b = FracAboveMetric.scale above
            * (1 + INR (count (fun x => Reqb x (FracAboveMetric.cutoff above)) col)
                   / INR (length col)) /\
    (0 <= FracAboveMetric.scale above ->
     0 <= a <= FracAboveMetric.scale above /\
     0 <= b <= FracAboveMetric.scale above).
Proof.
  intros Hc Hcut Hscale Hcol Hne.
  pose proof (INR_length_pos col Hne) as Hn.
  unfold FracAboveMetric.run, FracBelowMetric.run.
  rewrite Hc, Hcut, Hscale, Hcol. cbn [bind].
  rewrite !np_where_length. unfold pydiv. rewrite Reqb_false by lra.
  cbn [bind].
  set (c := FracAboveMetric.cutoff above). set (s := FracAboveMetric.scale above).
  set (na := length (filter (fun x => Rgeb x c) col)).
  set (nb := length (filter (fun x => Rleb x c) col)).
  eexists. eexists. split; [reflexivity | split; [reflexivity |]].
  assert (Hsum : INR na + INR nb = INR (length col) + INR (count (fun x => Reqb x c) col)).
  { rewrite <- !plus_INR. f_equal. apply above_below_count. }
  assert (Ha : INR na <= INR (length col)) by (apply le_INR, filter_length_le).
  assert (Hb : INR nb <= INR (length col)) by (apply le_INR, filter_length_le).
  pose proof (pos_INR na) as Ha0. pose proof (pos_INR nb) as Hb0.
  assert (Hqa : 0 <= INR na / INR (length col) <= 1).
  { split.
    - apply Rmult_le_pos; [lra | left; apply Rinv_0_lt_compat, Hn].
    - apply (Rmult_le_reg_r (INR (length col))); [exact Hn |].
      replace (INR na / INR (length col) * INR (length col)) with (INR na)
        by (field; lra). lra. }
  assert (Hqb : 0 <= INR nb / INR (length col) <= 1).
  { split.
    - apply Rmult_le_pos; [lra | left; apply Rinv_0_lt_compat, Hn].
    - apply (Rmult_le_reg_r (INR (length col))); [exact Hn |].
      replace (INR nb / INR (length col) * INR (length col)) with (INR nb)
        by (field; lra). lra. }
  split.
  - replace (INR (count (fun x => Reqb x c) col))
      with (INR na + INR nb - INR (length col)) by lra.
    field. lra.
  - intros Hs. split; split; nra.
Qed.

Lemma FracAbove_FracBelow_sum_witness :
  exists a b,
    FracAboveMetric.run (FracAboveMetric.__init__ "x" 0.5 1 default_badval)
      (column_slice "x" [0; 0; 1; 1]) = Ok (PyFloat (Fin a)) /\
    FracBelowMetric.run (FracBelowMetric.__init__ "x" 0.5 1 default_badval)
      (column_slice "x" [0; 0; 1; 1]) = Ok (PyFloat (Fin b)) /\
    a + b = 1 * (1 + INR (count (fun x => Reqb x 0.5) [0; 0; 1; 1])
                    / INR (length [0; 0; 1; 1])) /\
    (0 <= 1 -> 0 <= a <= 1 /\ 0 <= b <= 1).
Proof.
  apply (FracAbove_FracBelow_sum
           (FracAboveMetric.__init__ "x" 0.5 1 default_badval)
           (FracBelowMetric.__init__ "x" 0.5 1 default_badval)
           (column_slice "x" [0; 0; 1; 1]) [0; 0; 1; 1]);
    try reflexivity.
  discriminate.
Defined.

(** ** Distinct values *)

Lemma dedup_keeps z l : In z l -> In z (dedup l).
Proof.
  induction l as [| x [| y t] IH]; intros H; try exact H.
  cbn [dedup]. destruct (Reqb x y) eqn:E.
  - apply IH. destruct H as [<- | H]; [| exact H].
    apply Reqb_spec in E. left. symmetry. exact E.
  - destruct H as [H | H]; [left; exact H | right; apply IH, H].
Qed.

Lemma dedup_cons x y t :
  dedup (x :: y :: t) = if Reqb x y then dedup (y :: t) else x :: dedup (y :: t).
Proof. reflexivity. Qed.

Lemma dedup_strict l : StronglySorted Rle l -> StronglySorted Rlt (dedup l).
Proof.
  induction l as [| x [| y t] IH]; intros Hs.
  - constructor.
  - repeat constructor.
  - apply StronglySorted_inv in Hs. destruct Hs as [Hs Hx].
    rewrite dedup_cons. destruct (Reqb x y) eqn:Exy.
    + apply IH, Hs.
    + assert (E : x <> y).
      { intros E. apply Reqb_true in E. congruence. }
      constructor; [apply IH, Hs |].
      apply Forall_forall. intros z Hz. apply dedup_In in Hz.
      pose proof (Forall_inv Hx) as Hxy. cbn in Hxy.
      apply StronglySorted_inv in Hs. destruct Hs as [_ Hy].
      destruct Hz as [<- | Hz]; [lra |].
      rewrite Forall_forall in Hy. pose proof (Hy z Hz). lra.
Qed.

Lemma strict_NoDup l : StronglySorted Rlt l -> NoDup l.
Proof.
  induction 1 as [| x l Hs IH Hx]; constructor; [| exact IH].
  intros Hin. rewrite Forall_forall in Hx. pose proof (Hx x Hin). lra.
Qed.

Lemma np_unique_NoDup col : NoDup (np_unique col).
Proof. apply strict_NoDup, dedup_strict, np_sort_sorted. Qed.

Lemma np_unique_In col x : In x (np_unique col) <-> In x col.
Proof.
  unfold np_unique. split.
  - intros H. apply dedup_In in H.
    eapply Permutation_in; [apply np_sort_perm | exact H].
  - intros H. apply dedup_keeps.
    eapply Permutation_in; [apply Permutation_sym, np_sort_perm | exact H].
Qed.

(** [CountUniqueMetric.run] returns the number of distinct values of the
    column: the length of any duplicate-free list holding exactly the
    values of the column.  It needs no row at all. *)
Theorem CountUniqueMetric_counts_distinct
    (self : BaseMetric) (d : DataSlice) (col v : list R) :
  getcol d (colname self) = Ok col ->
  NoDup v ->
  (forall x, In x v <-> In x col) ->
  CountUniqueMetric.run self d = Ok (PyInt (Z.of_nat (length v))).
Proof.
  intros Hcol Hnd Hv. unfold CountUniqueMetric.run. rewrite Hcol. cbn [bind].
  do 3 f_equal. apply Permutation_length.
  apply NoDup_Permutation; [apply np_unique_NoDup | exact Hnd |].
  intros x. rewrite np_unique_In. symmetry. apply Hv.
Qed.

Lemma CountUniqueMetric_counts_distinct_witness :
  CountUniqueMetric.run (BaseMetric_init "x" default_badval)
    (column_slice "x" [2; 1; 2; 1; 2])
  = Ok (PyInt (Z.of_nat (length [1; 2]))).
Proof.
  apply (CountUniqueMetric_counts_distinct (BaseMetric_init "x" default_badval)
           (column_slice "x" [2; 1; 2; 1; 2]) [2; 1; 2; 1; 2] [1; 2]).
  - reflexivity.
  - repeat constructor; cbn; intuition lra.
  - intros x. cbn. intuition.
Defined.

(** ** A slice without the column *)

Lemma getcol_missing d name :
  ~ In name (names d) -> getcol d name = Raise ValueError.
Proof.
  intros H. unfold getcol.
  destruct (in_dec string_dec name (names d)); [contradiction | reflexivity].
Qed.

(** Every metric that reaches its column fails with a value error when the
    slice has no such field, whatever the rows hold; [BinaryMetric] and the
    gap metrics on slices shorter than 2 rows return without reading it. *)
Theorem run_missing_column (m : Metric) (d : DataSlice) :
  ~ In (column_of m) (names d) ->
  (reads_column m d -> run m d = Raise ValueError) /\
  (~ reads_column m d -> returns (run m d)).
Proof.
  intros Hmiss. split.
  - intros Hr.
    destruct m; cbn [run column_of base_of reads_column] in *;
      try contradiction;
      unfold MaxMetric.run, MeanMetric.run, MedianMetric.run,
        MedianAbsMetric.run, MinMetric.run, FullRangeMetric.run,
        RmsMetric.run, SumMetric.run, CountUniqueMetric.run, CountMetric.run,
        CountRatioMetric.run, CountSubsetMetric.run, RobustRmsMetric.run,
        MaxPercentMetric.run, FracAboveMetric.run, FracBelowMetric.run,
        PercentileMetric.run, NoutliersNsigmaMetric.run, MeanAngleMetric.run,
        RmsAngleMetric.run, FullRangeAngleMetric.run, TgapsMetric.run,
        NightgapsMetric.run;
      try (replace (size d <? 2)%nat with false
             by (symmetry; apply Nat.ltb_ge; exact Hr));
      rewrite (getcol_missing d _ Hmiss); reflexivity.
  - intros Hr.
    destruct m; cbn [run reads_column] in *; try (exfalso; apply Hr; exact I).
    + unfold BinaryMetric.run. destruct (0 <? size d)%nat; eexists; reflexivity.
    + unfold TgapsMetric.run.
      replace (size d <? 2)%nat with true
        by (symmetry; apply Nat.ltb_lt; lia).
      eexists. reflexivity.
    + unfold NightgapsMetric.run.
      replace (size d <? 2)%nat with true
        by (symmetry; apply Nat.ltb_lt; lia).
      eexists. reflexivity.
Qed.

Lemma run_missing_column_witness :
  run (Mean (BaseMetric_init "airmass" default_badval))
      (column_slice "seeing" [1; 2]) = Raise ValueError.
Proof.
  apply (run_missing_column (Mean (BaseMetric_init "airmass" default_badval))
           (column_slice "seeing" [1; 2])).
  - cbn. intros [H | []]. discriminate H.
  - exact I.
Defined.

(** ** Percentiles: order and special cases *)

Lemma sorted_nth_le s : StronglySorted Rle s ->
  forall i j, (i <= j)%nat -> (j < length s)%nat -> nth i s 0 <= nth j s 0.
Proof.
  induction 1 as [| x l Hs IH Hx]; intros i j Hij Hj; [cbn in Hj; lia |].
  destruct j as [| j].
  - replace i with 0%nat by lia. lra.
  - cbn [length] in Hj. destruct i as [| i].
    + cbn [nth]. rewrite Forall_forall in Hx. apply Hx, nth_In. lia.
    + cbn [nth]. apply IH; lia.
Qed.

Lemma floor_nat h :
  0 <= h -> INR (Z.to_nat (Int_part h)) <= h < INR (Z.to_nat (Int_part h)) + 1.
Proof.
  intros Hh. destruct (base_Int_part h) as [Hlo Hhi].
  assert (Hk0 : (-1 < Int_part h)%Z) by (apply lt_IZR; lra).
  rewrite INR_IZR_INZ, Z2Nat.id by lia. lra.
Qed.

Lemma floor_nat_of h k : INR k <= h < INR k + 1 -> Z.to_nat (Int_part h) = k.
Proof.
  intros H. rewrite (floor_of h (Z.of_nat k)).
  - apply Nat2Z.id.
  - rewrite <- INR_IZR_INZ. exact H.
Qed.

Lemma np_percentile_interpolate col q :
  col <> [] -> 0 <= q <= 100 ->
  np_percentile col q
  = Ok (Fin (interpolate (np_sort col) ((INR (length col) - 1) * (q / 100)))).
Proof.
  intros Hne Hq. unfold np_percentile.
  rewrite (Rltb_false q 0), (Rltb_false 100 q) by lra. cbn [orb].
  destruct col as [| x col]; [contradiction |].
  unfold interpolate. rewrite np_sort_length. reflexivity.
Qed.

Lemma interpolate_between s h :
  StronglySorted Rle s -> 0 <= h <= INR (length s) - 1 ->
  let lo := Z.to_nat (Int_part h) in
  let hi := Nat.min (S lo) (length s - 1) in
  (lo <= hi)%nat /\ (hi < length s)%nat /\
  nth lo s 0 <= interpolate s h <= nth hi s 0.
Proof.
  intros Hs [Hh0 Hh1] lo hi.
  destruct (floor_nat h Hh0) as [Hf0 Hf1]. fold lo in Hf0, Hf1.
  assert (Hlen : (1 <= length s)%nat).
  { apply INR_le. cbn [INR]. lra. }
  assert (Hlo : (lo <= length s - 1)%nat).
  { apply INR_le. rewrite minus_INR by lia. cbn [INR].
    assert (INR lo < INR (length s)) by lra.
    apply INR_lt in H. apply le_INR in Hlen.
    assert (Hle : (lo <= length s - 1)%nat) by lia.
    apply le_INR in Hle. rewrite minus_INR in Hle by lia. exact Hle. }
  assert (Hlohi : (lo <= hi)%nat) by (unfold hi; lia).
  assert (Hhi : (hi < length s)%nat) by (unfold hi; lia).
  split; [exact Hlohi | split; [exact Hhi |]].
  pose proof (sorted_nth_le s Hs lo hi Hlohi Hhi) as Hord.
  unfold interpolate. fold lo. fold hi. split; nra.
Qed.

Lemma interpolate_monotone s h1 h2 :
  StronglySorted Rle s ->
  0 <= h1 -> h1 <= h2 -> h2 <= INR (length s) - 1 ->
  interpolate s h1 <= interpolate s h2.
Proof.
  intros Hs H0 H12 H2.
  destruct (interpolate_between s h1 Hs) as (Ha1 & Hb1 & Hv1); [lra |].
  destruct (interpolate_between s h2 Hs) as (Ha2 & Hb2 & Hv2); [lra |].
  cbv zeta in *.
  destruct (floor_nat h1 H0) as [Hf1 Hg1].
  destruct (floor_nat h2 ltac:(lra)) as [Hf2 Hg2].
  set (lo1 := Z.to_nat (Int_part h1)) in *.
  set (lo2 := Z.to_nat (Int_part h2)) in *.
  destruct (Nat.lt_trichotomy lo1 lo2) as [Hlt | [Heq | Hgt]].
  - assert (Hstep : (Nat.min (S lo1) (length s - 1) <= lo2)%nat) by lia.
    pose proof (sorted_nth_le s Hs _ _ Hstep ltac:(lia)). lra.
  - unfold interpolate. fold lo1. fold lo2. rewrite <- Heq in *.
    pose proof (sorted_nth_le s Hs lo1 (Nat.min (S lo1) (length s - 1)) Ha1 Hb1).
    nra.
  - apply lt_INR in Hgt. assert (Hs1 : INR lo2 + 1 <= INR lo1).
    { rewrite <- S_INR. apply le_INR. apply INR_lt in Hgt. lia. }
    lra.
Qed.

Lemma interpolate_first s : interpolate s 0 = nth 0 s 0.
Proof.
  unfold interpolate. rewrite (floor_nat_of 0 0) by (cbn; lra). cbn [INR]. lra.
Qed.

Lemma interpolate_last s :
  s <> [] -> interpolate s (INR (length s - 1)) = nth (length s - 1) s 0.
Proof.
  intros Hne. unfold interpolate.
  rewrite (floor_nat_of _ (length s - 1)) by lra. lra.
Qed.

Lemma last_nth_end (s : list R) d : last s d = nth (length s - 1) s d.
Proof.
  induction s as [| x s IH]; [reflexivity |].
  destruct s as [| y s]; [reflexivity |].
  change (last (x :: y :: s) d) with (last (y :: s) d).
  rewrite IH. cbn [length]. replace (S (S (length s)) - 1)%nat with (S (length s)) by lia.
  replace (S (length s) - 1)%nat with (length s) by lia. reflexivity.
Qed.

Lemma position_scale n q : (1 <= n)%nat -> 0 <= q <= 100 ->
  0 <= (INR n - 1) * (q / 100) <= INR n - 1.
Proof.
  intros Hn Hq. apply le_INR in Hn. cbn [INR] in Hn. split; nra.
Qed.

Lemma nonempty_length (col : list R) : col <> [] -> (1 <= length col)%nat.
Proof. destruct col; [contradiction | cbn; lia]. Qed.

(** [PercentileMetric.run] on a non-empty column never decreases when the
    percentile grows, and always lies between the minimum and the maximum of
    the column. *)
Theorem PercentileMetric_monotone
    (low high : PercentileMetric.t) (d : DataSlice) (col : list R) :
  colname (PercentileMetric.base high) = colname (PercentileMetric.base low) ->
  getcol d (colname (PercentileMetric.base low)) = Ok col ->
  col <> [] ->
  0 <= PercentileMetric.percentile low ->
  PercentileMetric.percentile low <= PercentileMetric.percentile high ->
  PercentileMetric.percentile high <= 100 ->
  exists p1 p2 lo hi,
    PercentileMetric.run low d = Ok (PyFloat (Fin p1)) /\
    PercentileMetric.run high d = Ok (PyFloat (Fin p2)) /\
    np_min col = Ok lo /\ np_max col = Ok hi /\
    lo <= p1 /\ p1 <= p2 /\ p2 <= hi.
Proof.
  intros Hc Hcol Hne Hq0 Hq12 Hq2.
  pose proof (nonempty_length col Hne) as Hlen.
  set (n := length col) in *.
  set (s := np_sort col).
  assert (Hs : StronglySorted Rle s) by apply np_sort_sorted.
  assert (Hsl : length s = n) by apply np_sort_length.
  assert (Hsne : s <> []) by (apply np_sort_nonempty, Hne).
  set (q1 := PercentileMetric.percentile low) in *.
  set (q2 := PercentileMetric.percentile high) in *.
  pose proof (position_scale n q1 Hlen ltac:(lra)) as Hp1.
  pose proof (position_scale n q2 Hlen ltac:(lra)) as Hp2.
  exists (interpolate s ((INR n - 1) * (q1 / 100))),
         (interpolate s ((INR n - 1) * (q2 / 100))),
         (hd 0 s), (last s 0).
  unfold PercentileMetric.run. rewrite Hc, Hcol. cbn [bind].
  fold q1 q2. rewrite !np_percentile_interpolate by (try exact Hne; lra).
  fold n s. cbn [bind].
  split; [reflexivity | split; [reflexivity |]].
  split; [apply np_min_sorted_hd, Hne |].
  split; [apply np_max_sorted_last, Hne |].
  assert (Hn1 : INR n - 1 = INR (length s - 1)).
  { rewrite Hsl, minus_INR by lia. reflexivity. }
  split; [| split].
  - rewrite hd_nth_0, <- interpolate_first.
    apply interpolate_monotone; rewrite ?Hsl; try exact Hs; lra.
  - apply interpolate_monotone; rewrite ?Hsl; try exact Hs; try lra.
    apply Rmult_le_compat_l; lra.
  - rewrite last_nth_end, <- (interpolate_last s Hsne).
    apply interpolate_monotone; try exact Hs; rewrite <- ?Hn1, ?Hsl; lra.
Qed.

Lemma PercentileMetric_monotone_witness :
  exists p1 p2 lo hi,
    PercentileMetric.run (PercentileMetric.__init__ "x" 10 default_badval)
      (column_slice "x" [3; 1; 2]) = Ok (PyFloat (Fin p1)) /\
    PercentileMetric.run (PercentileMetric.__init__ "x" 90 default_badval)
      (column_slice "x" [3; 1; 2]) = Ok (PyFloat (Fin p2)) /\
    np_min [3; 1; 2] = Ok lo /\ np_max [3; 1; 2] = Ok hi /\
    lo <= p1 /\ p1 <= p2 /\ p2 <= hi.
Proof.
  apply (PercentileMetric_monotone
           (PercentileMetric.__init__ "x" 10 default_badval)
           (PercentileMetric.__init__ "x" 90 default_badval)
           (column_slice "x" [3; 1; 2]) [3; 1; 2]);
    try reflexivity; cbn; try lra.
  discriminate.
Defined.

(** [RobustRmsMetric.run] on any non-empty column returns a non-negative
    number: the 75th percentile is never below the 25th. *)
Theorem RobustRmsMetric_nonneg
    (self : BaseMetric) (d : DataSlice) (col : list R) :
  getcol d (colname self) = Ok col ->
  col <> [] ->
  exists r, RobustRmsMetric.run self d = Ok (PyFloat (Fin r)) /\ 0 <= r.
Proof.
  intros Hcol Hne.
  pose proof (nonempty_length col Hne) as Hlen.
  unfold RobustRmsMetric.run. rewrite Hcol. cbn [bind].
  rewrite !np_percentile_interpolate by (try exact Hne; lra).
  cbn [bind fsub fdiv]. eexists. split; [reflexivity |].
  pose proof (position_scale (length col) 25 Hlen ltac:(lra)) as H25.
  pose proof (position_scale (length col) 75 Hlen ltac:(lra)) as H75.
  assert (Hm : interpolate (np_sort col) ((INR (length col) - 1) * (25 / 100))
               <= interpolate (np_sort col) ((INR (length col) - 1) * (75 / 100))).
  { apply interpolate_monotone; rewrite ?np_sort_length;
      [apply np_sort_sorted | lra | | lra].
    apply Rmult_le_compat_l; lra. }
  apply Rmult_le_pos; [lra |]. left. apply Rinv_0_lt_compat. lra.
Qed.

Lemma RobustRmsMetric_nonneg_witness :
  exists r,
    RobustRmsMetric.run (BaseMetric_init "x" default_badval)
      (column_slice "x" [5; 5]) = Ok (PyFloat (Fin r)) /\ 0 <= r.
Proof.
  apply (RobustRmsMetric_nonneg (BaseMetric_init "x" default_badval)
           (column_slice "x" [5; 5]) [5; 5]).
  - reflexivity.
  - discriminate.
Defined.

Lemma half_position_even k :
  (1 <= k)%nat ->
  Z.to_nat (Int_part ((INR (2 * k) - 1) * (50 / 100))) = (k - 1)%nat.
Proof.
  intros Hk. apply floor_nat_of.
  rewrite mult_INR, minus_INR by lia. cbn [INR]. lra.
Qed.

Lemma half_position_odd k :
  Z.to_nat (Int_part ((INR (2 * k + 1) - 1) * (50 / 100))) = k.
Proof.
  apply floor_nat_of. rewrite plus_INR, mult_INR. cbn [INR]. lra.
Qed.

Lemma np_percentile_50_median col :
  col <> [] -> np_percentile col 50 = Ok (np_median col).
Proof.
  intros Hne. rewrite np_percentile_interpolate by (try exact Hne; lra).
  pose proof (nonempty_length col Hne) as Hlen.
  unfold np_median. destruct col as [| x t] eqn:E; [contradiction |].
  rewrite <- E in *. clear E. cbv zeta.
  unfold interpolate. rewrite np_sort_length.
  set (s := np_sort col).
  destruct (Nat.even (length col)) eqn:Ev.
  - apply Nat.even_spec in Ev. destruct Ev as [k Hk].
    assert (Hk1 : (1 <= k)%nat) by lia.
    rewrite Hk, (half_position_even k Hk1).
    replace (2 * k / 2)%nat with k
      by (symmetry; rewrite Nat.mul_comm; apply Nat.div_mul; lia).
    replace (Nat.min (S (k - 1)) (2 * k - 1)) with k by lia.
    do 2 f_equal. rewrite mult_INR, minus_INR by lia. cbn [INR]. lra.
  - assert (Hodd : Nat.odd (length col) = true).
    { rewrite <- Nat.negb_even, Ev. reflexivity. }
    apply Nat.odd_spec in Hodd. destruct Hodd as [k Hk].
    rewrite Hk, (half_position_odd k).
    replace ((2 * k + 1) / 2)%nat with k
      by (apply (Nat.div_unique _ 2 k 1); lia).
    do 2 f_equal. rewrite plus_INR, mult_INR. cbn [INR]. lra.
Qed.

(** On a non-empty column [PercentileMetric] with percentile 50 returns
    what [MedianMetric] returns, with percentile 0 what [MinMetric] returns
    and with percentile 100 what [MaxMetric] returns. *)
Theorem PercentileMetric_median_min_max
    (self : PercentileMetric.t) (d : DataSlice) (col : list R) :
  getcol d (colname (PercentileMetric.base self)) = Ok col ->
  col <> [] ->
  (PercentileMetric.percentile self = 50 ->
     PercentileMetric.run self d = MedianMetric.run (PercentileMetric.base self) d) /\
  (PercentileMetric.percentile self = 0 ->
     PercentileMetric.run self d = MinMetric.run (PercentileMetric.base self) d) /\
  (PercentileMetric.percentile self = 100 ->
     PercentileMetric.run self d = MaxMetric.run (PercentileMetric.base self) d).
Proof.
  intros Hcol Hne.
  pose proof (nonempty_length col Hne) as Hlen.
  unfold PercentileMetric.run, MedianMetric.run, MinMetric.run, MaxMetric.run.
  rewrite Hcol. cbn [bind].
  split; [| split]; intros Hq; rewrite Hq.
  - rewrite (np_percentile_50_median col Hne). reflexivity.
  - rewrite np_percentile_interpolate by (try exact Hne; lra).
    rewrite (np_min_sorted_hd col Hne). cbn [bind].
    replace ((INR (length col) - 1) * (0 / 100)) with 0 by lra.
    rewrite interpolate_first, hd_nth_0. reflexivity.
  - rewrite np_percentile_interpolate by (try exact Hne; lra).
    rewrite (np_max_sorted_last col Hne). cbn [bind].
    replace ((INR (length col) - 1) * (100 / 100))
      with (INR (length (np_sort col) - 1))
      by (rewrite np_sort_length, minus_INR by lia; cbn [INR]; lra).
    rewrite interpolate_last by (apply np_sort_nonempty, Hne).
    rewrite last_nth_end. reflexivity.
Qed.

Lemma PercentileMetric_median_min_max_witness :
  PercentileMetric.run (PercentileMetric.__init__ "x" 50 default_badval)
    (column_slice "x" [3; 1; 2; 8])
  = MedianMetric.run (BaseMetric_init "x" default_badval)
      (column_slice "x" [3; 1; 2; 8]).
Proof.
  apply (PercentileMetric_median_min_max
           (PercentileMetric.__init__ "x" 50 default_badval)
           (column_slice "x" [3; 1; 2; 8]) [3; 1; 2; 8]).
  - reflexivity.
  - discriminate.
  - reflexivity.
Defined.

(** ** What a histogram keeps *)

Lemma bin_counts_length a : forall edges,
  length (bin_counts a edges) = (length edges - 1)%nat.
Proof.
  induction edges as [| lo [| hi rest] IH]; try reflexivity.
  rewrite bin_counts_cons. cbn [length] in *. rewrite IH. lia.
Qed.

Lemma increasing_cons lo hi rest :
  increasing (lo :: hi :: rest) = Rleb lo hi && increasing (hi :: rest).
Proof. reflexivity. Qed.

Lemma increasing_last edges : forall lo,
  increasing (lo :: edges) = true -> lo <= last edges lo.
Proof.
  induction edges as [| hi rest IH]; intros lo H; [cbn; lra |].
  rewrite increasing_cons in H. apply andb_true_iff in H. destruct H as [H1 H2].
  apply Rleb_spec in H1. specialize (IH hi H2).
  change (last (hi :: rest) lo) with (last (hi :: rest) lo).
  rewrite last_cons_default. lra.
Qed.

Lemma count_split (p q pq : R -> bool) a :
  (forall x, Nat.b2n (pq x) = (Nat.b2n (p x) + Nat.b2n (q x))%nat) ->
  count pq a = (count p a + count q a)%nat.
Proof.
  intros H. unfold count. induction a as [| x a IH]; [reflexivity |].
  cbn [filter]. specialize (H x).
  destruct (pq x), (p x), (q x); cbn [Nat.b2n] in H; cbn [length]; lia.
Qed.

(** The bins partition the span of the edges: every value from the first
    edge to the last one is counted in exactly one bin. *)
Lemma bin_counts_total a : forall edges lo,
  edges <> [] ->
  increasing (lo :: edges) = true ->
  total (bin_counts a (lo :: edges))
  = Z.of_nat (count (fun x => Rleb lo x && Rleb x (last edges lo)) a).
Proof.
  induction edges as [| hi rest IH]; intros lo Hne Hinc; [contradiction |].
  rewrite bin_counts_cons. rewrite increasing_cons in Hinc.
  apply andb_true_iff in Hinc. destruct Hinc as [Hlh Hinc].
  apply Rleb_spec in Hlh.
  destruct rest as [| e2 rest].
  - cbn [bin_counts total fold_right last]. lia.
  - pose proof (increasing_last _ _ Hinc) as Hlast.
    specialize (IH hi ltac:(discriminate) Hinc).
    change (total (?c :: ?l)) with (c + total l)%Z. rewrite IH.
    rewrite <- Nat2Z.inj_add. f_equal. symmetry.
    change (last (hi :: e2 :: rest) lo) with (last (e2 :: rest) lo).
    rewrite (last_cons_default e2 rest lo), <- (last_cons_default e2 rest hi).
    set (top := last (e2 :: rest) hi) in *.
    apply count_split. intros x. unfold Rleb, Rltb.
    destruct (Rle_dec lo x), (Rle_dec x top), (Rlt_dec x hi), (Rle_dec hi x);
      cbn; try reflexivity; lra.
Qed.

Lemma np_histogram_total a bins counts :
  (2 <= length bins)%nat ->
  np_histogram a bins = Ok counts ->
  length counts = (length bins - 1)%nat /\
  total counts
  = Z.of_nat (count (fun x => Rleb (hd 0 bins) x && Rleb x (last bins 0)) a).
Proof.
  intros Hlen H. unfold np_histogram in H.
  destruct bins as [| lo edges]; [cbn in Hlen; lia |].
  destruct (increasing (lo :: edges)) eqn:Hinc; [| discriminate].
  replace counts with (bin_counts a (lo :: edges)) by congruence.
  split; [apply bin_counts_length |].
  assert (Hne : edges <> []) by (destruct edges; [cbn in Hlen; lia | discriminate]).
  rewrite (bin_counts_total a edges lo Hne Hinc).
  cbn [hd]. rewrite last_cons_default. reflexivity.
Qed.

Lemma count_all (p : R -> bool) a :
  Forall (fun x => p x = true) a -> count p a = length a.
Proof. intros H. apply filter_length_full, H. Qed.

(** ** The gaps of sorted times *)

Lemma shifted_diffs_length s i : length (shifted_diffs s i) = (length s - i)%nat.
Proof. unfold shifted_diffs. rewrite length_map, length_seq. reflexivity. Qed.

Lemma shifted_diffs_range s i :
  StronglySorted Rle s ->
  Forall (fun g => 0 <= g <= last s 0 - hd 0 s) (shifted_diffs s i).
Proof.
  intros Hs. unfold shifted_diffs. apply Forall_map, Forall_forall.
  intros j Hj. apply in_seq in Hj. cbn beta.
  rewrite last_nth_end, hd_nth_0.
  pose proof (sorted_nth_le s Hs j (j + i) ltac:(lia) ltac:(lia)).
  pose proof (sorted_nth_le s Hs (j + i) (length s - 1) ltac:(lia) ltac:(lia)).
  pose proof (sorted_nth_le s Hs 0 j ltac:(lia) ltac:(lia)).
  lra.
Qed.

Lemma all_gaps_range s :
  StronglySorted Rle s ->
  Forall (fun g => 0 <= g <= last s 0 - hd 0 s) (all_gaps s).
Proof.
  intros Hs. unfold all_gaps. apply Forall_flat_map, Forall_forall.
  intros i _. apply shifted_diffs_range, Hs.
Qed.

Lemma flat_map_shifted_length s : forall m,
  (m < length s)%nat ->
  (2 * length (flat_map (shifted_diffs s) (seq 1 m))
   = m * (2 * length s - m - 1))%nat.
Proof.
  induction m as [| m IH]; intros Hm; [reflexivity |].
  rewrite seq_S, flat_map_app, length_app. cbn [flat_map Nat.add].
  rewrite app_nil_r, shifted_diffs_length.
  specialize (IH ltac:(lia)). nia.
Qed.

Lemma all_gaps_length s :
  (2 * length (all_gaps s) = length s * (length s - 1))%nat.
Proof.
  unfold all_gaps. destruct (length s) as [| n] eqn:E; [reflexivity |].
  replace (S n - 1)%nat with n by lia.
  pose proof (flat_map_shifted_length s n ltac:(lia)) as H. rewrite E in H. nia.
Qed.

Lemma gaps_of_length allGaps s :
  length (gaps_of allGaps s)
  = if allGaps then (length s * (length s - 1) / 2)%nat else (length s - 1)%nat.
Proof.
  destruct allGaps; cbn [gaps_of].
  - pose proof (all_gaps_length s) as H.
    apply (Nat.div_unique_exact _ 2); lia.
  - apply shifted_diffs_length.
Qed.

Lemma gaps_of_range allGaps s :
  StronglySorted Rle s ->
  Forall (fun g => 0 <= g <= last s 0 - hd 0 s) (gaps_of allGaps s).
Proof.
  intros Hs. destruct allGaps; cbn [gaps_of].
  - apply all_gaps_range, Hs.
  - apply shifted_diffs_range, Hs.
Qed.

Lemma TgapsMetric_run_gaps_of self d col :
  (2 <= size d)%nat ->
  getcol d (TgapsMetric.timesCol self) = Ok col ->
  TgapsMetric.run self d
  = (counts <- np_histogram (gaps_of (TgapsMetric.allGaps self) (np_sort col))
                 (TgapsMetric.bins self) ;;
     Ok (PyArr counts)).
Proof. apply TgapsMetric_run_long. Qed.

Lemma TgapsMetric_run_total
    (self : TgapsMetric.t) (d : DataSlice) (col : list R) :
  (2 <= size d)%nat ->
  getcol d (TgapsMetric.timesCol self) = Ok col ->
  (2 <= length (TgapsMetric.bins self))%nat ->
  increasing (TgapsMetric.bins self) = true ->
  exists counts,
    TgapsMetric.run self d = Ok (PyArr counts) /\
    length counts = (length (TgapsMetric.bins self) - 1)%nat /\
    total counts
    = Z.of_nat (count (fun g => Rleb (hd 0 (TgapsMetric.bins self)) g
                                && Rleb g (last (TgapsMetric.bins self) 0))
                      (gaps_of (TgapsMetric.allGaps self) (np_sort col))).
Proof.
  intros Hn Hcol Hlen Hinc.
  rewrite (TgapsMetric_run_gaps_of self d col Hn Hcol).
  destruct (np_histogram (gaps_of (TgapsMetric.allGaps self) (np_sort col))
              (TgapsMetric.bins self)) as [counts | e] eqn:Hh.
  - exists counts. split; [reflexivity |].
    apply (np_histogram_total _ _ _ Hlen Hh).
  - unfold np_histogram in Hh. rewrite Hinc in Hh.
    destruct (TgapsMetric.bins self); [cbn in Hlen; lia | discriminate].
Qed.

(** With increasing bin edges on a slice of at least 2 rows,
    [TgapsMetric.run] returns one count per bin, and the counts add up to
    the number of gaps lying between the first and the last edge: no gap is
    counted twice and only gaps outside the edges are dropped. *)
Theorem TgapsMetric_histogram_total
    (self : TgapsMetric.t) (d : DataSlice) (col : list R) :
  (2 <= size d)%nat ->
  getcol d (TgapsMetric.timesCol self) = Ok col ->
  (2 <= length (TgapsMetric.bins self))%nat ->
  increasing (TgapsMetric.bins self) = true ->
  exists counts,
    TgapsMetric.run self d = Ok (PyArr counts) /\
    length counts = (length (TgapsMetric.bins self) - 1)%nat /\
    total counts
    = Z.of_nat (count (fun g => Rleb (hd 0 (TgapsMetric.bins self)) g
                                && Rleb g (last (TgapsMetric.bins self) 0))
                      (gaps_of (TgapsMetric.allGaps self) (np_sort col))).
Proof.
  intros Hn Hcol Hlen Hinc.
  destruct (TgapsMetric_run_total self d col Hn Hcol Hlen Hinc)
    as (counts & Hrun & Hsize & Htot).
  exists counts. split; [exact Hrun | split; [exact Hsize | exact Htot]].
Qed.

Lemma TgapsMetric_histogram_total_witness :
  exists counts,
    TgapsMetric.run (TgapsMetric.__init__ "t" true [0; 15; 25] default_badval)
      (column_slice "t" [30; 10; 20]) = Ok (PyArr counts) /\
    length counts = (length [0; 15; 25] - 1)%nat /\
    total counts
    = Z.of_nat (count (fun g => Rleb (hd 0 [0; 15; 25]) g
                                && Rleb g (last [0; 15; 25] 0))
                      (gaps_of true (np_sort [30; 10; 20]))).
Proof.
  apply (TgapsMetric_histogram_total
           (TgapsMetric.__init__ "t" true [0; 15; 25] default_badval)
           (column_slice "t" [30; 10; 20]) [30; 10; 20]).
  - cbn. lia.
  - reflexivity.
  - cbn. lia.
  - cbn. rewrite !Rleb_true by lra. reflexivity.
Defined.

(** When the increasing bin edges start at or below 0 and end at or above
    the time span (latest minus earliest time), [TgapsMetric.run] accounts
    for every gap: the counts add up to N-1 in consecutive mode and to
    N(N-1)/2 in all-gaps mode, N being the number of rows. *)
Theorem TgapsMetric_counts_every_gap
    (self : TgapsMetric.t) (d : DataSlice) (col : list R) (lo hi : R) :
  (2 <= size d)%nat ->
  getcol d (TgapsMetric.timesCol self) = Ok col ->
  np_min col = Ok lo -> np_max col = Ok hi ->
  (2 <= length (TgapsMetric.bins self))%nat ->
  increasing (TgapsMetric.bins self) = true ->
  hd 0 (TgapsMetric.bins self) <= 0 ->
  hi - lo <= last (TgapsMetric.bins self) 0 ->
  exists counts,
    TgapsMetric.run self d = Ok (PyArr counts) /\
    total counts
    = Z.of_nat (if TgapsMetric.allGaps self
                then size d * (size d - 1) / 2
                else size d - 1)%nat.
Proof.
  intros Hn Hcol Hlo Hhi Hlen Hinc Hfirst Hlast.
  destruct (TgapsMetric_run_total self d col Hn Hcol Hlen Hinc)
    as (counts & Hrun & _ & Htot).
  exists counts. split; [exact Hrun |]. rewrite Htot. f_equal.
  assert (Hne : col <> []).
  { intros E. apply getcol_length in Hcol. rewrite E in Hcol. cbn in Hcol. lia. }
  rewrite (np_min_sorted_hd col Hne) in Hlo. injection Hlo as <-.
  rewrite (np_max_sorted_last col Hne) in Hhi. injection Hhi as <-.
  rewrite count_all.
  - rewrite gaps_of_length, np_sort_length, (getcol_length _ _ _ Hcol).
    reflexivity.
  - eapply Forall_impl; [| apply gaps_of_range, np_sort_sorted].
    intros g [Hg0 Hg1]. cbn beta.
    rewrite !Rleb_true by lra. reflexivity.
Qed.

Lemma TgapsMetric_counts_every_gap_witness :
  exists counts,
    TgapsMetric.run (TgapsMetric.__init__ "t" true [0; 15; 25] default_badval)
      (column_slice "t" [30; 10; 20]) = Ok (PyArr counts) /\
    total counts = Z.of_nat (3 * (3 - 1) / 2)%nat.
Proof.
  apply (TgapsMetric_counts_every_gap
           (TgapsMetric.__init__ "t" true [0; 15; 25] default_badval)
           (column_slice "t" [30; 10; 20]) [30; 10; 20] 10 30).
  - cbn. lia.
  - reflexivity.
  - apply np_min_spec. split; [cbn; intuition |]. repeat constructor; lra.
  - apply np_max_spec. split; [cbn; intuition |]. repeat constructor; lra.
  - cbn. lia.
  - cbn. rewrite !Rleb_true by lra. reflexivity.
  - cbn. lra.
  - cbn. lra.
Defined.

(** ** What the gap metrics do not depend on *)

(** [TgapsMetric.run] sorts the times first: two slices whose time columns
    hold the same values in a different row order give the same result. *)
Theorem TgapsMetric_row_order
    (self : TgapsMetric.t) (d d' : DataSlice) (col col' : list R) :
  getcol d (TgapsMetric.timesCol self) = Ok col ->
  getcol d' (TgapsMetric.timesCol self) = Ok col' ->
  Permutation col col' ->
  TgapsMetric.run self d = TgapsMetric.run self d'.
Proof.
  intros Hcol Hcol' Hp.
  assert (Hsize : size d = size d').
  { rewrite <- (getcol_length _ _ _ Hcol), <- (getcol_length _ _ _ Hcol').
    apply Permutation_length, Hp. }
  assert (Hsort : np_sort col = np_sort col').
  { apply np_sort_unique; [apply np_sort_sorted |].
    eapply perm_trans; [apply np_sort_perm | apply Permutation_sym, Hp]. }
  unfold TgapsMetric.run. rewrite Hsize, Hcol, Hcol'. cbn [bind].
  rewrite Hsort. reflexivity.
Qed.

Lemma TgapsMetric_row_order_witness :
  TgapsMetric.run (TgapsMetric.__init__ "t" true [0; 15; 25] default_badval)
    (column_slice "t" [30; 10; 20])
  = TgapsMetric.run (TgapsMetric.__init__ "t" true [0; 15; 25] default_badval)
      (column_slice "t" [10; 20; 30]).
Proof.
  apply (TgapsMetric_row_order
           (TgapsMetric.__init__ "t" true [0; 15; 25] default_badval)
           (column_slice "t" [30; 10; 20]) (column_slice "t" [10; 20; 30])
           [30; 10; 20] [10; 20; 30]).
  - reflexivity.
  - reflexivity.
  - apply Permutation_sym.
    apply (perm_trans (l' := [10; 30; 20])).
    + apply perm_skip, perm_swap.
    + apply perm_swap.
Defined.

Lemma np_unique_same_values col col' :
  (forall x, In x col <-> In x col') -> np_unique col = np_unique col'.
Proof.
  intros H. apply sorted_perm_eq; try apply np_unique_sorted.
  apply NoDup_Permutation; try apply np_unique_NoDup.
  intros x. rewrite !np_unique_In. apply H.
Qed.

(** [NightgapsMetric.run] works on the distinct nights only: two slices of
    at least 2 rows each whose night columns hold the same set of nights
    give the same result, however often each night is visited. *)
Theorem NightgapsMetric_same_nights
    (self : NightgapsMetric.t) (d d' : DataSlice) (col col' : list R) :
  (2 <= size d)%nat -> (2 <= size d')%nat ->
  getcol d (NightgapsMetric.nightCol self) = Ok col ->
  getcol d' (NightgapsMetric.nightCol self) = Ok col' ->
  (forall x, In x col <-> In x col') ->
  NightgapsMetric.run self d = NightgapsMetric.run self d'.
Proof.
  intros Hn Hn' Hcol Hcol' Hsame.
  rewrite (NightgapsMetric_run_long self d col Hn Hcol).
  rewrite (NightgapsMetric_run_long self d' col' Hn' Hcol').
  rewrite (np_unique_same_values col col' Hsame). reflexivity.
Qed.

Lemma NightgapsMetric_same_nights_witness :
  NightgapsMetric.run
    (NightgapsMetric.__init__ "night" false [0; 1; 2] default_badval)
    (column_slice "night" [4; 3; 4; 4])
  = NightgapsMetric.run
      (NightgapsMetric.__init__ "night" false [0; 1; 2] default_badval)
      (column_slice "night" [3; 4]).
Proof.
  apply (NightgapsMetric_same_nights
           (NightgapsMetric.__init__ "night" false [0; 1; 2] default_badval)
           (column_slice "night" [4; 3; 4; 4]) (column_slice "night" [3; 4])
           [4; 3; 4; 4] [3; 4]).
  - cbn. lia.
  - cbn. lia.
  - reflexivity.
  - reflexivity.
  - intros x. cbn. intuition.
Defined.

Lemma np_unique_single col :
  col <> [] -> all_equal col -> exists v, np_unique col = [v].
Proof.
  intros Hne Heq.
  pose proof (np_unique_NoDup col) as Hnd.
  destruct (np_unique col) as [| a [| b t]] eqn:E.
  - destruct (nonempty_In col Hne) as [x Hx].
    apply np_unique_In in Hx. rewrite E in Hx. contradiction.
  - exists a. reflexivity.
  - exfalso.
    assert (Ha : In a col) by (apply np_unique_In; rewrite E; left; reflexivity).
    assert (Hb : In b col)
      by (apply np_unique_In; rewrite E; right; left; reflexivity).
    apply NoDup_cons_iff in Hnd. destruct Hnd as [Hnd _].
    apply Hnd. rewrite (Heq a b Ha Hb). left. reflexivity.
Qed.

Lemma bin_counts_nil : forall edges, Forall (fun c => c = 0%Z) (bin_counts [] edges).
Proof.
  induction edges as [| lo [| hi rest] IH]; try constructor.
  - reflexivity.
  - exact IH.
Qed.

(** A slice of at least 2 rows whose visits all fall in one night: in
    all-gaps mode [NightgapsMetric.run] raises a value error, whatever the
    bins, because there is no round of differences to concatenate; in
    consecutive mode with increasing bins it returns a histogram of zeros. *)
Theorem NightgapsMetric_one_night
    (self : NightgapsMetric.t) (d : DataSlice) (col : list R) :
  (2 <= size d)%nat ->
  getcol d (NightgapsMetric.nightCol self) = Ok col ->
  all_equal col ->
  (NightgapsMetric.allGaps self = true ->
     NightgapsMetric.run self d = Raise ValueError) /\
  (NightgapsMetric.allGaps self = false ->
   NightgapsMetric.bins self <> [] ->
   increasing (NightgapsMetric.bins self) = true ->
   exists counts,
     NightgapsMetric.run self d = Ok (PyArr counts) /\
     Forall (fun c => c = 0%Z) counts).
Proof.
  intros Hn Hcol Heq.
  assert (Hne : col <> []).
  { intros E. apply getcol_length in Hcol. rewrite E in Hcol. cbn in Hcol. lia. }
  destruct (np_unique_single col Hne Heq) as [v Hv].
  rewrite (NightgapsMetric_run_long self d col Hn Hcol), Hv.
  split.
  - intros Hmode. rewrite Hmode. reflexivity.
  - intros Hmode Hb Hinc. rewrite Hmode. cbn [bind].
    change (consecutive_gaps [v]) with (@nil R).
    unfold np_histogram. rewrite Hinc.
    destruct (NightgapsMetric.bins self) as [| e es] eqn:Eb; [contradiction |].
    cbn [bind]. eexists. split; [reflexivity | apply bin_counts_nil].
Qed.

Lemma NightgapsMetric_one_night_witness :
  NightgapsMetric.run
    (NightgapsMetric.__init__ "night" true NightgapsMetric.default_bins
       default_badval)
    (column_slice "night" [7; 7; 7]) = Raise ValueError.
Proof.
  apply (NightgapsMetric_one_night
           (NightgapsMetric.__init__ "night" true NightgapsMetric.default_bins
              default_badval)
           (column_slice "night" [7; 7; 7]) [7; 7; 7]).
  - cbn. lia.
  - reflexivity.
  - intros x y Hx Hy. cbn in Hx, Hy. intuition lra.
  - reflexivity.
Defined.

(** ** More on the rotation of angles *)

Lemma rotateAngles_in_turn angles :
  angles <> [] -> Forall in_turn angles ->
  exists m,
    is_last_max (gap_sequence angles) m /\
    (S m mod length angles < length angles)%nat /\
    let rotation := nth (S m mod length angles) (np_sort angles) 0 in
    let rotated := map (fun a => pymod (a - rotation) twopi) angles in
    _rotateAngles angles = Ok (rotation, rotated) /\
    Permutation (gap_sequence rotated) (gap_sequence angles) /\
    last (gap_sequence rotated) 0 = nth m (gap_sequence angles) 0.
Proof.
  intros Hne Hr.
  destruct (rotateAngles_nonempty angles Hne) as [_ Hpos]. cbv zeta in Hpos.
  destruct Hpos as (m & Hmax & Heq);
    [apply Rlt_le, wraparound_positive; assumption |].
  exists m. split; [exact Hmax | split].
  - apply Nat.mod_upper_bound. destruct angles; [contradiction | discriminate].
  - cbv zeta. split; [exact Heq |].
    apply (rotation_moves_largest_gap angles m Hne Hr Hmax).
Qed.

Lemma is_last_max_np_max l m : is_last_max l m -> np_max l = Ok (nth m l 0).
Proof.
  intros (Hm & Hub & _). apply np_max_spec. split.
  - apply nth_In, Hm.
  - apply Forall_forall. intros x Hx.
    destruct (In_nth _ _ 0 Hx) as (j & Hj & <-). apply Hub, Hj.
Qed.

Lemma gap_sequence_last angles :
  last (gap_sequence angles) 0
  = twopi - last (np_sort angles) 0 + hd 0 (np_sort angles).
Proof. unfold gap_sequence. cbv zeta. apply last_app_r. discriminate. Qed.

(** For angles within one turn, [FullRangeAngleMetric.run] returns the full
    turn minus the largest gap between neighbouring angles on the circle
    (the wraparound gap included): the shortest arc that holds all the
    angles. *)
Theorem FullRangeAngleMetric_complement
    (self : BaseMetric) (d : DataSlice) (col : list R) :
  getcol d (colname self) = Ok col ->
  col <> [] ->
  Forall in_turn col ->
  exists G,
    np_max (gap_sequence col) = Ok G /\
    0 < G <= twopi /\
    FullRangeAngleMetric.run self d = Ok (PyFloat (Fin (twopi - G))).
Proof.
  intros Hcol Hne Hr.
  destruct (rotateAngles_in_turn col Hne Hr) as (m & Hmax & _ & Hrot).
  cbv zeta in Hrot. destruct Hrot as (Heq & _ & Hlast).
  set (rotation := nth (S m mod length col) (np_sort col) 0) in *.
  set (rotated := map (fun a => pymod (a - rotation) twopi) col) in *.
  assert (Hrne : rotated <> []) by (apply map_nonempty, Hne).
  rewrite gap_sequence_last in Hlast.
  exists (nth m (gap_sequence col) 0).
  split; [apply is_last_max_np_max, Hmax |].
  assert (Hord : hd 0 (np_sort rotated) <= last (np_sort rotated) 0).
  { pose proof (sorted_last_upper _ (np_sort_sorted rotated)) as H.
    rewrite Forall_forall in H. apply H, hd_In, np_sort_nonempty, Hrne. }
  assert (Hpos : 0 < nth m (gap_sequence col) 0).
  { pose proof (wraparound_positive col Hne Hr) as Hw.
    rewrite <- (gap_sequence_nth_wrap col Hne) in Hw.
    destruct Hmax as (_ & Hub & _).
    specialize (Hub (length col - 1)%nat).
    rewrite (gap_sequence_length col Hne) in Hub.
    pose proof (nonempty_length col Hne).
    specialize (Hub ltac:(lia)). lra. }
  split; [lra |].
  unfold FullRangeAngleMetric.run. rewrite Hcol. cbn [bind]. rewrite Heq.
  cbn [bind]. rewrite (np_max_sorted_last rotated Hrne).
  cbn [bind]. rewrite (np_min_sorted_hd rotated Hrne). cbn [bind].
  do 3 f_equal. lra.
Qed.

Lemma FullRangeAngleMetric_complement_witness :
  exists G,
    np_max (gap_sequence [0.5; 5.5; 1]) = Ok G /\
    0 < G <= twopi /\
    FullRangeAngleMetric.run (BaseMetric_init "x" default_badval)
      (column_slice "x" [0.5; 5.5; 1]) = Ok (PyFloat (Fin (twopi - G))).
Proof.
  apply (FullRangeAngleMetric_complement (BaseMetric_init "x" default_badval)
           (column_slice "x" [0.5; 5.5; 1]) [0.5; 5.5; 1]).
  - reflexivity.
  - discriminate.
  - pose proof twopi_bounds. repeat constructor; lra.
Defined.



(** ** The direction of the mean angle *)

Lemma turn_preserves_direction x :
  cos (x + twopi) = cos x /\ sin (x + twopi) = sin x.
Proof.
  unfold twopi. pose proof (cos_period x 1) as Hc. pose proof (sin_period x 1) as Hs.
  cbn [INR] in Hc, Hs.
  replace (x + 2 * 1 * PI) with (x + 2 * PI) in Hc, Hs by lra.
  split; assumption.
Qed.

Lemma pymod_direction x :
  - PI < x <= PI ->
  cos (pymod x twopi) = cos x /\ sin (pymod x twopi) = sin x.
Proof.
  intros Hx. pose proof PI_RGT_0 as Hp.
  destruct (Rle_dec 0 x) as [H0 | H0].
  - rewrite pymod_small by (unfold twopi; lra). split; reflexivity.
  - rewrite pymod_wrap by (unfold twopi; lra). apply turn_preserves_direction.
Qed.

Lemma zero_angle x : 0 <= x < twopi -> sin x = 0 -> cos x = 1 -> x = 0.
Proof.
  intros [H0 H1] Hs Hc. unfold twopi in H1.
  destruct (sin_eq_O_2PI_0 x H0 ltac:(lra) Hs) as [E | [E | E]].
  - exact E.
  - rewrite E, cos_PI in Hc. lra.
  - lra.
Qed.

(** Two angles within one turn that point the same way are equal. *)
Lemma same_direction a b :
  in_turn a -> in_turn b -> cos a = cos b -> sin a = sin b -> a = b.
Proof.
  intros [Ha0 Ha1] [Hb0 Hb1] Hc Hs.
  assert (Hsd : sin (a - b) = 0) by (rewrite sin_minus, Hc, Hs; lra).
  assert (Hcd : cos (a - b) = 1).
  { rewrite cos_minus, Hc, Hs. pose proof (sin2_cos2 b) as H.
    unfold Rsqr in H. lra. }
  destruct (Rle_dec b a) as [Hle | Hle].
  - assert (a - b = 0) by (apply zero_angle; [lra | assumption | assumption]).
    lra.
  - assert (b - a = 0).
    { apply zero_angle; [lra | |].
      - replace (b - a) with (- (a - b)) by lra. rewrite sin_neg, Hsd. lra.
      - replace (b - a) with (- (a - b)) by lra. rewrite cos_neg. exact Hcd. }
    lra.
Qed.

Lemma mean_angle_points_along
    (self : BaseMetric) (d : DataSlice) (col : list R) :
  getcol d (colname self) = Ok col ->
  col <> [] ->
  let meanx := mean_of (map cos col) in
  let meany := mean_of (map sin col) in
  let radius := sqrt (meanx * meanx + meany * meany) in
  0.1 <= radius ->
  exists b,
    MeanAngleMetric.run self d = Ok (PyFloat (Fin b)) /\
    in_turn b /\
    cos b = meanx / radius /\ sin b = meany / radius.
Proof.
  intros Hcol Hne meanx meany radius Hrad.
  assert (Hx : np_mean (map cos col) = Fin meanx)
    by (apply np_mean_nonempty, map_nonempty, Hne).
  assert (Hy : np_mean (map sin col) = Fin meany)
    by (apply np_mean_nonempty, map_nonempty, Hne).
  unfold MeanAngleMetric.run. rewrite Hcol. cbn [bind].
  rewrite Hx, Hy. cbn [farctan2 fmul fadd fsqrt fmod fltb]. fold radius.
  rewrite Rltb_false by exact Hrad.
  exists (pymod (np_arctan2 meany meanx) twopi).
  split; [reflexivity | split; [apply pymod_in_turn |]].
  destruct (pymod_direction _ (np_arctan2_range meany meanx)) as [Hc Hs].
  destruct (np_arctan2_direction meany meanx) as [Hc' Hs'];
    [fold radius; lra |].
  fold radius in Hc', Hs'. rewrite Hc, Hs. split; assumption.
Qed.

(** When the mean vector of the unit vectors is at least 0.1 long,
    [MeanAngleMetric.run] returns the angle within [0, 2 pi) that points
    along it: its cosine and sine are the mean cosine and the mean sine
    divided by that length. *)
Theorem MeanAngleMetric_direction
    (self : BaseMetric) (d : DataSlice) (col : list R) :
  getcol d (colname self) = Ok col ->
  col <> [] ->
  let meanx := mean_of (map cos col) in
  let meany := mean_of (map sin col) in
  let radius := sqrt (meanx * meanx + meany * meany) in
  0.1 <= radius ->
  exists b,
    MeanAngleMetric.run self d = Ok (PyFloat (Fin b)) /\
    in_turn b /\
    cos b = meanx / radius /\ sin b = meany / radius.
Proof.
  intros Hcol Hne meanx meany radius Hrad.
  destruct (mean_angle_points_along self d col Hcol Hne Hrad)
    as (b & Hrun & Hb & Hc & Hs).
  exists b. repeat split; try assumption; apply Hb.
Qed.

Lemma MeanAngleMetric_direction_witness :
  let meanx := mean_of (map cos [0]) in
  let meany := mean_of (map sin [0]) in
  let radius := sqrt (meanx * meanx + meany * meany) in
  exists b,
    MeanAngleMetric.run (BaseMetric_init "x" default_badval)
      (column_slice "x" [0]) = Ok (PyFloat (Fin b)) /\
    in_turn b /\
    cos b = meanx / radius /\ sin b = meany / radius.
Proof.
  apply (MeanAngleMetric_direction (BaseMetric_init "x" default_badval)
           (column_slice "x" [0]) [0]).
  - reflexivity.
  - discriminate.
  - unfold mean_of. cbn [map np_sum fold_right length INR].
    rewrite cos_0, sin_0.
    replace ((1 + 0) / 1 * ((1 + 0) / 1) + (0 + 0) / 1 * ((0 + 0) / 1)) with 1
      by lra.
    rewrite sqrt_1. lra.
Defined.


(** ** Angular and linear range, and the median *)

(** For angles within one turn the wraparound correction never widens the
    range: [FullRangeAngleMetric.run] is at most [FullRangeMetric.run] on
    the same slice. *)
Theorem FullRangeAngleMetric_le_FullRange
    (self : BaseMetric) (d : DataSlice) (col : list R) :
  getcol d (colname self) = Ok col ->
  col <> [] ->
  Forall in_turn col ->
  exists angular linear,
    FullRangeAngleMetric.run self d = Ok (PyFloat (Fin angular)) /\
    FullRangeMetric.run self d = Ok (PyFloat (Fin linear)) /\
    0 <= angular <= linear.
Proof.
  intros Hcol Hne Hr.
  destruct (rotateAngles_in_turn col Hne Hr) as (m & Hmax & _ & Hrot).
  cbv zeta in Hrot. destruct Hrot as (Heq & _ & Hlast).
  set (rotation := nth (S m mod length col) (np_sort col) 0) in *.
  set (rotated := map (fun a => pymod (a - rotation) twopi) col) in *.
  assert (Hrne : rotated <> []) by (apply map_nonempty, Hne).
  rewrite gap_sequence_last in Hlast.
  unfold FullRangeAngleMetric.run, FullRangeMetric.run.
  rewrite Hcol. cbn [bind]. rewrite Heq. cbn [bind].
  rewrite (np_max_sorted_last rotated Hrne), (np_min_sorted_hd rotated Hrne).
  rewrite (np_max_sorted_last col Hne), (np_min_sorted_hd col Hne).
  cbn [bind]. eexists. eexists. split; [reflexivity | split; [reflexivity |]].
  split.
  - pose proof (sorted_last_upper _ (np_sort_sorted rotated)) as H.
    rewrite Forall_forall in H.
    pose proof (H _ (hd_In _ 0 (np_sort_nonempty rotated Hrne))). lra.
  - destruct Hmax as (_ & Hub & _).
    specialize (Hub (length col - 1)%nat).
    rewrite (gap_sequence_length col Hne) in Hub.
    pose proof (nonempty_length col Hne).
    specialize (Hub ltac:(lia)).
    rewrite (gap_sequence_nth_wrap col Hne) in Hub. lra.
Qed.

Lemma FullRangeAngleMetric_le_FullRange_witness :
  exists angular linear,
    FullRangeAngleMetric.run (BaseMetric_init "x" default_badval)
      (column_slice "x" [0.5; 5.5; 1]) = Ok (PyFloat (Fin angular)) /\
    FullRangeMetric.run (BaseMetric_init "x" default_badval)
      (column_slice "x" [0.5; 5.5; 1]) = Ok (PyFloat (Fin linear)) /\
    0 <= angular <= linear.
Proof.
  apply (FullRangeAngleMetric_le_FullRange (BaseMetric_init "x" default_badval)
           (column_slice "x" [0.5; 5.5; 1]) [0.5; 5.5; 1]).
  - reflexivity.
  - discriminate.
  - pose proof twopi_bounds. repeat constructor; lra.
Defined.

(** On a non-empty column [MedianMetric.run] lies between the minimum and
    the maximum, does not depend on the row order, and
    [MedianAbsMetric.run] is non-negative. *)
Theorem MedianMetric_between_extremes
    (self : BaseMetric) (d d' : DataSlice) (col col' : list R) :
  getcol d (colname self) = Ok col ->
  getcol d' (colname self) = Ok col' ->
  col <> [] ->
  Permutation col col' ->
  exists lo med hi mabs,
    MedianMetric.run self d = Ok (PyFloat (Fin med)) /\
    MedianMetric.run self d' = Ok (PyFloat (Fin med)) /\
    MedianAbsMetric.run self d = Ok (PyFloat (Fin mabs)) /\
    np_min col = Ok lo /\ np_max col = Ok hi /\
    lo <= med <= hi /\ 0 <= mabs.
Proof.
  intros Hcol Hcol' Hne Hp.
  assert (Hne' : col' <> []).
  { intros E. rewrite E in Hp. apply Permutation_sym, Permutation_nil in Hp.
    contradiction. }
  assert (Habs : map Rabs col <> []) by (apply map_nonempty, Hne).
  assert (Hmed : forall c, c <> [] ->
            np_median c = Fin (interpolate (np_sort c)
                                 ((INR (length c) - 1) * (50 / 100)))).
  { intros c Hc. pose proof (np_percentile_50_median c Hc) as H.
    rewrite np_percentile_interpolate in H by (try exact Hc; lra).
    injection H as H. symmetry. exact H. }
  assert (Hbetween : forall c, c <> [] ->
            hd 0 (np_sort c)
            <= interpolate (np_sort c) ((INR (length c) - 1) * (50 / 100))
            <= last (np_sort c) 0).
  { intros c Hc. pose proof (nonempty_length c Hc) as Hlen.
    pose proof (position_scale (length c) 50 Hlen ltac:(lra)) as Hpos.
    pose proof (np_sort_sorted c) as Hs.
    assert (Hend : INR (length (np_sort c) - 1) = INR (length c) - 1).
    { rewrite np_sort_length, minus_INR by lia. reflexivity. }
    split.
    - rewrite hd_nth_0, <- interpolate_first.
      apply interpolate_monotone; rewrite ?np_sort_length; try exact Hs; lra.
    - rewrite last_nth_end, <- (interpolate_last _ (np_sort_nonempty c Hc)).
      apply interpolate_monotone; try exact Hs; rewrite ?Hend;
        rewrite ?np_sort_length; lra. }
  assert (Hsort : np_sort col = np_sort col').
  { apply np_sort_unique; [apply np_sort_sorted |].
    eapply perm_trans; [apply np_sort_perm | apply Permutation_sym, Hp]. }
  unfold MedianMetric.run, MedianAbsMetric.run. rewrite Hcol, Hcol'.
  cbn [bind]. rewrite (Hmed col Hne), (Hmed col' Hne'), (Hmed _ Habs).
  rewrite <- Hsort, <- (Permutation_length Hp).
  eexists (hd 0 (np_sort col)), _, (last (np_sort col) 0), _.
  split; [reflexivity | split; [reflexivity | split; [reflexivity |]]].
  split; [apply np_min_sorted_hd, Hne |].
  split; [apply np_max_sorted_last, Hne |].
  split; [apply Hbetween, Hne |].
  destruct (Hbetween _ Habs) as [Hlow _].
  eapply Rle_trans; [| exact Hlow].
  assert (Hin : In (hd 0 (np_sort (map Rabs col))) (map Rabs col)).
  { eapply Permutation_in; [apply np_sort_perm |].
    apply hd_In, np_sort_nonempty, Habs. }
  apply in_map_iff in Hin. destruct Hin as (x & <- & _). apply Rabs_pos.
Qed.

Lemma MedianMetric_between_extremes_witness :
  exists lo med hi mabs,
    MedianMetric.run (BaseMetric_init "x" default_badval)
      (column_slice "x" [3; -1; 2]) = Ok (PyFloat (Fin med)) /\
    MedianMetric.run (BaseMetric_init "x" default_badval)
      (column_slice "x" [-1; 3; 2]) = Ok (PyFloat (Fin med)) /\
    MedianAbsMetric.run (BaseMetric_init "x" default_badval)
      (column_slice "x" [3; -1; 2]) = Ok (PyFloat (Fin mabs)) /\
    np_min [3; -1; 2] = Ok lo /\ np_max [3; -1; 2] = Ok hi /\
    lo <= med <= hi /\ 0 <= mabs.
Proof.
  apply (MedianMetric_between_extremes (BaseMetric_init "x" default_badval)
           (column_slice "x" [3; -1; 2]) (column_slice "x" [-1; 3; 2])
           [3; -1; 2] [-1; 3; 2]).
  - reflexivity.
  - reflexivity.
  - discriminate.
  - apply perm_swap.
Defined.

(** ** The default time-gap bins *)

Lemma default_bins_increasing : increasing TgapsMetric.default_bins = true.
Proof.
  rewrite default_bins_edges. apply increasing_edges.
  intros j. rewrite half_day_edge_S. lra.
Qed.

Lemma default_bins_ends :
  length TgapsMetric.default_bins = 119%nat /\
  hd 0 TgapsMetric.default_bins = 0.5 /\
  last TgapsMetric.default_bins 0 = 59.5.
Proof.
  rewrite default_bins_edges. split; [| split].
  - rewrite length_map, length_seq. reflexivity.
  - cbn [seq map hd]. unfold half_day_edge. cbn [INR]. lra.
  - rewrite (seq_S 118 0), map_app. cbn [Nat.add map].
    rewrite last_app_r by discriminate. cbn [last].
    unfold half_day_edge. rewrite INR_IZR_INZ. cbn [Z.of_nat Pos.of_succ_nat Pos.succ].
    lra.
Qed.

(** With the default bins (0.5 to 59.5 days in steps of half a day) and at
    least 2 rows, [TgapsMetric.run] returns 118 counts that add up to the
    number of gaps between 0.5 and 59.5 days: shorter and longer gaps are
    left out of the histogram. *)
Theorem TgapsMetric_default_bins
    (self : TgapsMetric.t) (d : DataSlice) (col : list R) :
  TgapsMetric.bins self = TgapsMetric.default_bins ->
  (2 <= size d)%nat ->
  getcol d (TgapsMetric.timesCol self) = Ok col ->
  exists counts,
    TgapsMetric.run self d = Ok (PyArr counts) /\
    length counts = 118%nat /\
    total counts
    = Z.of_nat (count (fun g => Rleb 0.5 g && Rleb g 59.5)
                      (gaps_of (TgapsMetric.allGaps self) (np_sort col))).
Proof.
  intros Hbins Hn Hcol.
  destruct default_bins_ends as (Hlen & Hfirst & Hlast).
  destruct (TgapsMetric_run_total self d col Hn Hcol)
    as (counts & Hrun & Hsize & Htot).
  - rewrite Hbins, Hlen. lia.
  - rewrite Hbins. apply default_bins_increasing.
  - exists counts. rewrite Hbins, Hlen in Hsize.
    split; [exact Hrun | split; [exact Hsize |]].
    rewrite Htot. f_equal. apply count_ext. intros g.
    rewrite Hbins, Hfirst, Hlast. reflexivity.
Qed.

Lemma TgapsMetric_default_bins_witness :
  exists counts,
    TgapsMetric.run
      (TgapsMetric.__init__ "t" false TgapsMetric.default_bins default_badval)
      (column_slice "t" [10; 10.25; 80]) = Ok (PyArr counts) /\
    length counts = 118%nat /\
    total counts
    = Z.of_nat (count (fun g => Rleb 0.5 g && Rleb g 59.5)
                      (gaps_of false (np_sort [10; 10.25; 80]))).
Proof.
  apply (TgapsMetric_default_bins
           (TgapsMetric.__init__ "t" false TgapsMetric.default_bins default_badval)
           (column_slice "t" [10; 10.25; 80]) [10; 10.25; 80]).
  - reflexivity.
  - cbn. lia.
  - reflexivity.
Defined.

(** ** The gap histograms, from the sorted values *)

Lemma increasing_ascending bins : increasing bins = true <-> ascending bins.
Proof.
  unfold ascending. induction bins as [| lo [| hi rest] IH].
  - split; [intros _ j Hj; cbn in Hj; lia | reflexivity].
  - split; [intros _ j Hj; cbn in Hj; lia | reflexivity].
  - rewrite increasing_cons, andb_true_iff, Rleb_spec, IH. split.
    + intros [Hlo Hrest] [| j] Hj; [exact Hlo |].
      apply (Hrest j). cbn [length] in *. lia.
    + intros H. split.
      * apply (H 0%nat). cbn [length]. lia.
      * intros j Hj. apply (H (S j)). cbn [length] in *. lia.
Qed.

Lemma bin_counts_histogram a bins : bin_counts a bins = histogram_of a bins.
Proof.
  unfold histogram_of. destruct bins as [| e es]; [reflexivity |].
  replace (length (e :: es) - 1)%nat with (length es) by (cbn [length]; lia).
  rewrite <- bin_counts_arange. f_equal.
  apply (map_seq_of_nth (e :: es)). reflexivity.
Qed.

Lemma np_histogram_ascending a bins :
  ascending bins -> np_histogram a bins = Ok (histogram_of a bins).
Proof.
  intros H. apply increasing_ascending in H.
  unfold np_histogram. rewrite H, bin_counts_histogram. reflexivity.
Qed.

Lemma np_histogram_not_ascending a bins :
  ~ ascending bins -> np_histogram a bins = Raise ValueError.
Proof.
  intros H. unfold np_histogram.
  destruct (increasing bins) eqn:E; [| reflexivity].
  exfalso. apply H, increasing_ascending, E.
Qed.

Lemma TgapsMetric_run_sorted self d col s :
  (2 <= size d)%nat ->
  getcol d (TgapsMetric.timesCol self) = Ok col ->
  sorted_values col s ->
  TgapsMetric.run self d
  = (counts <- np_histogram (gaps_of (TgapsMetric.allGaps self) s)
                 (TgapsMetric.bins self) ;;
     Ok (PyArr counts)).
Proof.
  intros Hn Hcol [Hp Hs].
  rewrite (TgapsMetric_run_long self d col Hn Hcol).
  rewrite (np_sort_unique col s Hs Hp). reflexivity.
Qed.

(** C6: on a slice with at least 2 rows, with the times taken in ascending
    order, [TgapsMetric.run] histograms their first differences in
    consecutive mode and, in all-gaps mode, their differences against
    themselves shifted by i positions for every i from 1 to N-1,
    concatenated; the gaps are counted per bin of the configured edges,
    which must not decrease.  On the times 10, 20, 30, 40 the gaps are 10,
    10, 10 and 10, 10, 10, 20, 20, 30; with the default bins they fill bin
    19 with 3 counts, and bins 19, 39 and 59 with 3, 2 and 1 counts, also
    when the rows come in the order 30, 10, 40, 20. *)
Theorem TgapsMetric_run_gaps :
  (forall self d col s,
     (2 <= size d)%nat ->
     getcol d (TgapsMetric.timesCol self) = Ok col ->
     sorted_values col s ->
     let gaps := if TgapsMetric.allGaps self
                 then all_gaps s else consecutive_gaps s in
     (ascending (TgapsMetric.bins self) ->
        TgapsMetric.run self d
        = Ok (PyArr (histogram_of gaps (TgapsMetric.bins self)))) /\
     (~ ascending (TgapsMetric.bins self) ->
        TgapsMetric.run self d = Raise ValueError)) /\
  consecutive_gaps [10; 20; 30; 40] = [10; 10; 10] /\
  all_gaps [10; 20; 30; 40] = [10; 10; 10; 20; 20; 30] /\
  TgapsMetric.run
    (TgapsMetric.__init__ "observationStartMJD" false
       TgapsMetric.default_bins default_badval)
    (column_slice "observationStartMJD" [10; 20; 30; 40])
  = Ok (PyArr (repeat 0%Z 19 ++ [3%Z] ++ repeat 0%Z 98)) /\
  TgapsMetric.run
    (TgapsMetric.__init__ "observationStartMJD" true
       TgapsMetric.default_bins default_badval)
    (column_slice "observationStartMJD" [10; 20; 30; 40])
  = Ok (PyArr (repeat 0%Z 19 ++ [3%Z] ++ repeat 0%Z 19 ++ [2%Z]
               ++ repeat 0%Z 19 ++ [1%Z] ++ repeat 0%Z 58)) /\
  TgapsMetric.run
    (TgapsMetric.__init__ "observationStartMJD" true
       TgapsMetric.default_bins default_badval)
    (column_slice "observationStartMJD" [30; 10; 40; 20])
  = Ok (PyArr (repeat 0%Z 19 ++ [3%Z] ++ repeat 0%Z 19 ++ [2%Z]
               ++ repeat 0%Z 19 ++ [1%Z] ++ repeat 0%Z 58)).
Proof.
  assert (Hsorted : sorted_values [10; 20; 30; 40] [10; 20; 30; 40]).
  { split; [apply Permutation_refl | repeat constructor; lra]. }
  assert (Hmixed : sorted_values [30; 10; 40; 20] [10; 20; 30; 40]).
  { split; [| repeat constructor; lra].
    apply (Permutation_cons_app [30] [40; 20]).
    apply (Permutation_cons_app [30; 40] []). apply Permutation_refl. }
  split; [| split; [exact gaps_example_consecutive |
            split; [exact gaps_example_all | split; [| split]]]].
  - intros self d col s Hn Hcol Hs gaps.
    rewrite (TgapsMetric_run_sorted self d col s Hn Hcol Hs).
    change (gaps_of (TgapsMetric.allGaps self) s) with gaps.
    split; intros Hb.
    + rewrite np_histogram_ascending by exact Hb. reflexivity.
    + rewrite np_histogram_not_ascending by exact Hb. reflexivity.
  - rewrite (TgapsMetric_run_sorted _ _ [10; 20; 30; 40] [10; 20; 30; 40]);
      [| rewrite size_column_slice; cbn; lia
       | apply getcol_column_slice | exact Hsorted].
    cbn [TgapsMetric.allGaps TgapsMetric.bins TgapsMetric.__init__ gaps_of].
    rewrite gaps_example_consecutive, histogram_example_consecutive.
    reflexivity.
  - rewrite (TgapsMetric_run_sorted _ _ [10; 20; 30; 40] [10; 20; 30; 40]);
      [| rewrite size_column_slice; cbn; lia
       | apply getcol_column_slice | exact Hsorted].
    cbn [TgapsMetric.allGaps TgapsMetric.bins TgapsMetric.__init__ gaps_of].
    rewrite gaps_example_all, histogram_example_all.
    reflexivity.
  - rewrite (TgapsMetric_run_sorted _ _ [30; 10; 40; 20] [10; 20; 30; 40]);
      [| rewrite size_column_slice; cbn; lia
       | apply getcol_column_slice | exact Hmixed].
    cbn [TgapsMetric.allGaps TgapsMetric.bins TgapsMetric.__init__ gaps_of].
    rewrite gaps_example_all, histogram_example_all.
    reflexivity.
Qed.

Lemma TgapsMetric_run_gaps_witness :
  TgapsMetric.run (TgapsMetric.__init__ "t" true [0; 15; 25] default_badval)
    (column_slice "t" [30; 10; 20])
  = Ok (PyArr [2%Z; 1%Z]).
Proof.
  assert (Hn : le 2 (size (column_slice "t" [30; 10; 20])))
    by (rewrite size_column_slice; cbn; lia).
  assert (Hs : sorted_values [30; 10; 20] [10; 20; 30]).
  { split; [| repeat constructor; lra].
    apply (Permutation_cons_app [30] [20]). apply perm_swap. }
  assert (Hb : ascending [0; 15; 25]).
  { intros [| [| j]] Hj; cbn in *; try lra; lia. }
  destruct (proj1 TgapsMetric_run_gaps
              (TgapsMetric.__init__ "t" true [0; 15; 25] default_badval)
              (column_slice "t" [30; 10; 20]) [30; 10; 20] [10; 20; 30]
              Hn (getcol_column_slice "t" [30; 10; 20]) Hs) as [Hrun _].
  rewrite (Hrun Hb).
  cbn [TgapsMetric.allGaps TgapsMetric.bins TgapsMetric.__init__].
  unfold histogram_of, all_gaps, shifted_diffs, in_bin, count.
  cbn [length Nat.sub seq map flat_map app nth Nat.add Nat.eqb].
  cbn [filter]. rcmp. cbn [andb filter]. rcmp. cbn [andb filter length].
  reflexivity.
Defined.

(** ** Night gaps: the distinct nights *)








(** ** The mean angle as a normalised atan2 *)

Lemma np_arctan2_is_atan2 y x :
  0 < sqrt (x * x + y * y) -> is_atan2 y x (np_arctan2 y x).
Proof.
  intros Hr. destruct (np_arctan2_direction y x Hr) as [Hc Hs].
  split; [apply np_arctan2_range |].
  rewrite Hc, Hs. split; field; lra.
Qed.

Lemma whole_turns_direction x (n : nat) :
  cos (x + INR n * twopi) = cos x /\ sin (x + INR n * twopi) = sin x.
Proof.
  unfold twopi.
  replace (x + INR n * (2 * PI)) with (x + 2 * INR n * PI) by lra.
  split; [apply cos_period | apply sin_period].
Qed.

(** Angles that differ by whole turns point the same way. *)
Lemma congruent_direction a b :
  congruent b a -> cos b = cos a /\ sin b = sin a.
Proof.
  intros [k Hk]. destruct (Z_le_gt_dec 0 k) as [Hpos | Hneg].
  - rewrite Hk, <- (Z2Nat.id k), <- INR_IZR_INZ by exact Hpos.
    apply whole_turns_direction.
  - assert (Ha : a = b + INR (Z.to_nat (- k)) * twopi).
    { rewrite INR_IZR_INZ, Z2Nat.id, opp_IZR by lia. lra. }
    destruct (whole_turns_direction b (Z.to_nat (- k))) as [Hc Hs].
    rewrite Ha, Hc, Hs. split; reflexivity.
Qed.

(** The normalised atan2 is the one angle within [0, 2 pi) along (x, y). *)
Lemma normalized_atan2_unique y x a b c :
  0 < sqrt (x * x + y * y) ->
  is_atan2 y x a -> in_turn b -> congruent b a ->
  in_turn c ->
  x = sqrt (x * x + y * y) * cos c -> y = sqrt (x * x + y * y) * sin c ->
  b = c.
Proof.
  intros Hr (_ & Hx & Hy) Hb Hab Hc Hxc Hyc.
  destruct (congruent_direction a b Hab) as [Hcos Hsin].
  apply same_direction; try assumption.
  - rewrite Hcos. apply (Rmult_eq_reg_l (sqrt (x * x + y * y))); lra.
  - rewrite Hsin. apply (Rmult_eq_reg_l (sqrt (x * x + y * y))); lra.
Qed.

(** C8: on a non-empty column, with the means of the cosines and of the
    sines, [run] returns pi when the mean vector is shorter than 0.1;
    otherwise it returns atan2(mean sin, mean cos), the direction of the
    mean vector within (-pi, pi], brought into [0, 2 pi) by whole turns. *)
Theorem MeanAngleMetric_run_spec
    (self : BaseMetric) (d : DataSlice) (col : list R) :
  getcol d (colname self) = Ok col ->
  col <> [] ->
  let meanx := mean_of (map cos col) in
  let meany := mean_of (map sin col) in
  let radius := sqrt (meanx * meanx + meany * meany) in
  (radius < 0.1 -> MeanAngleMetric.run self d = Ok (PyFloat (Fin PI))) /\
  (0.1 <= radius ->
     exists a b,
       is_atan2 meany meanx a /\
       in_turn b /\ congruent b a /\
       MeanAngleMetric.run self d = Ok (PyFloat (Fin b))).
Proof.
  intros Hcol Hne meanx meany radius.
  assert (Hx : np_mean (map cos col) = Fin meanx)
    by (apply np_mean_nonempty, map_nonempty, Hne).
  assert (Hy : np_mean (map sin col) = Fin meany)
    by (apply np_mean_nonempty, map_nonempty, Hne).
  unfold MeanAngleMetric.run. rewrite Hcol. cbn [bind].
  rewrite Hx, Hy. cbn [farctan2 fmul fadd fsqrt fmod fltb]. fold radius.
  split; intros Hr.
  - rewrite Rltb_true by assumption. reflexivity.
  - rewrite Rltb_false by assumption.
    exists (np_arctan2 meany meanx), (pymod (np_arctan2 meany meanx) twopi).
    split; [apply np_arctan2_is_atan2; fold radius; lra |].
    split; [apply pymod_in_turn |].
    split; [apply pymod_congruent | reflexivity].
Qed.

Lemma mean_of_single v : mean_of [v] = v.
Proof. unfold mean_of. cbn [np_sum fold_right length INR]. field. Qed.

Lemma MeanAngleMetric_run_spec_witness :
  MeanAngleMetric.run (BaseMetric_init "x" default_badval)
    (column_slice "x" [0; PI]) = Ok (PyFloat (Fin PI)) /\
  MeanAngleMetric.run (BaseMetric_init "x" default_badval)
    (column_slice "x" [3 * (PI / 2)]) = Ok (PyFloat (Fin (3 * (PI / 2)))).
Proof.
  split.
  - apply (MeanAngleMetric_run_spec (BaseMetric_init "x" default_badval)
             (column_slice "x" [0; PI]) [0; PI]
             (getcol_column_slice "x" [0; PI])); [discriminate |].
    unfold mean_of. cbn [map np_sum fold_right length INR].
    rewrite cos_0, sin_0, cos_PI, sin_PI.
    replace ((1 + (-1 + 0)) / (1 + 1) * ((1 + (-1 + 0)) / (1 + 1))
             + (0 + (0 + 0)) / (1 + 1) * ((0 + (0 + 0)) / (1 + 1))) with 0
      by lra.
    rewrite sqrt_0. lra.
  - destruct (MeanAngleMetric_run_spec (BaseMetric_init "x" default_badval)
                (column_slice "x" [3 * (PI / 2)]) [3 * (PI / 2)]
                (getcol_column_slice "x" [3 * (PI / 2)])) as [_ Hdir];
      [discriminate |].
    cbn [map] in Hdir. rewrite !mean_of_single in Hdir.
    rewrite cos_3PI2, sin_3PI2 in Hdir.
    assert (Hr : sqrt (0 * 0 + -1 * -1) = 1).
    { replace (0 * 0 + -1 * -1) with 1 by lra. apply sqrt_1. }
    rewrite Hr in Hdir.
    destruct Hdir as (a & b & Ha & Hb & Hab & Hrun); [lra |].
    rewrite Hrun. do 3 f_equal.
    apply (normalized_atan2_unique (-1) 0 a b); try assumption.
    + rewrite Hr. lra.
    + pose proof PI_RGT_0. unfold in_turn, twopi. lra.
    + rewrite Hr, cos_3PI2. lra.
    + rewrite Hr, sin_3PI2. lra.
Defined.

(** ** The robust RMS from the quartiles *)

Lemma sorted_values_exist col : exists s, sorted_values col s.
Proof.
  exists (np_sort col). split; [apply np_sort_perm | apply np_sort_sorted].
Qed.

Lemma sorted_values_unique col s s' :
  sorted_values col s -> sorted_values col s' -> s = s'.
Proof.
  intros [Hp Hs] [Hp' Hs'].
  rewrite <- (np_sort_unique col s Hs Hp). apply np_sort_unique; assumption.
Qed.

Lemma np_percentile_sorted col s q :
  sorted_values col s -> (2 <= length col)%nat -> 0 <= q < 100 ->
  np_percentile col q = Ok (Fin (percentile_at s q)).
Proof.
  intros [Hp Hs] Hn Hq. unfold np_percentile.
  rewrite (Rltb_false q 0), (Rltb_false 100 q) by lra. cbn [orb].
  destruct col as [| x col]; [cbn in Hn; lia |].
  cbv zeta. rewrite Nat.min_l by (apply floor_position; assumption).
  rewrite (np_sort_unique _ s Hs Hp).
  unfold percentile_at. rewrite (Permutation_length Hp). cbv zeta.
  do 2 f_equal. ring.
Qed.

(** C9: on a slice whose column holds at least 4 distinct values, [run]
    returns (75th percentile - 25th percentile) / 1.349, the percentiles
    being those of the column values taken in ascending order. *)
Theorem RobustRmsMetric_run_spec
    (self : BaseMetric) (d : DataSlice) (col s : list R) :
  getcol d (colname self) = Ok col ->
  distinct_values 4 col ->
  sorted_values col s ->
  RobustRmsMetric.run self d
    = Ok (PyFloat (Fin ((percentile_at s 75 - percentile_at s 25) / 1.349))).
Proof.
  intros Hcol Hd Hs. apply distinct_values_length in Hd.
  unfold RobustRmsMetric.run. rewrite Hcol. cbn [bind].
  rewrite (np_percentile_sorted col s 75 Hs) by (try lia; lra).
  rewrite (np_percentile_sorted col s 25 Hs) by (try lia; lra).
  reflexivity.
Qed.

Lemma RobustRmsMetric_run_spec_witness :
  RobustRmsMetric.run (BaseMetric_init "x" default_badval)
    (column_slice "x" [4; 1; 3; 2])
  = Ok (PyFloat (Fin (1.5 / 1.349))).
Proof.
  rewrite (RobustRmsMetric_run_spec (BaseMetric_init "x" default_badval)
             (column_slice "x" [4; 1; 3; 2]) [4; 1; 3; 2] [1; 2; 3; 4]).
  - rewrite percentile_example_75, percentile_example_25.
    do 3 f_equal. lra.
  - apply getcol_column_slice.
  - exists [4; 1; 3; 2]. split; [| split].
    + repeat constructor; cbn; intuition lra.
    + intros x Hx. exact Hx.
    + cbn. lia.
  - split.
    + apply (Permutation_cons_app [4] [3; 2]).
      apply (Permutation_cons_app [4; 3] []). apply perm_swap.
    + repeat constructor; lra.
Defined.

(** ** Ties with the mean under binary64 rounding *)




(** The fuel of [pairwise_sum] never runs out in [np_sum]: any two amounts
    that reach the length of the array give the same sum. *)
Lemma pairwise_sum_fuel : forall f f' a,
  (length a <= f)%nat -> (length a <= f')%nat ->
  Binary64.pairwise_sum f a = Binary64.pairwise_sum f' a.
Proof.
  induction f as [| f IH]; intros f' a Hf Hf'.
  - destruct a; [| cbn in Hf; lia]. destruct f'; reflexivity.
  - destruct f' as [| f'].
    + destruct a; [| cbn in Hf'; lia]. reflexivity.
    + cbn [Binary64.pairwise_sum].
      destruct (length a <? 8)%nat eqn:E8; [reflexivity |].
      destruct (length a <=? 128)%nat eqn:E128; [reflexivity |].
      apply Nat.leb_gt in E128.
      pose proof (Nat.div_mod_eq (length a) 2) as Hd.
      pose proof (Nat.mod_upper_bound (length a) 2 ltac:(lia)) as Hr.
      pose proof (Nat.mod_upper_bound (length a / 2) 8 ltac:(lia)) as Hm.
      set (n2 := (length a / 2 - (length a / 2) mod 8)%nat).
      assert (Hn2 : (1 <= n2 < length a)%nat) by (unfold n2; lia).
      assert (L1 : length (firstn n2 a) = n2) by (rewrite length_firstn; lia).
      assert (L2 : length (skipn n2 a) = (length a - n2)%nat)
        by apply length_skipn.
      rewrite (IH f' (firstn n2 a)), (IH f' (skipn n2 a)) by lia.
      reflexivity.
Qed.











(** Rounded sums at work: ten times 0.1 adds up to 1 in numpy's order
    (from left to right it would be 0.9999999999999999), and the standard
    deviation of the constant column 0.1, 0.1, 0.1 is not zero, because
    its computed mean is 0.10000000000000002. *)
#[warnings="-inexact-float"] Lemma binary64_examples :
  Binary64.np_sum (repeat 0.1 10)%float = 1%float /\
  fold_left PrimFloat.add (repeat 0.1 10)%float 0%float
  = 0.9999999999999999%float /\
  Binary64.np_mean [0.1; 0.1; 0.1]%float = 0.10000000000000002%float /\
  Binary64.np_std [0.1; 0.1; 0.1]%float = 1.3877787807814457e-17%float.
Proof. repeat split; vm_compute; reflexivity. Qed.




